(** * Lifecycle core of testplan: status machines, resources, environments
      and runnables ([testplan/common/entity/base.py]).

    The Python classes are embedded shallowly.  Dictionaries with no
    meaningful order are [gmap]s, sets are [gset]s, [OrderedDict]s are
    association lists in insertion order, and Python objects that are
    shared by reference (resources) live in a store indexed by address. *)

From Stdlib Require Import ZArith.
From stdpp Require Import base option list strings gmap functions.

Open Scope string_scope.
Open Scope list_scope.

(** ** Python values and exceptions *)

(** A status tag: [None] is [EntityStatus.NONE], the other tags are the
    strings the classes declare. *)
Abbreviation tag := (option string).

(** The exception classes the module raises or catches.  All of them derive
    from [Exception], so every [except Exception] clause catches them.
    [PropertyAttributeError] is the [AttributeError] of an attribute read on
    a [property] object. *)
Inductive exn : Type :=
  | StatusTransitionException (current new : tag) (key_error : bool)
  | RuntimeError (msg : string)
  | NotImplementedError
  | IndexError
  | UserException (msg : string)
  | PropertyAttributeError (attribute : string).

Global Instance exn_eq_dec : EqDecision exn.
Proof. solve_decision. Defined.

(** What a step may return and what [step_results] may hold. *)
Inductive value : Type :=
  | VNone
  | VBool (b : bool)
  | VInt (n : Z)
  | VStr (s : string)
  | VExc (e : exn).

Global Instance value_eq_dec : EqDecision value.
Proof. solve_decision. Defined.

(** ** EntityStatus *)

Module EntityStatus.

Definition NONE : tag := None.
Definition PAUSING : tag := Some "PAUSING".
Definition PAUSED : tag := Some "PAUSED".
Definition RESUMING : tag := Some "RESUMING".

(** [EntityStatus.transitions]. *)
Definition transitions : gmap tag (gset tag) :=
  {[ PAUSING := {[ PAUSED ]}; PAUSED := {[ RESUMING ]} ]}.

(** [EntityStatus.change]: the result is the new value of [_current], or
    the exception raised, in which case [_current] is not assigned.  The
    lookup [self._transitions[current]] is only evaluated when
    [current == new] is false; its [KeyError] is turned into a
    [StatusTransitionException]. *)
Definition change (table : gmap tag (gset tag)) (current new : tag)
  : exn + tag :=
  if decide (current = new) then inr new
  else match table !! current with
       | Some successors =>
           if decide (new ∈ successors) then inr new
           else inl (StatusTransitionException current new false)
       | None => inl (StatusTransitionException current new true)
       end.

(** The status object: [_current] and [_metadata]; [_transitions] is fixed
    by the class and passed to [change]. *)
Record t : Type := mk {
  _current : tag;
  _metadata : list (string * value)
}.

Definition init : t := {| _current := NONE; _metadata := [] |}.

(** The tag after a call of [change], whether it raised or not. *)
Definition tag_after (table : gmap tag (gset tag)) (current new : tag) : tag :=
  match change table current new with
  | inr t' => t'
  | inl _ => current
  end.

(** The legal-successor set of a tag: the table entry, empty when the
    table has no entry for the tag. *)
Definition successors (table : gmap tag (gset tag)) (a : tag) : gset tag :=
  default ∅ (table !! a).

End EntityStatus.

(** [dict.update] on an [OrderedDict]: an existing key keeps its position and
    takes the new value, a new key goes to the end. *)
Fixpoint od_set {K V} `{EqDecision K} (k : K) (v : V) (d : list (K * V))
  : list (K * V) :=
  match d with
  | [] => [(k, v)]
  | (k', v') :: d' =>
      if decide (k' = k) then (k, v) :: d' else (k', v') :: od_set k v d'
  end.

Fixpoint od_get {K V} `{EqDecision K} (k : K) (d : list (K * V)) : option V :=
  match d with
  | [] => None
  | (k', v') :: d' => if decide (k' = k) then Some v' else od_get k d'
  end.

Definition od_mem {K V} `{EqDecision K} (k : K) (d : list (K * V)) : bool :=
  bool_decide (is_Some (od_get k d)).

Module RunnableStatus.

Definition NONE : tag := None.
Definition EXECUTING : tag := Some "EXECUTING".
Definition RUNNING : tag := Some "RUNNING".
Definition FINISHED : tag := Some "FINISHED".
Definition PAUSING : tag := Some "PAUSING".
Definition PAUSED : tag := Some "PAUSED".
Definition RESUMING : tag := Some "RESUMING".

(** [RunnableStatus.transitions]: the base table updated with the
    overrides. *)
Definition overrides : gmap tag (gset tag) :=
  {[ NONE := {[ RUNNING ]};
     RUNNING := {[ FINISHED; EXECUTING; PAUSING ]};
     EXECUTING := {[ RUNNING ]};
     PAUSING := {[ PAUSED ]};
     PAUSED := {[ RESUMING ]};
     RESUMING := {[ RUNNING ]};
     FINISHED := {[ RUNNING ]} ]}.

Definition transitions : gmap tag (gset tag) :=
  overrides ∪ EntityStatus.transitions.

End RunnableStatus.

Module ResourceStatus.

Definition NONE : tag := None.
Definition PAUSING : tag := Some "PAUSING".
Definition PAUSED : tag := Some "PAUSED".
Definition RESUMING : tag := Some "RESUMING".
Definition STARTING : tag := Some "STARTING".
Definition STARTED : tag := Some "STARTED".
Definition STOPPING : tag := Some "STOPPING".
Definition STOPPED : tag := Some "STOPPED".

(** [ResourceStatus.transitions]. *)
Definition overrides : gmap tag (gset tag) :=
  {[ NONE := {[ STARTING ]};
     STARTING := {[ STARTED; STOPPING ]};
     STARTED := {[ PAUSING; STOPPING ]};
     PAUSING := {[ PAUSED ]};
     PAUSED := {[ RESUMING; STOPPING ]};
     RESUMING := {[ STARTED ]};
     STOPPING := {[ STOPPED ]};
     STOPPED := {[ STARTING ]} ]}.

Definition transitions : gmap tag (gset tag) :=
  overrides ∪ EntityStatus.transitions.

End ResourceStatus.

(** ** Hooks, events and the timing helper *)

(** The overridable hooks ([starting], [stopping], [aborting]) hold
    resource-specific logic.  A hook is modelled by what it does to its own
    entity: the status changes it requests through [status.change], in
    order, and the exception it raises afterwards, if any.  A refused change
    raises out of the hook at once. *)
Record hook : Type := Hook {
  hook_changes : list tag;
  hook_raises : option exn
}.

Fixpoint run_changes (table : gmap tag (gset tag)) (current : tag)
    (requests : list tag) : option exn * tag :=
  match requests with
  | [] => (None, current)
  | new :: rest =>
      match EntityStatus.change table current new with
      | inr t => run_changes table t rest
      | inl e => (Some e, current)
      end
  end.

Definition run_hook (table : gmap tag (gset tag)) (current : tag) (h : hook)
  : option exn * tag :=
  match run_changes table current (hook_changes h) with
  | (Some e, t) => (Some e, t)
  | (None, t) => (hook_raises h, t)
  end.

(** Resources are shared objects: they are named by address. *)
Abbreviation addr := nat.

Inductive entity_ref : Type :=
  | Self
  | Res (a : addr).

(** Instrumentation: the calls made on entities, in the order they happen. *)
Inductive event : Type :=
  | EvStart (a : addr)
  | EvStop (a : addr)
  | EvWait (a : addr) (target : tag)
  | EvSetShouldAbort (who : entity_ref)
  | EvAbort (a : addr)
  | EvAborting (who : entity_ref)
  | EvSetAborted (who : entity_ref)
  | EvWaitAborted (a : addr) (reached : bool)
  | EvAbortError (a : addr) (e : exn)
  | EvStep (name : string).

Global Instance entity_ref_eq_dec : EqDecision entity_ref.
Proof. solve_decision. Defined.
Global Instance event_eq_dec : EqDecision event.
Proof. solve_decision. Defined.

(** Modelled from the spec: [testplan.common.utils.timing.wait] is not among
    the sources.  It polls a predicate at a fixed interval until the
    predicate holds or the timeout elapses, and returns a failure indication
    ([False]) instead of raising when the timeout elapses first;
    [_abort_entity] relies on that with [wait(...) is False].  [polls] lists
    the states the predicate is evaluated on, one per poll made before the
    timeout elapses. *)
Fixpoint timing_wait {A} (predicate : A → bool) (polls : list A) : bool :=
  match polls with
  | [] => false
  | s :: rest => if predicate s then true else timing_wait predicate rest
  end.

(** Without another thread every poll reads the same state: one poll
    decides the outcome, whatever the timeout. *)
Definition polls_alone {A} (timeout : Z) (s : A) : list A := [s].

(** The state at the moment [timing_wait] returns. *)
Fixpoint state_after_wait {A} (predicate : A → bool) (current : A)
    (polls : list A) : A :=
  match polls with
  | [] => current
  | s :: rest => if predicate s then s else state_after_wait predicate s rest
  end.

(** ** Entity *)

Module Entity.

(** A wait handler gets the timeout and acts on the status tag. *)
Abbreviation handler := (Z → tag → exn + tag).

(** [Entity.active]. *)
Definition active (should_abort aborted : bool) : bool :=
  negb should_abort && negb aborted.

(** [timeout or self.cfg.status_wait_timeout]. *)
Definition timeout_or (timeout : option Z) (configured : Z) : Z :=
  match timeout with
  | Some t => if decide (t = 0%Z) then configured else t
  | None => configured
  end.

(** [Entity.wait].  [polls] gives, for a timeout, the tags read by the
    polls made before it elapses (they change only through other
    threads).  The method has no [return] statement: when it does not
    raise, its value is [None].  The second component is the tag when
    the call ends. *)
Definition wait (handlers : gmap tag handler) (status_wait_timeout : Z)
    (polls : Z → list tag) (current target : tag) (timeout : option Z)
  : (exn + value) * tag :=
  let timeout := timeout_or timeout status_wait_timeout in
  match handlers !! target with
  | Some h =>
      match h timeout current with
      | inr t => (inr VNone, t)
      | inl e => (inl e, current)
      end
  | None =>
      let reached := timing_wait (λ t, bool_decide (t = target)) (polls timeout) in
      (inr VNone,
       state_after_wait (λ t, bool_decide (t = target)) current (polls timeout))
  end.

End Entity.

(** ** Resource *)

Module Resource.

Import ResourceStatus.

(** The options the module reads: [name] is read when a failure of the
    resource is recorded. *)
Record config : Type := Config {
  name : string;
  async_start : bool;
  status_wait_timeout : Z
}.

(** [_context] refers to an environment, by its identity; [_uid] is the
    identifier [uid()] returns. *)
Record t : Type := mk {
  cfg : config;
  _status : EntityStatus.t;
  _should_abort : bool;
  _aborted : bool;
  _context : option nat;
  _uid : string;
  starting : hook;
  stopping : hook;
  aborting : hook
}.

Definition tag_of (r : t) : tag := EntityStatus._current (_status r).

Definition set_tag (r : t) (new : tag) : t :=
  mk (cfg r)
     (EntityStatus.mk new (EntityStatus._metadata (_status r)))
     (_should_abort r) (_aborted r) (_context r) (_uid r)
     (starting r) (stopping r) (aborting r).

Definition set_context (r : t) (c : option nat) : t :=
  mk (cfg r) (_status r) (_should_abort r) (_aborted r) c (_uid r)
     (starting r) (stopping r) (aborting r).

Definition set_should_abort (r : t) (b : bool) : t :=
  mk (cfg r) (_status r) b (_aborted r) (_context r) (_uid r)
     (starting r) (stopping r) (aborting r).

Definition set_aborted (r : t) (b : bool) : t :=
  mk (cfg r) (_status r) (_should_abort r) b (_context r) (_uid r)
     (starting r) (stopping r) (aborting r).

(** [Resource.__init__] with the base-class hooks: [starting] and
    [stopping] raise [NotImplementedError], [aborting] only logs. *)
Definition init (c : config) (uid : string) : t :=
  mk c EntityStatus.init false false None uid
     (Hook [] (Some NotImplementedError))
     (Hook [] (Some NotImplementedError))
     (Hook [] None).

Definition active (r : t) : bool :=
  Entity.active (_should_abort r) (_aborted r).

(** [self.status.change(new)] on a resource. *)
Definition change (r : t) (new : tag) : option exn * t :=
  match EntityStatus.change transitions (tag_of r) new with
  | inr t' => (None, set_tag r t')
  | inl e => (Some e, r)
  end.

(** A call of one of the hooks of the resource. *)
Definition call_hook (r : t) (h : hook) : option exn * t :=
  let '(oe, t') := run_hook transitions (tag_of r) h in
  (oe, set_tag r t').

(** [Resource.start]. *)
Definition start (r : t) : option exn * t :=
  match change r STARTING with
  | (Some e, r') => (Some e, r')
  | (None, r') => call_hook r' (starting r')
  end.

(** [Resource.stop]. *)
Definition stop (r : t) : option exn * t :=
  match change r STOPPING with
  | (Some e, r') => (Some e, r')
  | (None, r') => if active r' then call_hook r' (stopping r') else (None, r')
  end.

(** [_wait_started] and [_wait_stopped], registered by [__init__]. *)
Definition _wait_started : Entity.handler :=
  λ _ current, EntityStatus.change transitions current STARTED.
Definition _wait_stopped : Entity.handler :=
  λ _ current, EntityStatus.change transitions current STOPPED.

Definition _wait_handlers : gmap tag Entity.handler :=
  {[ STARTED := _wait_started; STOPPED := _wait_stopped ]}.

(** [Entity.wait] called on a resource.  In the calls made by the
    environment no other thread runs: a poll reads the current tag. *)
Definition wait (r : t) (target : tag) : option exn * t :=
  match Entity.wait _wait_handlers (status_wait_timeout (cfg r))
          (λ timeout, polls_alone timeout (tag_of r)) (tag_of r) target None with
  | (inl e, t') => (Some e, set_tag r t')
  | (inr _, t') => (None, set_tag r t')
  end.

(** [Entity.abort] on a resource: it has no dependencies of its own. *)
Definition abort (a : addr) (r : t) : option exn * t * list event :=
  let r1 := set_should_abort r true in
  match call_hook r1 (aborting r1) with
  | (Some e, r2) => (Some e, r2, [EvSetShouldAbort (Res a); EvAborting (Res a)])
  | (None, r2) =>
      (None, set_aborted r2 true,
       [EvSetShouldAbort (Res a); EvAborting (Res a); EvSetAborted (Res a)])
  end.

End Resource.

(** The object store: every address holds a resource. *)
Abbreviation store := (addr → Resource.t).

(** ** Environment *)

Module Environment.

Import ResourceStatus.

(** A recorded failure: the resource name and the exception that the
    message is formatted from. *)
Definition failure : Type := (string * exn)%type.

(** [env_id] is the identity of the environment object; [parent] refers to
    the entity that owns the environment and is [None] for an environment
    built without one; the keys of the two failure maps are resource
    objects. *)
Record t : Type := mk {
  env_id : nat;
  _resources : list (string * addr);
  parent : option entity_ref;
  start_exceptions : list (addr * failure);
  stop_exceptions : list (addr * failure)
}.

(** [Environment.__init__]. *)
Definition init (id : nat) (parent : option entity_ref) : t :=
  mk id [] parent [] [].

(** [self.logger.debug(...)].  The property [logger] gives the logger of the
    parent, which logs and returns.  Without a parent it gives
    [Entity.logger] read on the class: that is the [property] object, not a
    logger, and reading [debug] on it raises [AttributeError]. *)
Definition logger_debug (e : t) : option exn :=
  match parent e with
  | Some _ => None
  | None => Some (PropertyAttributeError "debug")
  end.

Definition values (e : t) : list addr := (_resources e).*2.

(** [Environment.add].  [item.uid()] is the identifier held by the
    resource.  The context of the item is assigned before the check. *)
Definition add (e : t) (σ : store) (item : addr) (uid : option string)
  : (exn + string) * t * store :=
  let uid := default (Resource._uid (σ item)) uid in
  let σ1 := <[item := Resource.set_context (σ item) (Some (env_id e))]> σ in
  if od_mem uid (_resources e)
  then (inl (RuntimeError ("Uid " +:+ uid +:+ " already in context.")), e, σ1)
  else (inr uid,
        mk (env_id e) (od_set uid item (_resources e)) (parent e)
           (start_exceptions e) (stop_exceptions e),
        σ1).

(** The body of the [try] in the first loop of [start]. *)
Definition start_one (r : Resource.t) : option exn * Resource.t * list tag :=
  match Resource.start r with
  | (Some e, r') => (Some e, r', [])
  | (None, r') =>
      if Resource.async_start (Resource.cfg r') then (None, r', [])
      else let '(oe, r'') := Resource.wait r' STARTED in (oe, r'', [STARTED])
  end.

(** First loop of [start]: stops at the first failure.  [debug] is what
    [self.logger.debug] does, the first statement of the [try]: when it
    raises, [resource.start()] is not reached and the exception is the
    failure recorded. *)
Fixpoint start_loop (debug : option exn) (excs : list (addr * failure))
    (σ : store) (rs : list addr)
  : list (addr * failure) * store * list event :=
  match rs with
  | [] => (excs, σ, [])
  | a :: rest =>
      match debug with
      | Some e => (od_set a (Resource.name (Resource.cfg (σ a)), e) excs, σ, [])
      | None =>
          let '(oe, r', waits) := start_one (σ a) in
          let evs := EvStart a :: (EvWait a <$> waits) in
          match oe with
          | Some e =>
              (od_set a (Resource.name (Resource.cfg r'), e) excs,
               <[a := r']> σ, evs)
          | None =>
              let '(excs', σ', evs') :=
                start_loop debug excs (<[a := r']> σ) rest in
              (excs', σ', evs ++ evs')
          end
      end
  end.

(** Second loop of [start]; an exception of [wait] is not caught. *)
Fixpoint start_wait_loop (excs : list (addr * failure)) (σ : store)
    (rs : list addr) : option exn * store * list event :=
  match rs with
  | [] => (None, σ, [])
  | a :: rest =>
      if negb (Resource.async_start (Resource.cfg (σ a)))
      then start_wait_loop excs σ rest
      else if od_mem a excs then (None, σ, [])
      else
        match Resource.wait (σ a) STARTED with
        | (Some e, r') => (Some e, <[a := r']> σ, [EvWait a STARTED])
        | (None, r') =>
            let '(oe, σ', evs) := start_wait_loop excs (<[a := r']> σ) rest in
            (oe, σ', EvWait a STARTED :: evs)
        end
  end.

(** [Environment.start]. *)
Definition start (e : t) (σ : store) : option exn * t * store * list event :=
  let '(excs, σ1, evs1) :=
    start_loop (logger_debug e) (start_exceptions e) σ (values e) in
  let e1 := mk (env_id e) (_resources e) (parent e) excs (stop_exceptions e) in
  let '(oe, σ2, evs2) := start_wait_loop excs σ1 (values e) in
  (oe, e1, σ2, evs1 ++ evs2).

(** First loop of [stop]: every failure is recorded, none stops it.
    [debug] is what [self.logger.debug] does, the first statement of the
    [try]: when it raises, [resource.stop()] is not reached and the
    exception is the failure recorded. *)
Fixpoint stop_loop (debug : option exn) (excs : list (addr * failure))
    (σ : store) (rs : list addr)
  : list (addr * failure) * store * list event :=
  match rs with
  | [] => (excs, σ, [])
  | a :: rest =>
      if decide (Resource.tag_of (σ a) = NONE) then stop_loop debug excs σ rest
      else
        match debug with
        | Some e =>
            stop_loop debug
              (od_set a (Resource.name (Resource.cfg (σ a)), e) excs) σ rest
        | None =>
            let '(oe, r') := Resource.stop (σ a) in
            let excs1 :=
              match oe with
              | Some e => od_set a (Resource.name (Resource.cfg r'), e) excs
              | None => excs
              end in
            let '(excs', σ', evs) :=
              stop_loop debug excs1 (<[a := r']> σ) rest in
            (excs', σ', EvStop a :: evs)
        end
  end.

(** Second loop of [stop]; an exception of [wait] is not caught. *)
Fixpoint stop_wait_loop (excs : list (addr * failure)) (σ : store)
    (rs : list addr) : option exn * store * list event :=
  match rs with
  | [] => (None, σ, [])
  | a :: rest =>
      if od_mem a excs then stop_wait_loop excs σ rest
      else if decide (Resource.tag_of (σ a) = NONE)
      then stop_wait_loop excs σ rest
      else
        match Resource.wait (σ a) STOPPED with
        | (Some e, r') => (Some e, <[a := r']> σ, [EvWait a STOPPED])
        | (None, r') =>
            let '(oe, σ', evs) := stop_wait_loop excs (<[a := r']> σ) rest in
            (oe, σ', EvWait a STOPPED :: evs)
        end
  end.

(** [Environment.stop]. *)
Definition stop (e : t) (σ : store) (reversed : bool)
  : option exn * t * store * list event :=
  let resources := if reversed then reverse (values e) else values e in
  let '(excs, σ1, evs1) :=
    stop_loop (logger_debug e) (stop_exceptions e) σ resources in
  let e1 := mk (env_id e) (_resources e) (parent e) (start_exceptions e) excs in
  let '(oe, σ2, evs2) := stop_wait_loop excs σ1 resources in
  (oe, e1, σ2, evs1 ++ evs2).

End Environment.

(** ** Runnable *)

(** [run_result]'s test on one recorded value:
    [not isinstance(val, Exception) and val is not False]. *)
Definition isinstance_Exception (v : value) : bool :=
  match v with VExc _ => true | _ => false end.

Definition is_False (v : value) : bool :=
  match v with VBool false => true | _ => false end.

Module Runnable.

Import RunnableStatus.

Record config : Type := Config {
  interactive : bool;
  abort_wait_timeout : Z
}.

(** The fields of a runnable apart from its queue of steps: the steps act
    on these.  [run] is the attribute [_result.run], absent until [run()]
    assigns it. *)
Record core : Type := mkCore {
  cfg : config;
  _status : EntityStatus.t;
  _should_abort : bool;
  _aborted : bool;
  _environment : Environment.t;
  objects : store;
  step_results : list (string * value);
  run_field : option value;
  trace : list event
}.

(** A queued step: the callable with its arguments bound.  Calling it
    returns a value or raises, and may change the runnable. *)
Record step : Type := Step {
  step_name : string;
  step_call : core → (exn + value) * core
}.

Record t : Type := mk {
  state : core;
  _steps : list step
}.

(** What a subclass may override.  The three [*_steps] methods are given
    by the steps they add. *)
Record methods : Type := Methods {
  setup : core → (exn + value) * core;
  teardown : core → (exn + value) * core;
  pre_resource_steps : list step;
  main_batch_steps : list step;
  post_resource_steps : list step;
  skip_step : step → bool;
  aborting : hook
}.

(** The methods as [Runnable] defines them. *)
Definition base : methods :=
  Methods (λ c, (inr VNone, c)) (λ c, (inr VNone, c)) [] [] []
          (λ _, false) (Hook [] None).

Definition tag_of (c : core) : tag := EntityStatus._current (_status c).

Definition set_tag (c : core) (new : tag) : core :=
  mkCore (cfg c) (EntityStatus.mk new (EntityStatus._metadata (_status c)))
         (_should_abort c) (_aborted c) (_environment c) (objects c)
         (step_results c) (run_field c) (trace c).

Definition update_metadata (c : core) (k : string) (v : value) : core :=
  mkCore (cfg c)
         (EntityStatus.mk (tag_of c)
            (od_set k v (EntityStatus._metadata (_status c))))
         (_should_abort c) (_aborted c) (_environment c) (objects c)
         (step_results c) (run_field c) (trace c).

Definition set_should_abort (c : core) (b : bool) : core :=
  mkCore (cfg c) (_status c) b (_aborted c) (_environment c) (objects c)
         (step_results c) (run_field c) (trace c).

Definition set_aborted (c : core) (b : bool) : core :=
  mkCore (cfg c) (_status c) (_should_abort c) b (_environment c) (objects c)
         (step_results c) (run_field c) (trace c).

Definition set_resources (c : core) (e : Environment.t) (σ : store) : core :=
  mkCore (cfg c) (_status c) (_should_abort c) (_aborted c) e σ
         (step_results c) (run_field c) (trace c).

Definition set_step_result (c : core) (k : string) (v : value) : core :=
  mkCore (cfg c) (_status c) (_should_abort c) (_aborted c)
         (_environment c) (objects c)
         (od_set k v (step_results c)) (run_field c) (trace c).

Definition set_run (c : core) (v : value) : core :=
  mkCore (cfg c) (_status c) (_should_abort c) (_aborted c)
         (_environment c) (objects c) (step_results c) (Some v) (trace c).

Definition log (c : core) (evs : list event) : core :=
  mkCore (cfg c) (_status c) (_should_abort c) (_aborted c)
         (_environment c) (objects c) (step_results c) (run_field c)
         (trace c ++ evs).

(** [Runnable.__init__]. *)
Definition init (c : config) (env_id : nat) (σ : store) : t :=
  mk (mkCore c EntityStatus.init false false
             (Environment.init env_id (Some Self)) σ
             [] None [])
     [].

Definition active (c : core) : bool :=
  Entity.active (_should_abort c) (_aborted c).

(** [_add_step]. *)
Definition _add_step (s : step) (r : t) : t :=
  mk (state r) (_steps r ++ [s]).

(** [run_result]. *)
Definition run_result (c : core) : bool :=
  forallb (λ v, negb (isinstance_Exception v) && negb (is_False v))
          (step_results c).*2.

(** [_execute_step]: the value returned or the exception caught is stored
    under the name of the step, then added to the status metadata (keyed
    there by the text of the step, for which the name stands). *)
Definition _execute_step (s : step) (c : core) : core :=
  let '(outcome, c') := step_call s (log c [EvStep (step_name s)]) in
  let res := match outcome with inr v => v | inl e => VExc e end in
  update_metadata (set_step_result c' (step_name s) res) (step_name s) res.

(** The [while] loop of [_run].  One unit of fuel is one iteration; the
    iteration that finds the status different from RUNNING only sleeps.
    [pre_step_call] and [post_step_call] do nothing. *)
Fixpoint _run_loop (m : methods) (fuel : nat) (r : t)
  : option (option exn * t) :=
  match fuel with
  | O => None
  | S fuel' =>
      if negb (active (state r)) then Some (None, r)
      else if decide (tag_of (state r) = RUNNING) then
        match _steps r with
        | [] =>
            match EntityStatus.change transitions (tag_of (state r)) FINISHED with
            | inr t' => Some (None, mk (set_tag (state r) t') [])
            | inl e => Some (Some e, r)
            end
        | s :: rest =>
            let c' := if skip_step m s then state r
                      else _execute_step s (state r) in
            _run_loop m fuel' (mk c' rest)
        end
      else _run_loop m fuel' r
  end.

(** [_run]. *)
Definition _run (m : methods) (fuel : nat) (r : t) : option (option exn * t) :=
  match EntityStatus.change transitions (tag_of (state r)) RUNNING with
  | inl e => Some (Some e, r)
  | inr t' => _run_loop m fuel (mk (set_tag (state r) t') (_steps r))
  end.

(** The bound methods [self.resources.start] and [self.resources.stop]
    as steps. *)
Definition resources_start : step :=
  Step "start" (λ c,
    let '(oe, e', σ', evs) := Environment.start (_environment c) (objects c) in
    (match oe with Some e => inl e | None => inr VNone end,
     log (set_resources c e' σ') evs)).

Definition resources_stop (reversed : bool) : step :=
  Step "stop" (λ c,
    let '(oe, e', σ', evs) :=
      Environment.stop (_environment c) (objects c) reversed in
    (match oe with Some e => inl e | None => inr VNone end,
     log (set_resources c e' σ') evs)).

Definition setup_step (m : methods) : step := Step "setup" (setup m).
Definition teardown_step (m : methods) : step := Step "teardown" (teardown m).

Definition add_steps (ss : list step) (r : t) : t :=
  mk (state r) (_steps r ++ ss).

(** [_run_batch_steps]. *)
Definition _run_batch_steps (m : methods) (fuel : nat) (r : t)
  : option (option exn * t) :=
  let r := add_steps (pre_resource_steps m) r in
  let r := _add_step resources_start r in
  let r := add_steps (main_batch_steps m) r in
  let r := _add_step (resources_stop true) r in
  let r := add_steps (post_resource_steps m) r in
  _run m fuel r.

(** [run].  The bare [raise] of the interactive branch has no exception to
    re-raise and so raises one itself, which the handler stores. *)
Definition run (m : methods) (fuel : nat) (r : t) : option t :=
  let r := _add_step (setup_step m) r in
  if interactive (cfg (state r)) then
    Some (mk (set_run (state r)
                (VExc (RuntimeError "No active exception to reraise")))
             (_steps r))
  else
    match _run_batch_steps m fuel r with
    | None => None
    | Some (Some e, r') => Some (mk (set_run (state r') (VExc e)) (_steps r'))
    | Some (None, r') =>
        let r' := _add_step (teardown_step m) r' in
        Some (mk (set_run (state r')
                    (VBool (bool_decide (tag_of (state r') = FINISHED)
                            && run_result (state r'))))
                 (_steps r'))
    end.

(** [abort_dependencies]: the resources of the environment, in its
    iteration order. *)
Definition abort_dependencies (c : core) : list addr :=
  Environment.values (_environment c).

(** [_abort_entity] on a resource.  No other thread runs while the
    dependency is aborted, so the polls of [timing_wait] all read the
    flag the call of [abort] left. *)
Definition _abort_entity (c : config) (σ : store) (a : addr)
  : store * list event :=
  let timeout := Entity.timeout_or None (abort_wait_timeout c) in
  match Resource.abort a (σ a) with
  | (Some e, r', evs) =>
      (<[a := r']> σ, EvAbort a :: evs ++ [EvAbortError a e])
  | (None, r', evs) =>
      (<[a := r']> σ,
       EvAbort a :: evs ++
         [EvWaitAborted a
            (timing_wait (λ b : bool, b) (polls_alone timeout (Resource._aborted r')))])
  end.

Fixpoint abort_all (c : config) (σ : store) (deps : list addr)
  : store * list event :=
  match deps with
  | [] => (σ, [])
  | a :: rest =>
      let '(σ1, evs1) := _abort_entity c σ a in
      let '(σ2, evs2) := abort_all c σ1 rest in
      (σ2, evs1 ++ evs2)
  end.

(** [Entity.abort] on a runnable. *)
Definition abort (m : methods) (c : core) : option exn * core :=
  let c := log (set_should_abort c true) [EvSetShouldAbort Self] in
  let '(σ, evs) := abort_all (cfg c) (objects c) (abort_dependencies c) in
  let c := log (set_resources c (_environment c) σ) evs in
  match run_hook transitions (tag_of c) (aborting m) with
  | (Some e, t') => (Some e, log (set_tag c t') [EvAborting Self])
  | (None, t') =>
      (None,
       log (set_aborted (log (set_tag c t') [EvAborting Self]) true)
           [EvSetAborted Self])
  end.

End Runnable.

(** ** Specification-level definitions *)

(** A transition from [a] to [b] is legal. *)
Definition legal (table : gmap tag (gset tag)) (a b : tag) : Prop :=
  a = b ∨ b ∈ EntityStatus.successors table a.

(** A core that holds the given step results and nothing else. *)
Definition core_with_results (results : list (string * value)) : Runnable.core :=
  Runnable.mkCore (Runnable.Config false 30) EntityStatus.init false false
    (Environment.init 0 (Some Self))
    (λ _, Resource.init (Resource.Config "" true 3600) "")
    results None [].

(** The claim that the value returned by [Entity.wait] tells the caller
    whether the target status was reached: some reading of the returned
    value agrees, on every call that finds no handler, with the outcome of
    the polling. *)
Definition wait_indicates (indication : value → bool) : Prop :=
  ∀ (handlers : gmap tag Entity.handler) (configured : Z)
    (polls : Z → list tag) (current target : tag) (timeout : option Z),
    handlers !! target = None →
    ∃ v, (Entity.wait handlers configured polls current target timeout).1 = inr v
         ∧ indication v =
             timing_wait (λ t, bool_decide (t = target))
               (polls (Entity.timeout_or timeout configured)).

(** A step that leaves the abort flags and the status of the runnable as
    they are: it neither aborts nor pauses the runnable that executes it. *)
Definition quiet (s : Runnable.step) : Prop :=
  ∀ c, Runnable.active (Runnable.step_call s c).2 = Runnable.active c
       ∧ Runnable.tag_of (Runnable.step_call s c).2 = Runnable.tag_of c.

(** The events of [_abort_entity] on the resource at [a]: when its [abort]
    returns, and when its [aborting] hook raises [e]. *)
Definition abort_block_returned (a : addr) : list event :=
  [EvAbort a; EvSetShouldAbort (Res a); EvAborting (Res a);
   EvSetAborted (Res a); EvWaitAborted a true].

Definition abort_block_raised (a : addr) (e : exn) : list event :=
  [EvAbort a; EvSetShouldAbort (Res a); EvAborting (Res a); EvAbortError a e].

(** The claim that the abort of every owned resource is followed by a wait
    for the aborted flag of that resource. *)
Definition abort_waits_for_every_dependency : Prop :=
  ∀ (m : Runnable.methods) (c : Runnable.core) (a : addr),
    a ∈ Runnable.abort_dependencies c →
    ∃ reached, EvWaitAborted a reached ∈ Runnable.trace (Runnable.abort m c).2.

(** A resource can be started when it is fresh or stopped. *)
Definition startable (t : tag) : Prop :=
  t = ResourceStatus.NONE ∨ t = ResourceStatus.STOPPED.

(** The [starting] and [stopping] hooks of a resource complete normally:
    entered in STARTING (STOPPING), the hook returns without raising and
    leaves the resource there or in STARTED (STOPPED), the status it is
    documented to set. *)
Definition hooks_complete (r : Resource.t) : Prop :=
  (∃ t, run_hook ResourceStatus.transitions ResourceStatus.STARTING
          (Resource.starting r) = (None, t)
        ∧ (t = ResourceStatus.STARTING ∨ t = ResourceStatus.STARTED))
  ∧ (∃ t, run_hook ResourceStatus.transitions ResourceStatus.STOPPING
            (Resource.stopping r) = (None, t)
          ∧ (t = ResourceStatus.STOPPING ∨ t = ResourceStatus.STOPPED)).

(** [σ'] differs from [σ] at most in the tags of the resources of [rs],
    which satisfy [Q]. *)
Definition touches_only (rs : list addr) (Q : tag → Prop) (σ σ' : store) : Prop :=
  ∀ b, (b ∈ rs → ∃ t, σ' b = Resource.set_tag (σ b) t ∧ Q t)
       ∧ (b ∉ rs → σ' b = σ b).

(** The steps [run()] puts in the queue before it enters the loop. *)
Definition pipeline (m : Runnable.methods) : list Runnable.step :=
  Runnable.setup_step m
  :: Runnable.pre_resource_steps m
  ++ Runnable.resources_start
  :: Runnable.main_batch_steps m
  ++ Runnable.resources_stop true
  :: Runnable.post_resource_steps m.

(** The runnable after the steps left in the queue and those of the pipeline
    have been executed one after the other, once FINISHED. *)
Definition executed (m : Runnable.methods) (c : Runnable.core)
    (q0 : list Runnable.step) : Runnable.core :=
  Runnable.set_tag
    (foldl (λ c s, Runnable._execute_step s c)
       (Runnable.set_tag c RunnableStatus.RUNNING) (q0 ++ pipeline m))
    RunnableStatus.FINISHED.

(** The resources on which [start] was called, read off the events. *)
Definition started_of (evs : list event) : list addr :=
  omap (λ ev, match ev with EvStart a => Some a | _ => None end) evs.

(** C9 as stated: when the [starting] and [stopping] hooks of the resources
    complete normally, [start()] followed by [stop()] leaves every resource
    of the environment STOPPED. *)
Definition round_trip_ends_STOPPED
    (e : Environment.t) (σ : store) (reversed : bool) : Prop :=
  (∀ a, a ∈ Environment.values e → hooks_complete (σ a)) →
  ∀ a, a ∈ Environment.values e →
    Resource.tag_of
      ((Environment.stop (Environment.start e σ).1.1.2
          (Environment.start e σ).1.2 reversed).1.2 a)
    = ResourceStatus.STOPPED.

(** ** Example inputs *)

Module Examples.

Import ResourceStatus.

Definition no_resource : Resource.t :=
  Resource.init (Resource.Config "" true 3600) "".

Definition empty_store : store := λ _, no_resource.

(** A resource with the given name, start mode and hooks, not yet added
    to an environment; its identifier is its name. *)
Definition resource (name : string) (async_start : bool)
    (starting stopping aborting : hook) : Resource.t :=
  Resource.mk (Resource.Config name async_start 3600) EntityStatus.init
    false false None name starting stopping aborting.

Definition returns : hook := Hook [] None.
Definition raises (msg : string) : hook := Hook [] (Some (UserException msg)).

(** An environment that holds the resource at address 0 under "db", and
    a second resource with the same identifier at address 1. *)
Definition env_db : Environment.t := Environment.mk 1 [("db", 0)] (Some Self) [] [].
Definition store_db : store :=
  <[0 := Resource.set_context (resource "db" true returns returns returns) (Some 1)]>
    (<[1 := resource "db" true returns returns returns]> empty_store).

(** Polls that never read the target, and polls that read it at last. *)
Definition polls_never : Z → list tag := λ _, [STARTING; STARTING].
Definition polls_reached : Z → list tag := λ _, [STARTING; STARTED].

(** A runnable in its step loop with the queue [s1; s2], where [s1]
    raises and [s2] returns [True]. *)
Definition s1 : Runnable.step :=
  Runnable.Step "s1" (λ c, (inl (UserException "s1 failed"), c)).
Definition s2 : Runnable.step :=
  Runnable.Step "s2" (λ c, (inr (VBool true), c)).
Definition running : Runnable.core :=
  Runnable.set_tag
    (Runnable.state (Runnable.init (Runnable.Config false 30) 0 empty_store))
    RunnableStatus.RUNNING.

(** Resources A, B and C, started, at addresses 0, 1 and 2 of an
    environment; the [stopping] hook of B raises. *)
Definition started (r : Resource.t) : Resource.t := Resource.set_tag r STARTED.
Definition env_abc : Environment.t :=
  Environment.mk 1 [("A", 0); ("B", 1); ("C", 2)] (Some Self) [] [].
Definition store_abc : store :=
  <[0 := started (resource "A" true returns returns returns)]>
    (<[1 := started (resource "B" true returns (raises "B.stopping") returns)]>
       (<[2 := started (resource "C" true returns returns returns)]>
          empty_store)).

(** A fresh environment with A at address 0, whose start is synchronous
    and whose [starting] hook raises, and B at address 1, whose start is
    asynchronous. *)
Definition env_ab : Environment.t :=
  Environment.mk 1 [("A", 0); ("B", 1)] (Some Self) [] [].
Definition store_ab : store :=
  <[0 := resource "A" false (raises "A.starting") returns returns]>
    (<[1 := resource "B" true returns returns returns]> empty_store).

(** A runnable that owns one resource, at address 0, whose [aborting]
    hook raises. *)
Definition owner : Runnable.core :=
  Runnable.mkCore (Runnable.Config false 30) EntityStatus.init false false
    (Environment.mk 1 [("A", 0)] (Some Self) [] [])
    (<[0 := resource "A" true returns returns (raises "A.aborting")]> empty_store)
    [] None [].

(** A fresh environment with two resources whose hooks return; the
    [starting] hook of the first sets STARTED itself. *)
Definition env_pair : Environment.t :=
  Environment.mk 1 [("A", 0); ("B", 1)] (Some Self) [] [].
Definition store_pair : store :=
  <[0 := resource "A" false (Hook [STARTED] None) returns returns]>
    (<[1 := resource "B" true returns (Hook [STOPPED] None) returns]>
       empty_store).

End Examples.

(** ** Further operations of Environment *)

(** What the remaining operations raise: an exception of the module, or one
    the interpreter raises for a missing key, a missing attribute or an
    exhausted iterator. *)
Inductive raised : Type :=
  | Raised (e : exn)
  | KeyError (key : string)
  | AttributeError (attribute : string)
  | StopIteration.

(** [del d[k]] on an [OrderedDict] that holds [k]. *)
Fixpoint od_del {K V} `{EqDecision K} (k : K) (d : list (K * V)) : list (K * V) :=
  match d with
  | [] => []
  | (k', v') :: d' => if decide (k' = k) then d' else (k', v') :: od_del k d'
  end.

(** [Environment.remove]: [del] raises [KeyError] for a missing key. *)
Definition Environment_remove (e : Environment.t) (uid : string)
  : raised + Environment.t :=
  if od_mem uid (Environment._resources e)
  then inr (Environment.mk (Environment.env_id e)
              (od_del uid (Environment._resources e)) (Environment.parent e)
              (Environment.start_exceptions e) (Environment.stop_exceptions e))
  else inl (KeyError uid).

(** [Environment.first]: [next] on the generator over the keys. *)
Definition Environment_first (e : Environment.t) : raised + string :=
  match Environment._resources e with
  | [] => inl StopIteration
  | (uid, _) :: _ => inr uid
  end.

(** [Environment.__contains__]. *)
Definition Environment_contains (e : Environment.t) (item : string) : bool :=
  od_mem item (Environment._resources e).

(** What [Environment.__getattr__] returns: an added resource or a value of
    the initial context of the parent. *)
Inductive found : Type :=
  | FoundResource (a : addr)
  | FoundContext (v : value).

(** [Environment.__getattr__], which Python calls for a name that is not an
    attribute of the object, so that its last line raises [AttributeError].
    [parent] is [parent.cfg.initial_context], the initial context of the
    entity the environment belongs to, when there is one; an empty
    dictionary is false. *)
Definition Environment_getattr (parent : option (gmap string value))
    (e : Environment.t) (item : string) : raised + found :=
  match od_get item (Environment._resources e) with
  | Some a => inr (FoundResource a)
  | None =>
      match parent with
      | Some initial_context =>
          if decide (initial_context = ∅) then inl (AttributeError item)
          else match initial_context !! item with
               | Some v => inr (FoundContext v)
               | None => inl (AttributeError item)
               end
      | None => inl (AttributeError item)
      end
  end.

(** [resource.status] in [all_status], where [resource] ranges over
    [self._resources], that is over the keys: an identifier has no
    attribute [status]. *)
Definition status_of_key (uid : string) : raised + EntityStatus.t :=
  inl (AttributeError "status").

(** [all(resource.status.tag == target for resource in self._resources)]:
    [all] stops at the first false element, an exception of the generator
    goes through it. *)
Fixpoint all_status_over (keys : list string) (target : tag) : raised + bool :=
  match keys with
  | [] => inr true
  | uid :: rest =>
      match status_of_key uid with
      | inl e => inl e
      | inr status =>
          if decide (EntityStatus._current status = target)
          then all_status_over rest target
          else inr false
      end
  end.

(** [Environment.all_status]. *)
Definition Environment_all_status (e : Environment.t) (target : tag)
  : raised + bool :=
  all_status_over (Environment._resources e).*1 target.

(** [Environment.__enter__] and [Environment.__exit__]: [stop] is called
    without argument, so with [reversed=False]. *)
Definition Environment_enter (e : Environment.t) (σ : store)
  : option exn * Environment.t * store * list event :=
  Environment.start e σ.

Definition Environment_exit (e : Environment.t) (σ : store)
  : option exn * Environment.t * store * list event :=
  Environment.stop e σ false.

(** A step that aborts the runnable that executes it, as a signal handler
    does from another thread while the step runs. *)
Definition aborting_step (name : string) : Runnable.step :=
  Runnable.Step name (λ c, (inr VNone, Runnable.set_should_abort c true)).

(** Two steps with the same name: the first raises, the second returns
    [True]. *)
Definition check_raises : Runnable.step :=
  Runnable.Step "check" (λ c, (inl (UserException "check failed"), c)).
Definition check_returns : Runnable.step :=
  Runnable.Step "check" (λ c, (inr (VBool true), c)).

(** A runnable that skips the steps named "s1". *)
Definition skipping_s1 : Runnable.methods :=
  Runnable.Methods (λ c, (inr VNone, c)) (λ c, (inr VNone, c)) [] [] []
    (λ s, bool_decide (Runnable.step_name s = "s1")) (Hook [] None).

(** The environment and the store of [Examples.env_pair] after [start()],
    [stop(reversed=True)] and a second [stop(reversed=True)]. *)
Definition pair_stopped_twice : Environment.t * store :=
  let started := Environment.start Examples.env_pair Examples.store_pair in
  let stopped := Environment.stop started.1.1.2 started.1.2 true in
  let again := Environment.stop stopped.1.1.2 stopped.1.2 true in
  (again.1.1.2, again.1.2).

(** The environment of [Examples.env_abc] built without a parent, as
    [Environment()] builds it. *)
Definition env_abc_alone : Environment.t :=
  Environment.mk 1 [("A", 0); ("B", 1); ("C", 2)] None [] [].

(** An environment that still holds the start failure an earlier pass
    recorded for its first resource, A; A and B have been stopped since. *)
Definition env_stale : Environment.t :=
  Environment.mk 1 [("A", 0); ("B", 1)] (Some Self)
    [(0, ("A", UserException "A.starting"))] [].
Definition store_stale : store :=
  <[0 := Resource.set_tag
           (Examples.resource "A" true Examples.returns Examples.returns
              Examples.returns)
           ResourceStatus.STOPPED]>
    (<[1 := Resource.set_tag
             (Examples.resource "B" true Examples.returns Examples.returns
                Examples.returns)
             ResourceStatus.STOPPED]>
       Examples.empty_store).

(** The events of the first loop of [start] on one resource when nothing
    fails: the call of [start], then the wait if the start is synchronous. *)
Definition start_events (σ : store) (a : addr) : list event :=
  EvStart a
  :: (if Resource.async_start (Resource.cfg (σ a)) then []
      else [EvWait a ResourceStatus.STARTED]).

(** The resources of a list whose start is asynchronous. *)
Definition asynchronous (σ : store) (rs : list addr) : list addr :=
  filter (λ a, Resource.async_start (Resource.cfg (σ a)) = true) rs.

(** The result [_execute_step] stores for a step executed in the state
    [c]. *)
Definition result_of (s : Runnable.step) (c : Runnable.core) : value :=
  match (Runnable.step_call s
           (Runnable.log c [EvStep (Runnable.step_name s)])).1 with
  | inr v => v
  | inl e => VExc e
  end.

(** ** Further operations of Resource *)

(** [Resource.restart]: [_wait_stopped] and [_wait_started] are called
    directly; each is a change of the status. *)
Definition Resource_restart (r : Resource.t) : option exn * Resource.t :=
  match Resource.stop r with
  | (Some e, r1) => (Some e, r1)
  | (None, r1) =>
      match Resource.change r1 ResourceStatus.STOPPED with
      | (Some e, r2) => (Some e, r2)
      | (None, r2) =>
          match Resource.start r2 with
          | (Some e, r3) => (Some e, r3)
          | (None, r3) => Resource.change r3 ResourceStatus.STARTED
          end
      end
  end.

(** [Resource.__enter__] and [Resource.__exit__]. *)
Definition Resource_enter (r : Resource.t) : option exn * Resource.t :=
  match Resource.start r with
  | (Some e, r1) => (Some e, r1)
  | (None, r1) => Resource.wait r1 ResourceStatus.STARTED
  end.

Definition Resource_exit (r : Resource.t) : option exn * Resource.t :=
  match Resource.stop r with
  | (Some e, r1) => (Some e, r1)
  | (None, r1) => Resource.wait r1 ResourceStatus.STOPPED
  end.

(** ** Pausing and resuming *)

(** The [pausing] and [resuming] hooks of a resource. *)
Record pause_hooks : Type := PauseHooks {
  pausing : hook;
  resuming : hook
}.


(** [Entity.pause] and [Entity.resume] on a resource. *)
Definition Resource_pause (h : pause_hooks) (r : Resource.t)
  : option exn * Resource.t :=
  match Resource.change r ResourceStatus.PAUSING with
  | (Some e, r') => (Some e, r')
  | (None, r') => Resource.call_hook r' (pausing h)
  end.

Definition Resource_resume (h : pause_hooks) (r : Resource.t)
  : option exn * Resource.t :=
  match Resource.change r ResourceStatus.RESUMING with
  | (Some e, r') => (Some e, r')
  | (None, r') => Resource.call_hook r' (resuming h)
  end.

(** [for resource in self.resources: resource.f()]: the first exception
    ends the loop. *)
Fixpoint for_each (f : addr → Resource.t → option exn * Resource.t)
    (σ : store) (rs : list addr) : option exn * store :=
  match rs with
  | [] => (None, σ)
  | a :: rest =>
      match f a (σ a) with
      | (Some e, r') => (Some e, <[a := r']> σ)
      | (None, r') => for_each f (<[a := r']> σ) rest
      end
  end.

(** [Runnable.pausing] and [Runnable.resuming]. *)
Definition Runnable_pausing (hooks : addr → pause_hooks) (c : Runnable.core)
  : option exn * Runnable.core :=
  match for_each (λ a, Resource_pause (hooks a)) (Runnable.objects c)
          (Environment.values (Runnable._environment c)) with
  | (Some e, σ) => (Some e, Runnable.set_resources c (Runnable._environment c) σ)
  | (None, σ) =>
      let c := Runnable.set_resources c (Runnable._environment c) σ in
      match EntityStatus.change RunnableStatus.transitions (Runnable.tag_of c)
              RunnableStatus.PAUSED with
      | inl e => (Some e, c)
      | inr t' => (None, Runnable.set_tag c t')
      end
  end.

Definition Runnable_resuming (hooks : addr → pause_hooks) (c : Runnable.core)
  : option exn * Runnable.core :=
  match for_each (λ a, Resource_resume (hooks a)) (Runnable.objects c)
          (Environment.values (Runnable._environment c)) with
  | (Some e, σ) => (Some e, Runnable.set_resources c (Runnable._environment c) σ)
  | (None, σ) =>
      let c := Runnable.set_resources c (Runnable._environment c) σ in
      match EntityStatus.change RunnableStatus.transitions (Runnable.tag_of c)
              RunnableStatus.RUNNING with
      | inl e => (Some e, c)
      | inr t' => (None, Runnable.set_tag c t')
      end
  end.

(** [Entity.pause] and [Entity.resume] on a runnable. *)
Definition Runnable_pause (hooks : addr → pause_hooks) (c : Runnable.core)
  : option exn * Runnable.core :=
  match EntityStatus.change RunnableStatus.transitions (Runnable.tag_of c)
          RunnableStatus.PAUSING with
  | inl e => (Some e, c)
  | inr t' => Runnable_pausing hooks (Runnable.set_tag c t')
  end.

Definition Runnable_resume (hooks : addr → pause_hooks) (c : Runnable.core)
  : option exn * Runnable.core :=
  match EntityStatus.change RunnableStatus.transitions (Runnable.tag_of c)
          RunnableStatus.RESUMING with
  | inl e => (Some e, c)
  | inr t' => Runnable_resuming hooks (Runnable.set_tag c t')
  end.

(** Resources whose [pausing] sets PAUSED and whose [resuming] sets
    STARTED. *)
Definition pausable : pause_hooks :=
  PauseHooks (Hook [ResourceStatus.PAUSED] None)
             (Hook [ResourceStatus.STARTED] None).

(** A running runnable that owns two started resources. *)
Definition store_started : store :=
  <[0 := Resource.set_tag
           (Examples.resource "A" true Examples.returns Examples.returns
              Examples.returns)
           ResourceStatus.STARTED]>
    (<[1 := Resource.set_tag
             (Examples.resource "B" false Examples.returns Examples.returns
                Examples.returns)
             ResourceStatus.STARTED]>
       Examples.empty_store).

Definition running_pair : Runnable.core :=
  Runnable.mkCore (Runnable.Config false 30)
    (EntityStatus.mk RunnableStatus.RUNNING []) false false
    (Environment.mk 1 [("A", 0); ("B", 1)] (Some Self) [] []) store_started
    [] None [].

(** ** Entries of a report *)

Module Entries.

(** The objects a group holds: a group, a summary (a subclass of [Group])
    or any other object, of which only the truth value is read. *)
#[warnings="-register-all"]
Inductive entry : Type :=
  | Plain (truth : bool)
  | Group (entries : list entry) (description : option string)
  | Summary (entries : list entry) (description : option string).

(** [bool(e)]: [Group.__bool__] is [passed], which [Summary] inherits. *)
Fixpoint truth (e : entry) : bool :=
  match e with
  | Plain b => b
  | Group es _ | Summary es _ =>
      match es with [] => true | _ => false end || forallb truth es
  end.

(** [Group.passed]. *)
Definition passed (e : entry) : bool := truth e.

(** [isinstance(item, Group) and not isinstance(item, Summary)]. *)
Definition is_plain_group (e : entry) : bool :=
  match e with Group _ _ => true | _ => false end.

(** What one item adds to [result] in the loop of [_flatten]. *)
Fixpoint flatten_item (item : entry) : list entry :=
  match item with
  | Group es _ => concat (map flatten_item es)
  | other => [other]
  end.

(** [Summary._flatten]. *)
Definition _flatten (items : list entry) : list entry :=
  concat (map flatten_item items).

End Entries.

(** * Theorems *)

(** ** Status machine *)

Lemma change_inr table a b t :
  EntityStatus.change table a b = inr t → t = b.
Proof.
  unfold EntityStatus.change.
  repeat case_match; naive_solver.
Qed.

Lemma change_self table a : EntityStatus.change table a a = inr a.
Proof. unfold EntityStatus.change. by rewrite decide_True. Qed.

(** C2: [change(B)] from the tag [A] succeeds exactly when [A == B] or [B]
    is in the legal-successor set of [A] in the table of the type, and then
    the tag becomes [B]; otherwise it raises [StatusTransitionException] and
    the tag is the same after the call. *)
Theorem change_succeeds_iff_legal (table : gmap tag (gset tag)) (a b : tag) :
  (EntityStatus.change table a b = inr b ↔ legal table a b)
  ∧ (legal table a b → EntityStatus.tag_after table a b = b)
  ∧ (¬ legal table a b →
       (∃ k, EntityStatus.change table a b = inl (StatusTransitionException a b k))
       ∧ EntityStatus.tag_after table a b = a).
Proof.
  unfold legal, EntityStatus.tag_after, EntityStatus.successors,
    EntityStatus.change.
  destruct (decide (a = b)) as [->|Hne].
  { split_and!.
    - split; [intros _; by left | done].
    - done.
    - intros Hillegal. destruct Hillegal. by left. }
  destruct (table !! a) as [succ|] eqn:Hlook; simpl.
  - destruct (decide (b ∈ succ)) as [Hin|Hnin].
    + split_and!.
      * split; [intros _; by right | done].
      * done.
      * intros Hillegal. destruct Hillegal. by right.
    + split_and!.
      * split; [done | intros [?|?]; done].
      * intros [?|?]; done.
      * intros _. split; [by eexists | done].
  - split_and!.
    + split; [done | intros [?|Hin]; [done | set_solver]].
    + intros [?|Hin]; [done | set_solver].
    + intros _. split; [by eexists | done].
Qed.

(** An illegal change on a resource: STARTED is not a successor of NONE. *)
Lemma change_succeeds_iff_legal_witness :
  (∃ k, EntityStatus.change ResourceStatus.transitions
          ResourceStatus.NONE ResourceStatus.STARTED
        = inl (StatusTransitionException
                 ResourceStatus.NONE ResourceStatus.STARTED k))
  ∧ EntityStatus.tag_after ResourceStatus.transitions
      ResourceStatus.NONE ResourceStatus.STARTED = ResourceStatus.NONE.
Proof.
  apply (change_succeeds_iff_legal ResourceStatus.transitions
           ResourceStatus.NONE ResourceStatus.STARTED).
  unfold legal. intros [H|H]; [discriminate H |].
  vm_compute in H. discriminate H.
Defined.

(** ** run_result *)

Lemma accepted_value_iff (v : value) :
  negb (isinstance_Exception v) && negb (is_False v) = true
  ↔ (∀ e, v ≠ VExc e) ∧ v ≠ VBool false.
Proof.
  destruct v as [| [|] | n | s | e]; simpl.
  - split; [intros _; split; [intros e |]; discriminate | done].
  - split; [intros _; split; [intros e |]; discriminate | done].
  - split; [discriminate | intros [_ H]; by destruct H].
  - split; [intros _; split; [intros e |]; discriminate | done].
  - split; [intros _; split; [intros e |]; discriminate | done].
  - split; [discriminate | intros [H _]; by destruct (H e)].
Qed.

(** C6: [run_result()] is true exactly when no recorded step result is an
    exception object or the value [False]; [{a: True, b: 5}] gives true,
    [{a: True, b: False}] and [{a: RuntimeError(...)}] give false. *)
Theorem run_result_iff :
  (∀ c : Runnable.core,
     Runnable.run_result c = true ↔
     ∀ v, v ∈ (Runnable.step_results c).*2 → (∀ e, v ≠ VExc e) ∧ v ≠ VBool false)
  ∧ Runnable.run_result
      (core_with_results [("a", VBool true); ("b", VInt 5)]) = true
  ∧ Runnable.run_result
      (core_with_results [("a", VBool true); ("b", VBool false)]) = false
  ∧ Runnable.run_result
      (core_with_results [("a", VExc (RuntimeError "failed"))]) = false.
Proof.
  split_and!; [| reflexivity..].
  intros c. unfold Runnable.run_result.
  rewrite forallb_forall.
  split; intros H v Hv.
  - by apply accepted_value_iff, H, list_elem_of_In.
  - by apply accepted_value_iff, H, list_elem_of_In.
Qed.

(** ** Environment.add *)

(** C10: adding a resource whose identifier is already in the environment
    raises the duplicate error and leaves the environment as it was, but the
    context of the resource has been set to this environment by then; no
    other object changes. *)
Theorem add_duplicate_sets_context
    (e : Environment.t) (σ : store) (item : addr) (uid : option string) :
  od_mem (default (Resource._uid (σ item)) uid) (Environment._resources e) = true →
  ∃ msg σ',
    Environment.add e σ item uid = (inl (RuntimeError msg), e, σ')
    ∧ Resource._context (σ' item) = Some (Environment.env_id e)
    ∧ (∀ a, a ≠ item → σ' a = σ a).
Proof.
  intros Hdup. unfold Environment.add. rewrite Hdup.
  eexists _, _. split_and!; [reflexivity | |].
  - by rewrite fn_lookup_insert.
  - intros a Hne. by rewrite fn_lookup_insert_ne.
Qed.

(** A second object with the identifier "db" is refused, and its context,
    unset before, names the environment afterwards. *)
Lemma add_duplicate_sets_context_witness :
  Resource._context (Examples.store_db 1) = None
  ∧ ∃ msg σ',
      Environment.add Examples.env_db Examples.store_db 1 None
      = (inl (RuntimeError msg), Examples.env_db, σ')
      ∧ Resource._context (σ' 1) = Some (Environment.env_id Examples.env_db)
      ∧ (∀ a, a ≠ 1 → σ' a = Examples.store_db a).
Proof.
  split; [reflexivity |].
  apply (add_duplicate_sets_context Examples.env_db Examples.store_db 1 None).
  reflexivity.
Defined.

(** ** Entity.wait *)

Lemma timing_wait_true {A} (predicate : A → bool) (polls : list A) :
  timing_wait predicate polls = true ↔ ∃ s, s ∈ polls ∧ predicate s = true.
Proof.
  induction polls as [|s rest IH]; simpl.
  - split; [done | intros (s & Hs & _); by apply elem_of_nil in Hs].
  - destruct (predicate s) eqn:Hp.
    + split; [intros _; exists s; split; [left | done] | done].
    + rewrite IH. split.
      * intros (s' & Hin & Hs'). exists s'. split; [by right | done].
      * intros (s' & Hin & Hs'). apply elem_of_cons in Hin as [->|Hin].
        -- congruence.
        -- by exists s'.
Qed.

Lemma state_after_wait_reached {A} (predicate : A → bool) current polls :
  timing_wait predicate polls = true →
  predicate (state_after_wait predicate current polls) = true.
Proof.
  revert current. induction polls as [|s rest IH]; intros current; simpl.
  - done.
  - destruct (predicate s) eqn:Hp; [done | apply IH].
Qed.

Lemma last_cons_default {A} (l : list A) (a d d' : A) :
  List.last (a :: l) d = List.last (a :: l) d'.
Proof.
  revert a. induction l as [|b l IH]; intros a; [done |].
  change (List.last (b :: l) d = List.last (b :: l) d'). apply IH.
Qed.

Lemma state_after_wait_timeout {A} (predicate : A → bool) current polls :
  timing_wait predicate polls = false →
  state_after_wait predicate current polls = List.last polls current.
Proof.
  revert current. induction polls as [|s rest IH]; intros current; simpl.
  - done.
  - destruct (predicate s) eqn:Hp; [done |].
    intros Hrest. rewrite (IH s Hrest).
    destruct rest as [|b rest]; [done | apply last_cons_default].
Qed.

(** C8, as amended: with no handler registered for the target, [wait] polls
    until a poll reads the target tag or the timeout elapses, never raises,
    and returns [None] in both cases; whether the target was reached shows
    only in the status tag. *)
Theorem wait_without_handler_returns_None
    (handlers : gmap tag Entity.handler) (configured : Z)
    (polls : Z → list tag) (current target : tag) (timeout : option Z) :
  handlers !! target = None →
  ∃ t', Entity.wait handlers configured polls current target timeout
        = (inr VNone, t')
    ∧ (timing_wait (λ t, bool_decide (t = target))
         (polls (Entity.timeout_or timeout configured)) = true →
       t' = target ∧ target ∈ polls (Entity.timeout_or timeout configured))
    ∧ (timing_wait (λ t, bool_decide (t = target))
         (polls (Entity.timeout_or timeout configured)) = false →
       t' = List.last (polls (Entity.timeout_or timeout configured)) current
       ∧ target ∉ polls (Entity.timeout_or timeout configured)).
Proof.
  intros Hnone. unfold Entity.wait. cbv zeta. rewrite Hnone.
  eexists. split_and!; [reflexivity | |].
  - intros Hreached. split.
    + pose proof (state_after_wait_reached _ current _ Hreached) as Hp.
      by apply bool_decide_eq_true_1 in Hp.
    + apply timing_wait_true in Hreached as (s & Hin & Hs).
      by apply bool_decide_eq_true_1 in Hs as ->.
  - intros Htimeout. split.
    + by apply state_after_wait_timeout.
    + intros Hin.
      assert (timing_wait (λ t : tag, bool_decide (t = target))
                (polls (Entity.timeout_or timeout configured)) = true) as Ht.
      { apply timing_wait_true. exists target. split; [done |].
        by apply bool_decide_eq_true_2. }
      congruence.
Qed.

(** A wait for STARTED that times out on a resource still STARTING. *)
Lemma wait_without_handler_returns_None_witness :
  ∃ t', Entity.wait ∅ 3600 Examples.polls_never
          ResourceStatus.STARTING ResourceStatus.STARTED (Some 5%Z)
        = (inr VNone, t')
    ∧ (timing_wait (λ t, bool_decide (t = ResourceStatus.STARTED))
         (Examples.polls_never (Entity.timeout_or (Some 5%Z) 3600)) = true →
       t' = ResourceStatus.STARTED
       ∧ ResourceStatus.STARTED
           ∈ Examples.polls_never (Entity.timeout_or (Some 5%Z) 3600))
    ∧ (timing_wait (λ t, bool_decide (t = ResourceStatus.STARTED))
         (Examples.polls_never (Entity.timeout_or (Some 5%Z) 3600)) = false →
       t' = List.last (Examples.polls_never (Entity.timeout_or (Some 5%Z) 3600))
              ResourceStatus.STARTING
       ∧ ResourceStatus.STARTED
           ∉ Examples.polls_never (Entity.timeout_or (Some 5%Z) 3600)).
Proof.
  apply (wait_without_handler_returns_None ∅ 3600 Examples.polls_never
           ResourceStatus.STARTING ResourceStatus.STARTED (Some 5%Z)).
  reflexivity.
Defined.

(** C8, as stated, fails: a wait that reaches STARTED and a wait that times
    out return the same value, so no reading of the returned value tells
    them apart. *)
Lemma wait_indicates_counterexample : ¬ ∃ indication, wait_indicates indication.
Proof.
  intros [indication H].
  destruct (H ∅ 3600%Z Examples.polls_reached ResourceStatus.STARTING
              ResourceStatus.STARTED None (lookup_empty _))
    as (v1 & Hv1 & Hi1).
  destruct (H ∅ 3600%Z Examples.polls_never ResourceStatus.STARTING
              ResourceStatus.STARTED None (lookup_empty _))
    as (v2 & Hv2 & Hi2).
  vm_compute in Hv1, Hi1, Hv2, Hi2.
  congruence.
Qed.

(** ** The step loop *)

Lemma od_get_set {K V} `{EqDecision K} (k : K) (v : V) (d : list (K * V)) :
  od_get k (od_set k v d) = Some v.
Proof.
  induction d as [|[k' v'] d IH]; simpl.
  - by rewrite decide_True.
  - destruct (decide (k' = k)) as [->|Hne]; simpl.
    + by rewrite decide_True.
    + by rewrite decide_False.
Qed.

Lemma execute_step_quiet (s : Runnable.step) (c : Runnable.core) :
  quiet s →
  Runnable.active (Runnable._execute_step s c) = Runnable.active c
  ∧ Runnable.tag_of (Runnable._execute_step s c) = Runnable.tag_of c.
Proof.
  intros Hq. unfold Runnable._execute_step.
  destruct (Hq (Runnable.log c [EvStep (Runnable.step_name s)])) as [Ha Ht].
  destruct (Runnable.step_call s _) as [outcome c']. simpl in *.
  split; [exact Ha | exact Ht].
Qed.

Lemma execute_step_stores_error (s : Runnable.step) (c c' : Runnable.core) e :
  Runnable.step_call s (Runnable.log c [EvStep (Runnable.step_name s)])
  = (inl e, c') →
  od_get (Runnable.step_name s)
    (Runnable.step_results (Runnable._execute_step s c)) = Some (VExc e).
Proof.
  intros Hcall. unfold Runnable._execute_step. rewrite Hcall. simpl.
  apply od_get_set.
Qed.

Lemma run_loop_drains (m : Runnable.methods) (q : list Runnable.step) :
  ∀ (c : Runnable.core) (fuel : nat),
    Runnable.active c = true →
    Runnable.tag_of c = RunnableStatus.RUNNING →
    Forall quiet q →
    Forall (λ s, Runnable.skip_step m s = false) q →
    length q < fuel →
    Runnable._run_loop m fuel (Runnable.mk c q)
    = Some (None,
            Runnable.mk
              (Runnable.set_tag
                 (foldl (λ c s, Runnable._execute_step s c) c q)
                 RunnableStatus.FINISHED)
              []).
Proof.
  induction q as [|s q IH]; intros c fuel Hact Htag Hquiet Hskip Hfuel;
    (destruct fuel as [|fuel]; [simpl in Hfuel; lia |]);
    cbn [Runnable._run_loop Runnable.state Runnable._steps];
    rewrite Hact, Htag; simpl negb; cbv iota;
    (rewrite decide_True by reflexivity).
  - reflexivity.
  - inversion Hquiet as [|? ? Hs Hquiet']; subst.
    inversion Hskip as [|? ? Hsk Hskip']; subst.
    rewrite Hsk.
    destruct (execute_step_quiet s c Hs) as [Ha Ht].
    cbn [foldl].
    apply IH; [congruence | congruence | done | done | simpl in Hfuel; lia].
Qed.

(** C4: an exception raised by a step is caught and stored as the result of
    that step, and the loop goes on: when no step aborts or pauses the
    runnable, every queued step is executed in turn, the queue is empty at
    the end and the status is FINISHED. *)
Theorem run_loop_isolates_step_errors
    (m : Runnable.methods) (q : list Runnable.step)
    (c : Runnable.core) (fuel : nat) :
  Runnable.active c = true →
  Runnable.tag_of c = RunnableStatus.RUNNING →
  Forall quiet q →
  Forall (λ s, Runnable.skip_step m s = false) q →
  length q < fuel →
  Runnable._run_loop m fuel (Runnable.mk c q)
  = Some (None,
          Runnable.mk
            (Runnable.set_tag
               (foldl (λ c s, Runnable._execute_step s c) c q)
               RunnableStatus.FINISHED)
            [])
  ∧ ∀ s c0 c1 e,
      s ∈ q →
      Runnable.step_call s (Runnable.log c0 [EvStep (Runnable.step_name s)])
      = (inl e, c1) →
      od_get (Runnable.step_name s)
        (Runnable.step_results (Runnable._execute_step s c0)) = Some (VExc e).
Proof.
  intros Hact Htag Hquiet Hskip Hfuel. split.
  - by apply run_loop_drains.
  - intros s c0 c1 e _ Hcall. by eapply execute_step_stores_error.
Qed.

(** The queue [s1; s2]: the error of [s1] and the [True] of [s2] are both
    recorded and the runnable reaches FINISHED. *)
Lemma run_loop_isolates_step_errors_witness :
  ∃ r',
    Runnable._run_loop Runnable.base 3
      (Runnable.mk Examples.running [Examples.s1; Examples.s2])
    = Some (None, r')
    ∧ Runnable.step_results (Runnable.state r')
      = [("s1", VExc (UserException "s1 failed")); ("s2", VBool true)]
    ∧ Runnable.tag_of (Runnable.state r') = RunnableStatus.FINISHED
    ∧ Runnable._steps r' = [].
Proof.
  eexists. split.
  - apply (run_loop_isolates_step_errors Runnable.base
             [Examples.s1; Examples.s2] Examples.running 3).
    + reflexivity.
    + reflexivity.
    + repeat constructor.
    + repeat constructor.
    + simpl. lia.
  - split_and!; reflexivity.
Defined.

(** ** run *)

Lemma resources_start_quiet : quiet Runnable.resources_start.
Proof.
  intros c. unfold Runnable.resources_start. cbn [Runnable.step_call].
  by destruct (Environment.start _ _) as [[[oe e'] σ'] evs].
Qed.

Lemma resources_stop_quiet (reversed : bool) :
  quiet (Runnable.resources_stop reversed).
Proof.
  intros c. unfold Runnable.resources_stop. cbn [Runnable.step_call].
  by destruct (Environment.stop _ _ _) as [[[oe e'] σ'] evs].
Qed.

Lemma change_to_RUNNING (t : tag) :
  t = RunnableStatus.NONE ∨ t = RunnableStatus.FINISHED →
  EntityStatus.change RunnableStatus.transitions t RunnableStatus.RUNNING
  = inr RunnableStatus.RUNNING.
Proof. intros [->| ->]; vm_compute; reflexivity. Qed.

(** C1 fails on the code.  [run()] on a runnable that is fresh or finished,
    when no step aborts, pauses or is skipped, executes what is left in the
    queue and then the pipeline of [pipeline] in order: setup, the steps
    added before the resources, [resources.start], the main batch steps,
    [resources.stop(reversed=True)] and the steps added after the resources.
    It reaches FINISHED and only then appends teardown, which is not
    executed: the runnable is returned with teardown as the one queued
    step. *)
Theorem run_leaves_teardown_queued
    (m : Runnable.methods) (c : Runnable.core) (q0 : list Runnable.step)
    (fuel : nat) :
  Runnable.interactive (Runnable.cfg c) = false →
  Runnable.active c = true →
  Runnable.tag_of c = RunnableStatus.NONE
  ∨ Runnable.tag_of c = RunnableStatus.FINISHED →
  quiet (Runnable.setup_step m) →
  Forall quiet
    (q0 ++ Runnable.pre_resource_steps m ++ Runnable.main_batch_steps m
        ++ Runnable.post_resource_steps m) →
  Forall (λ s, Runnable.skip_step m s = false) (q0 ++ pipeline m) →
  length (q0 ++ pipeline m) < fuel →
  Runnable.run m fuel (Runnable.mk c q0)
  = Some (Runnable.mk
            (Runnable.set_run (executed m c q0)
               (VBool (Runnable.run_result (executed m c q0))))
            [Runnable.teardown_step m]).
Proof.
  intros Hbatch Hact Htag Hsetup Hquiet Hskip Hfuel.
  assert (Hall : Forall quiet (q0 ++ pipeline m)).
  { unfold pipeline. rewrite !Forall_app in Hquiet. rewrite !Forall_app.
    destruct Hquiet as (H0 & Hpre & Hmain & Hpost).
    split; [exact H0 |].
    constructor; [exact Hsetup |].
    apply Forall_app. split; [exact Hpre |].
    constructor; [apply resources_start_quiet |].
    apply Forall_app. split; [exact Hmain |].
    constructor; [apply resources_stop_quiet | exact Hpost]. }
  assert (Hqueue :
    ((((q0 ++ [Runnable.setup_step m]) ++ Runnable.pre_resource_steps m)
        ++ [Runnable.resources_start]) ++ Runnable.main_batch_steps m
        ++ [Runnable.resources_stop true]) ++ Runnable.post_resource_steps m
    = q0 ++ pipeline m).
  { unfold pipeline. by rewrite <- !app_assoc. }
  unfold Runnable.run, Runnable._run_batch_steps, Runnable._run,
    Runnable.add_steps, Runnable._add_step.
  cbn [Runnable.state Runnable._steps]. rewrite Hbatch.
  rewrite (change_to_RUNNING _ Htag).
  rewrite <- !app_assoc in Hqueue. rewrite <- !app_assoc. rewrite Hqueue.
  rewrite (run_loop_drains m (q0 ++ pipeline m)
             (Runnable.set_tag c RunnableStatus.RUNNING) fuel);
    [| exact Hact | reflexivity | exact Hall | exact Hskip | exact Hfuel].
  reflexivity.
Qed.

(** A fresh runnable with the base methods and no resources: setup, start
    and stop are executed and recorded; teardown is left in the queue and
    has no result. *)
Lemma run_leaves_teardown_queued_witness :
  ∃ r',
    Runnable.run Runnable.base 4
      (Runnable.init (Runnable.Config false 30) 0 Examples.empty_store)
    = Some r'
    ∧ Runnable.trace (Runnable.state r')
      = [EvStep "setup"; EvStep "start"; EvStep "stop"]
    ∧ Runnable.step_results (Runnable.state r')
      = [("setup", VNone); ("start", VNone); ("stop", VNone)]
    ∧ od_get "teardown" (Runnable.step_results (Runnable.state r')) = None
    ∧ Runnable._steps r' = [Runnable.teardown_step Runnable.base]
    ∧ Runnable.tag_of (Runnable.state r') = RunnableStatus.FINISHED
    ∧ Runnable.run_field (Runnable.state r') = Some (VBool true).
Proof.
  eexists. split.
  - apply (run_leaves_teardown_queued Runnable.base
             (Runnable.state
                (Runnable.init (Runnable.Config false 30) 0 Examples.empty_store))
             [] 4).
    + reflexivity.
    + reflexivity.
    + left. reflexivity.
    + intros c. split; reflexivity.
    + constructor.
    + repeat constructor.
    + simpl. lia.
  - split_and!; vm_compute; reflexivity.
Defined.

(** ** Resources: a tag other than NONE is never lost *)

Lemma none_is_no_successor :
  map_Forall (λ _ (succ : gset tag), ResourceStatus.NONE ∉ succ)
    ResourceStatus.transitions.
Proof. apply (bool_decide_unpack _). vm_compute. exact I. Qed.

Lemma change_keeps_not_none (a b t : tag) :
  EntityStatus.change ResourceStatus.transitions a b = inr t →
  a ≠ None → t ≠ None.
Proof.
  unfold EntityStatus.change. intros H Ha.
  destruct (decide (a = b)) as [Heq|Hne]; [congruence |].
  destruct (ResourceStatus.transitions !! a) as [succ|] eqn:Hl; [| done].
  destruct (decide (b ∈ succ)) as [Hin|Hnin]; [| done].
  intros Ht. assert (b = None) as -> by congruence.
  by apply (none_is_no_successor _ _ Hl).
Qed.

Lemma run_changes_keeps_not_none (requests : list tag) :
  ∀ current, current ≠ None →
    (run_changes ResourceStatus.transitions current requests).2 ≠ None.
Proof.
  induction requests as [|new rest IH]; intros current Hc; simpl; [done |].
  destruct (EntityStatus.change _ current new) as [e|t] eqn:Hch; [done |].
  apply IH. by eapply change_keeps_not_none.
Qed.

Lemma run_hook_keeps_not_none (h : hook) (current : tag) :
  current ≠ None → (run_hook ResourceStatus.transitions current h).2 ≠ None.
Proof.
  intros Hc. unfold run_hook.
  pose proof (run_changes_keeps_not_none (hook_changes h) current Hc) as H.
  destruct (run_changes _ current (hook_changes h)) as [[e|] t]; exact H.
Qed.

Lemma call_hook_keeps_not_none (r : Resource.t) (h : hook) :
  Resource.tag_of r ≠ None → Resource.tag_of (Resource.call_hook r h).2 ≠ None.
Proof.
  intros Hr. unfold Resource.call_hook.
  pose proof (run_hook_keeps_not_none h _ Hr) as H.
  destruct (run_hook _ (Resource.tag_of r) h) as [oe t]. exact H.
Qed.

Lemma resource_change_keeps_not_none (r : Resource.t) (new : tag) :
  Resource.tag_of r ≠ None → Resource.tag_of (Resource.change r new).2 ≠ None.
Proof.
  intros Hr. unfold Resource.change.
  destruct (EntityStatus.change _ (Resource.tag_of r) new) as [e|t] eqn:Hch;
    [done |].
  simpl. by eapply change_keeps_not_none.
Qed.

Lemma stop_keeps_not_none (r : Resource.t) :
  Resource.tag_of r ≠ None → Resource.tag_of (Resource.stop r).2 ≠ None.
Proof.
  intros Hr. unfold Resource.stop.
  pose proof (resource_change_keeps_not_none r ResourceStatus.STOPPING Hr) as H.
  destruct (Resource.change r ResourceStatus.STOPPING) as [[e|] r']; [done |].
  destruct (Resource.active r'); [| done].
  by apply call_hook_keeps_not_none.
Qed.

(** ** Environment.stop *)

Lemma od_get_set_ne {K V} `{EqDecision K} (k k' : K) (v : V) (d : list (K * V)) :
  k ≠ k' → od_get k (od_set k' v d) = od_get k d.
Proof.
  intros Hne. induction d as [|[k0 v0] d IH]; simpl.
  - by rewrite decide_False.
  - destruct (decide (k0 = k')) as [->|Hne']; simpl.
    + by rewrite !decide_False.
    + destruct (decide (k0 = k)); [done | exact IH].
Qed.

Lemma od_mem_set {K V} `{EqDecision K} (k : K) (v : V) (d : list (K * V)) :
  od_mem k (od_set k v d) = true.
Proof. unfold od_mem. rewrite od_get_set. by apply bool_decide_eq_true_2. Qed.

Lemma od_mem_set_mono {K V} `{EqDecision K} (k k' : K) (v : V) (d : list (K * V)) :
  od_mem k d = true → od_mem k (od_set k' v d) = true.
Proof.
  destruct (decide (k = k')) as [->|Hne]; [intros _; apply od_mem_set |].
  unfold od_mem. by rewrite od_get_set_ne.
Qed.

(** The first loop of [stop] calls [stop] on the resources whose tag is not
    NONE, in the order of the list, records every failure and does not
    touch a resource whose tag is NONE. *)
Lemma stop_loop_spec (rs : list addr) :
  ∀ (excs : list (addr * Environment.failure)) (σ : store),
    (Environment.stop_loop None excs σ rs).2
    = EvStop <$> filter (λ a, Resource.tag_of (σ a) ≠ None) rs
    ∧ (∀ b, Resource.tag_of (σ b) = None →
            (Environment.stop_loop None excs σ rs).1.2 b = σ b)
    ∧ (∀ b, Resource.tag_of (σ b) ≠ None →
            Resource.tag_of ((Environment.stop_loop None excs σ rs).1.2 b) ≠ None)
    ∧ (∀ a, od_mem a excs = true →
            od_mem a (Environment.stop_loop None excs σ rs).1.1 = true)
    ∧ (∀ a, a ∈ rs → Resource.tag_of (σ a) ≠ None →
            (Resource.stop (σ a)).1 ≠ None →
            od_mem a (Environment.stop_loop None excs σ rs).1.1 = true).
Proof.
  induction rs as [|a rest IH]; intros excs σ.
  { simpl. split_and!; try done. intros a Ha. by apply elem_of_nil in Ha. }
  simpl. destruct (decide (Resource.tag_of (σ a) = ResourceStatus.NONE)) as [Hnone|Hsome].
  - destruct (IH excs σ) as (Hev & Hskip & Hkeep & Hmono & Hrec).
    rewrite filter_cons_False by (intros H; by apply H).
    split_and!; try done.
    intros a' Hin Htag. apply elem_of_cons in Hin as [->|Hin]; [done |].
    by apply Hrec.
  - destruct (Resource.stop (σ a)) as [oe r'] eqn:Hstop.
    set (excs1 := match oe with
                  | Some e => od_set a (Resource.name (Resource.cfg r'), e) excs
                  | None => excs
                  end).
    set (σ1 := <[a := r']> σ).
    assert (Hr' : Resource.tag_of r' ≠ None).
    { pose proof (stop_keeps_not_none (σ a) Hsome) as H. by rewrite Hstop in H. }
    assert (Hsame : ∀ b, Resource.tag_of (σ1 b) ≠ None ↔ Resource.tag_of (σ b) ≠ None).
    { intros b. unfold σ1. destruct (decide (a = b)) as [->|Hne].
      - rewrite fn_lookup_insert. done.
      - by rewrite fn_lookup_insert_ne. }
    destruct (IH excs1 σ1) as (Hev & Hskip & Hkeep & Hmono & Hrec).
    destruct (Environment.stop_loop None excs1 σ1 rest) as [[excs' σ'] evs'].
    simpl in *. split_and!.
    + rewrite filter_cons_True by done. rewrite fmap_cons. f_equal.
      rewrite Hev. f_equal. by apply list_filter_iff.
    + intros b Hb. destruct (decide (a = b)) as [->|Hne]; [done |].
      rewrite Hskip; unfold σ1; rewrite fn_lookup_insert_ne; done.
    + intros b Hb. by apply Hkeep, Hsame.
    + intros a' Ha'. apply Hmono. unfold excs1.
      destruct oe; [by apply od_mem_set_mono | done].
    + intros a' Hin Htag Hraise.
      destruct (decide (a' = a)) as [->|Hne].
      * apply Hmono. unfold excs1. rewrite Hstop in Hraise. simpl in Hraise.
        destruct oe; [apply od_mem_set | done].
      * apply elem_of_cons in Hin as [->|Hin]; [done |].
        apply Hrec; [done | | ]; unfold σ1; rewrite fn_lookup_insert_ne; done.
Qed.

Lemma stop_wait_loop_spec (rs : list addr) :
  ∀ (excs : list (addr * Environment.failure)) (σ : store),
    Forall (λ ev, ∃ a, ev = EvWait a ResourceStatus.STOPPED
                       ∧ Resource.tag_of (σ a) ≠ None)
      (Environment.stop_wait_loop excs σ rs).2
    ∧ (∀ b, Resource.tag_of (σ b) = None →
            (Environment.stop_wait_loop excs σ rs).1.2 b = σ b).
Proof.
  induction rs as [|a rest IH]; intros excs σ; simpl; [done |].
  destruct (od_mem a excs); [apply IH |].
  destruct (decide (Resource.tag_of (σ a) = ResourceStatus.NONE)) as [Hnone|Hsome];
    [apply IH |].
  destruct (Resource.wait (σ a) ResourceStatus.STOPPED) as [[e|] r'] eqn:Hwait.
  - simpl. split.
    + repeat constructor. by exists a.
    + intros b Hb. destruct (decide (a = b)) as [->|Hne]; [done |].
      by rewrite fn_lookup_insert_ne.
  - assert (Hr' : Resource.tag_of r' ≠ None).
    { revert Hwait. unfold Resource.wait, Entity.wait. cbv zeta.
      change (Resource._wait_handlers !! ResourceStatus.STOPPED)
        with (Some Resource._wait_stopped).
      unfold Resource._wait_stopped.
      destruct (EntityStatus.change _ _ _) as [e|t] eqn:Hch; [done |].
      intros [= <-]. simpl. by eapply change_keeps_not_none. }
    destruct (IH excs (<[a := r']> σ)) as [Hev Hskip].
    destruct (Environment.stop_wait_loop excs (<[a := r']> σ) rest)
      as [[oe σ'] evs]. simpl in *. split.
    + constructor; [by exists a |].
      eapply Forall_impl; [| exact Hev].
      intros ev (b & -> & Hb). exists b. split; [done |].
      destruct (decide (a = b)) as [->|Hne]; [done |].
      by rewrite fn_lookup_insert_ne in Hb.
    + intros b Hb. destruct (decide (a = b)) as [->|Hne]; [done |].
      rewrite Hskip; rewrite fn_lookup_insert_ne; done.
Qed.

Lemma filter_all {A} (P : A → Prop) `{∀ x, Decision (P x)} (l : list A) :
  Forall P l → filter P l = l.
Proof.
  induction 1 as [|x l Hx Hl IH]; [done |].
  rewrite filter_cons_True by done. by rewrite IH.
Qed.

(** With a parent the logger works, and [stop(reversed=True)] does what is
    asked of it: it calls [stop] on the resources whose tag is not NONE in
    the reverse of the order in which they were added, on all of them
    whatever the earlier calls raise; a resource whose [stop] raises is in
    the stop-failure map afterwards; a resource whose tag is NONE is neither
    stopped nor waited for nor changed.  The events after the stop calls are
    the waits for STOPPED of the second loop. *)
Lemma stop_reversed_with_parent
    (e : Environment.t) (σ : store) (p : entity_ref) :
  Environment.parent e = Some p →
  ∃ waits,
    (Environment.stop e σ true).2
    = (EvStop <$> filter (λ a, Resource.tag_of (σ a) ≠ None)
                    (reverse (Environment.values e))) ++ waits
    ∧ Forall (λ ev, ∃ a, ev = EvWait a ResourceStatus.STOPPED
                         ∧ Resource.tag_of (σ a) ≠ None) waits
    ∧ (Forall (λ a, Resource.tag_of (σ a) ≠ None) (Environment.values e) →
       (Environment.stop e σ true).2
       = (EvStop <$> reverse (Environment.values e)) ++ waits)
    ∧ (∀ a, a ∈ Environment.values e →
            Resource.tag_of (σ a) ≠ None →
            (Resource.stop (σ a)).1 ≠ None →
            od_mem a (Environment.stop_exceptions
                        (Environment.stop e σ true).1.1.2) = true)
    ∧ (∀ a, Resource.tag_of (σ a) = None →
            (Environment.stop e σ true).1.2 a = σ a).
Proof.
  intros Hparent.
  unfold Environment.stop, Environment.logger_debug. rewrite Hparent.
  set (rs := reverse (Environment.values e)).
  destruct (stop_loop_spec rs (Environment.stop_exceptions e) σ)
    as (Hev & Hskip & Hkeep & Hmono & Hrec).
  destruct (Environment.stop_loop None (Environment.stop_exceptions e) σ rs)
    as [[excs σ1] evs1].
  destruct (stop_wait_loop_spec rs excs σ1) as [Hwaits Hskip2].
  destruct (Environment.stop_wait_loop excs σ1 rs) as [[oe σ2] evs2].
  simpl in *. exists evs2. split_and!.
  - by rewrite Hev.
  - eapply Forall_impl; [| exact Hwaits].
    intros ev (a & -> & Ha). exists a. split; [done |].
    intros Hnone. apply Ha. by rewrite Hskip.
  - intros Hall. rewrite Hev. f_equal. f_equal.
    apply filter_all. by apply Forall_reverse.
  - intros a Hin Htag Hraise. apply Hrec; [| done | done].
    by apply elem_of_reverse.
  - intros a Hnone. rewrite Hskip2; rewrite Hskip; done.
Qed.

(** The first loop of [stop] when the call of the logger raises: no
    resource is stopped or changed, and every resource of the list whose
    tag is not NONE is recorded with the exception of the logger. *)
Lemma stop_loop_without_logger (x : exn) (rs : list addr) :
  ∀ (excs : list (addr * Environment.failure)) (σ : store),
    (Environment.stop_loop (Some x) excs σ rs).2 = []
    ∧ (Environment.stop_loop (Some x) excs σ rs).1.2 = σ
    ∧ (∀ a, od_get a excs = Some (Resource.name (Resource.cfg (σ a)), x) →
            od_get a (Environment.stop_loop (Some x) excs σ rs).1.1
            = Some (Resource.name (Resource.cfg (σ a)), x))
    ∧ (∀ a, a ∈ rs → Resource.tag_of (σ a) ≠ None →
            od_get a (Environment.stop_loop (Some x) excs σ rs).1.1
            = Some (Resource.name (Resource.cfg (σ a)), x)).
Proof.
  induction rs as [|a rest IH]; intros excs σ.
  { simpl. split_and!; try done. intros a Ha. by apply elem_of_nil in Ha. }
  cbn [Environment.stop_loop].
  destruct (decide (Resource.tag_of (σ a) = ResourceStatus.NONE)) as [Hnone|Hsome].
  - destruct (IH excs σ) as (Hev & Hsame & Hkeep & Hrec).
    split_and!; try done.
    intros b [-> | Hb]%elem_of_cons Htag; [done | by apply Hrec].
  - set (excs1 := od_set a (Resource.name (Resource.cfg (σ a)), x) excs).
    destruct (IH excs1 σ) as (Hev & Hsame & Hkeep & Hrec).
    assert (Hset : ∀ b,
              od_get b excs = Some (Resource.name (Resource.cfg (σ b)), x) →
              od_get b excs1 = Some (Resource.name (Resource.cfg (σ b)), x)).
    { intros b Hb. unfold excs1. destruct (decide (b = a)) as [-> | Hne].
      - apply od_get_set.
      - by rewrite od_get_set_ne. }
    split_and!; try done.
    + intros b Hb. by apply Hkeep, Hset.
    + intros b [-> | Hb]%elem_of_cons Htag; [| by apply Hrec].
      apply Hkeep. unfold excs1. apply od_get_set.
Qed.

(** The second loop of [stop] waits for nothing when every resource of the
    list has a recorded failure or the tag NONE. *)
Lemma stop_wait_loop_skips (rs : list addr) :
  ∀ (excs : list (addr * Environment.failure)) (σ : store),
    (∀ a, a ∈ rs → Resource.tag_of (σ a) ≠ None → od_mem a excs = true) →
    Environment.stop_wait_loop excs σ rs = (None, σ, []).
Proof.
  induction rs as [|a rest IH]; intros excs σ Hall; [done |].
  cbn [Environment.stop_wait_loop].
  assert (Hrest : ∀ b, b ∈ rest → Resource.tag_of (σ b) ≠ None →
                       od_mem b excs = true).
  { intros b Hb. apply Hall. apply elem_of_cons. by right. }
  destruct (od_mem a excs) eqn:Hmem; [by apply IH |].
  destruct (decide (Resource.tag_of (σ a) = ResourceStatus.NONE)) as [Hnone|Hsome];
    [by apply IH |].
  rewrite Hall in Hmem; [done | apply elem_of_cons; by left | done].
Qed.

(** C5 fails on the code for an environment built without a parent, as
    [Environment()] builds it.  Its [logger] is then [Entity.logger] read on
    the class, a property object, so the call [self.logger.debug], the
    first statement of the [try], raises [AttributeError]: [stop], reversed
    or not, calls [stop] on no resource and waits for none, no resource
    changes, and every resource whose tag is not NONE is recorded in the
    stop-failure map with the exception of the logger. *)
Theorem stop_without_parent_attempts_no_stop
    (e : Environment.t) (σ : store) (reversed : bool) :
  Environment.parent e = None →
  (Environment.stop e σ reversed).2 = []
  ∧ (Environment.stop e σ reversed).1.1.1 = None
  ∧ (Environment.stop e σ reversed).1.2 = σ
  ∧ (∀ a, a ∈ Environment.values e →
          Resource.tag_of (σ a) ≠ None →
          od_get a (Environment.stop_exceptions
                      (Environment.stop e σ reversed).1.1.2)
          = Some (Resource.name (Resource.cfg (σ a)),
                  PropertyAttributeError "debug")).
Proof.
  intros Hparent.
  unfold Environment.stop, Environment.logger_debug. rewrite Hparent.
  set (rs := if reversed then reverse (Environment.values e)
             else Environment.values e).
  assert (Hrs : ∀ a, a ∈ Environment.values e → a ∈ rs).
  { intros a Ha. unfold rs. destruct reversed; [by apply elem_of_reverse | done]. }
  destruct (stop_loop_without_logger (PropertyAttributeError "debug") rs
              (Environment.stop_exceptions e) σ) as (Hev & Hsame & _ & Hrec).
  destruct (Environment.stop_loop _ (Environment.stop_exceptions e) σ rs)
    as [[excs σ1] evs1].
  cbn [fst snd] in *. subst σ1 evs1.
  rewrite (stop_wait_loop_skips rs excs σ).
  - cbn [fst snd Environment.stop_exceptions]. split_and!; try done.
    intros a Ha Htag. by apply Hrec; [apply Hrs |].
  - intros a Ha Htag. unfold od_mem. apply bool_decide_eq_true.
    rewrite (Hrec a Ha Htag). by eexists.
Qed.

Lemma stop_without_parent_attempts_no_stop_witness :
  (Environment.stop env_abc_alone Examples.store_abc true).2 = []
  ∧ (Environment.stop env_abc_alone Examples.store_abc true).1.1.1 = None
  ∧ (Environment.stop env_abc_alone Examples.store_abc true).1.2
    = Examples.store_abc
  ∧ (∀ a, a ∈ Environment.values env_abc_alone →
          Resource.tag_of (Examples.store_abc a) ≠ None →
          od_get a (Environment.stop_exceptions
                      (Environment.stop env_abc_alone Examples.store_abc
                         true).1.1.2)
          = Some (Resource.name (Resource.cfg (Examples.store_abc a)),
                  PropertyAttributeError "debug")).
Proof.
  apply (stop_without_parent_attempts_no_stop env_abc_alone Examples.store_abc
           true).
  reflexivity.
Defined.

(** Resources A, B and C, all started: [stop] is called on C, B and A in
    this order although the [stopping] hook of B raises, and B alone is in
    the stop-failure map. *)
Lemma stop_reversed_example :
  (Environment.stop Examples.env_abc Examples.store_abc true).2
  = [EvStop 2; EvStop 1; EvStop 0;
     EvWait 2 ResourceStatus.STOPPED; EvWait 0 ResourceStatus.STOPPED]
  ∧ Environment.stop_exceptions
      (Environment.stop Examples.env_abc Examples.store_abc true).1.1.2
    = [(1, ("B", UserException "B.stopping"))].
Proof. split; vm_compute; reflexivity. Qed.

(** ** Environment.start *)

Lemma change_from_NONE_to_STARTING :
  EntityStatus.change ResourceStatus.transitions
    ResourceStatus.NONE ResourceStatus.STARTING
  = inr ResourceStatus.STARTING.
Proof. vm_compute. reflexivity. Qed.

Lemma wait_STARTED_keeps_not_none (r : Resource.t) :
  Resource.tag_of r ≠ None →
  Resource.tag_of (Resource.wait r ResourceStatus.STARTED).2 ≠ None.
Proof.
  intros Hr. unfold Resource.wait, Entity.wait. cbv zeta.
  change (Resource._wait_handlers !! ResourceStatus.STARTED)
    with (Some Resource._wait_started).
  unfold Resource._wait_started.
  destruct (EntityStatus.change _ _ _) as [e|t] eqn:Hch; simpl; [done |].
  by eapply change_keeps_not_none.
Qed.

(** Whether it returns or raises, [start] leaves a tag other than NONE. *)
Lemma start_one_not_none (r : Resource.t) :
  Resource.tag_of (Environment.start_one r).1.2 ≠ None.
Proof.
  unfold Environment.start_one, Resource.start, Resource.change.
  destruct (EntityStatus.change _ (Resource.tag_of r) ResourceStatus.STARTING)
    as [e|t] eqn:Hch.
  - simpl. intros Hnone. rewrite Hnone in Hch.
    change (@None string) with ResourceStatus.NONE in Hch.
    by rewrite change_from_NONE_to_STARTING in Hch.
  - apply change_inr in Hch as ->.
    pose proof (call_hook_keeps_not_none
                  (Resource.set_tag r ResourceStatus.STARTING)
                  (Resource.starting (Resource.set_tag r ResourceStatus.STARTING)))
      as Hhook.
    destruct (Resource.call_hook _ _) as [[e|] r']; simpl in *;
      [by apply Hhook |].
    destruct (Resource.async_start _); simpl; [by apply Hhook |].
    pose proof (wait_STARTED_keeps_not_none r') as Hwait.
    destruct (Resource.wait r' ResourceStatus.STARTED) as [oe r''].
    simpl in *. by apply Hwait, Hhook.
Qed.

Lemma started_of_waits (a : addr) (waits : list tag) :
  started_of (EvWait a <$> waits) = [].
Proof. by induction waits. Qed.

Lemma started_of_start (a : addr) (waits : list tag) (evs : list event) :
  started_of ((EvStart a :: (EvWait a <$> waits)) ++ evs) = a :: started_of evs.
Proof.
  pose proof (started_of_waits a waits) as Hwaits.
  unfold started_of in *. simpl. by rewrite omap_app, Hwaits.
Qed.

(** The first loop of [start]: [start] is called on a prefix of the
    resources, in order; each of them has a tag other than NONE afterwards,
    the others are left as they were; either the prefix is the whole list
    and nothing is recorded, or its last resource is the one whose start
    raised, and that failure is recorded. *)
Lemma start_loop_halts (rs : list addr) :
  ∀ (excs : list (addr * Environment.failure)) (σ : store),
    ∃ attempted rest,
      rs = attempted ++ rest
      ∧ started_of (Environment.start_loop None excs σ rs).2 = attempted
      ∧ (∀ a, a ∈ attempted →
              Resource.tag_of ((Environment.start_loop None excs σ rs).1.2 a) ≠ None)
      ∧ (∀ b, b ∉ attempted → (Environment.start_loop None excs σ rs).1.2 b = σ b)
      ∧ ((rest = [] ∧ (Environment.start_loop None excs σ rs).1.1 = excs)
         ∨ ∃ a failure,
             list.last attempted = Some a
             ∧ (Environment.start_loop None excs σ rs).1.1 = od_set a failure excs).
Proof.
  induction rs as [|a rs IH]; intros excs σ.
  { exists [], []. simpl.
    split_and!; [done | done | | done | by left].
    intros a Ha. by apply elem_of_nil in Ha. }
  cbn [Environment.start_loop].
  pose proof (start_one_not_none (σ a)) as Hnn.
  destruct (Environment.start_one (σ a)) as [[[e|] r'] waits];
    cbn [fst snd] in Hnn.
  - exists [a], rs. cbn [fst snd]. split_and!.
    + done.
    + pose proof (started_of_start a waits []) as Hev.
      by rewrite app_nil_r in Hev.
    + intros b Hb. apply list_elem_of_singleton in Hb as ->.
      by rewrite fn_lookup_insert.
    + intros b Hb. rewrite fn_lookup_insert_ne; [done |].
      intros ->. apply Hb. by left.
    + right. by eexists a, _.
  - destruct (IH excs (<[a := r']> σ))
      as (attempted & rest & Hsplit & Hev & Htags & Hrest & Hend).
    destruct (Environment.start_loop None excs (<[a := r']> σ) rs)
      as [[excs' σ'] evs'].
    cbn [fst snd] in *. exists (a :: attempted), rest. split_and!.
    + by rewrite Hsplit.
    + rewrite started_of_start. by rewrite Hev.
    + intros b Hb. destruct (decide (b ∈ attempted)) as [Hin|Hout].
      * by apply Htags.
      * apply elem_of_cons in Hb as [->|Hb]; [| done].
        rewrite (Hrest _ Hout). by rewrite fn_lookup_insert.
    + intros b Hb. apply not_elem_of_cons in Hb as [Hne Hb].
      rewrite (Hrest _ Hb). by rewrite fn_lookup_insert_ne.
    + destruct Hend as [[-> ->]|(b & failure & Hlast & ->)]; [by left |].
      right. exists b, failure. split; [| done].
      by destruct attempted.
Qed.

(** C3 fails on the code: A starts synchronously and its [starting] hook
    raises, B starts asynchronously.  The first loop records the failure of
    A and starts nothing more, but the second loop passes over A before it
    looks at the failure map, goes on to B, which was never started, and
    waits for STARTED on it; the refused change NONE to STARTED is raised
    out of [start]. *)
Theorem start_waits_past_the_halt_point :
  Environment.start_exceptions
    (Environment.start Examples.env_ab Examples.store_ab).1.1.2
  = [(0, ("A", UserException "A.starting"))]
  ∧ (Environment.start Examples.env_ab Examples.store_ab).2
    = [EvStart 0; EvWait 1 ResourceStatus.STARTED]
  ∧ (Environment.start Examples.env_ab Examples.store_ab).1.1.1
    = Some (StatusTransitionException
              ResourceStatus.NONE ResourceStatus.STARTED false)
  ∧ Resource.tag_of
      ((Environment.start Examples.env_ab Examples.store_ab).1.2 0)
    = ResourceStatus.STARTING
  ∧ Resource.tag_of
      ((Environment.start Examples.env_ab Examples.store_ab).1.2 1)
    = ResourceStatus.NONE.
Proof. split_and!; vm_compute; reflexivity. Qed.

(** ** abort *)

Lemma abort_entity_events (c : Runnable.config) (σ : store) (a : addr) :
  (Runnable._abort_entity c σ a).2 = abort_block_returned a
  ∨ ∃ e, (Runnable._abort_entity c σ a).2 = abort_block_raised a e.
Proof.
  unfold Runnable._abort_entity, Resource.abort.
  destruct (Resource.call_hook _ _) as [[e|] r2]; simpl.
  - right. by exists e.
  - left. reflexivity.
Qed.

Lemma abort_all_events (c : Runnable.config) (deps : list addr) :
  ∀ σ, ∃ blocks,
    (Runnable.abort_all c σ deps).2 = concat blocks
    ∧ Forall2 (λ a block, block = abort_block_returned a
                          ∨ ∃ e, block = abort_block_raised a e)
        deps blocks.
Proof.
  induction deps as [|a rest IH]; intros σ; simpl.
  - exists []. split; [done | constructor].
  - pose proof (abort_entity_events c σ a) as Hblock.
    destruct (Runnable._abort_entity c σ a) as [σ1 evs1].
    destruct (IH σ1) as (blocks & Hev & Hall).
    destruct (Runnable.abort_all c σ1 rest) as [σ2 evs2].
    simpl in *. exists (evs1 :: blocks). split.
    + by rewrite Hev.
    + by constructor.
Qed.

(** C7, as amended: [abort()] on a runnable sets its should-abort flag,
    then goes through the owned resources in the order of the environment:
    it calls [abort()] on each and, when that call returns, waits for the
    aborted flag of the resource, while a call that raises is logged and not
    waited for; only then does the [aborting()] hook of the runnable run, and
    the aborted flag of the runnable is set after the hook has returned. *)
Theorem abort_aborts_dependencies_first
    (m : Runnable.methods) (c : Runnable.core) :
  ∃ blocks,
    Forall2 (λ a block, block = abort_block_returned a
                        ∨ ∃ e, block = abort_block_raised a e)
      (Runnable.abort_dependencies c) blocks
    ∧ Runnable.trace (Runnable.abort m c).2
      = Runnable.trace c ++ [EvSetShouldAbort Self] ++ concat blocks
        ++ EvAborting Self
           :: match (Runnable.abort m c).1 with
              | None => [EvSetAborted Self]
              | Some _ => []
              end
    ∧ Runnable._should_abort (Runnable.abort m c).2 = true
    ∧ Runnable._aborted (Runnable.abort m c).2
      = match (Runnable.abort m c).1 with
        | None => true
        | Some _ => Runnable._aborted c
        end.
Proof.
  unfold Runnable.abort. cbv zeta.
  destruct (abort_all_events (Runnable.cfg c)
              (Runnable.abort_dependencies c) (Runnable.objects c))
    as (blocks & Hev & Hall).
  exists blocks. split; [exact Hall |].
  change (Runnable.abort_all
            (Runnable.cfg
               (Runnable.log (Runnable.set_should_abort c true)
                  [EvSetShouldAbort Self]))
            (Runnable.objects
               (Runnable.log (Runnable.set_should_abort c true)
                  [EvSetShouldAbort Self]))
            (Runnable.abort_dependencies
               (Runnable.log (Runnable.set_should_abort c true)
                  [EvSetShouldAbort Self])))
    with (Runnable.abort_all (Runnable.cfg c) (Runnable.objects c)
            (Runnable.abort_dependencies c)).
  destruct (Runnable.abort_all (Runnable.cfg c) (Runnable.objects c)
              (Runnable.abort_dependencies c)) as [σ' evs].
  simpl in Hev. subst evs.
  destruct (run_hook _ _ (Runnable.aborting m)) as [[e|] t']; simpl;
    split_and!; try reflexivity;
    by rewrite <- !app_assoc.
Qed.

(** C7, as stated, fails: the [aborting] hook of the only owned resource
    raises, and no wait for its aborted flag follows. *)
Lemma abort_waits_counterexample : ¬ abort_waits_for_every_dependency.
Proof.
  intros H.
  destruct (H Runnable.base Examples.owner 0) as [reached Hin].
  { vm_compute. left. }
  vm_compute in Hin.
  repeat (apply elem_of_cons in Hin as [Hin|Hin]; [discriminate Hin |]).
  by apply elem_of_nil in Hin.
Qed.

(** ** Start and stop round trip *)

Section transitions_of_a_resource.

Import ResourceStatus.

Lemma change_to_STARTING (t : tag) :
  startable t → EntityStatus.change transitions t STARTING = inr STARTING.
Proof. intros [->| ->]; vm_compute; reflexivity. Qed.

Lemma change_to_STARTED (t : tag) :
  t = STARTING ∨ t = STARTED →
  EntityStatus.change transitions t STARTED = inr STARTED.
Proof. intros [->| ->]; vm_compute; reflexivity. Qed.

Lemma change_to_STOPPING (t : tag) :
  t = STARTING ∨ t = STARTED →
  EntityStatus.change transitions t STOPPING = inr STOPPING.
Proof. intros [->| ->]; vm_compute; reflexivity. Qed.

Lemma change_to_STOPPED (t : tag) :
  t = STOPPING ∨ t = STOPPED →
  EntityStatus.change transitions t STOPPED = inr STOPPED.
Proof. intros [->| ->]; vm_compute; reflexivity. Qed.

Lemma set_tag_tag_of (r : Resource.t) : Resource.set_tag r (Resource.tag_of r) = r.
Proof. by destruct r as [? [] ? ? ? ? ? ? ?]. Qed.

Lemma call_hook_set_tag (r : Resource.t) (t : tag) (h : hook) :
  Resource.call_hook (Resource.set_tag r t) h
  = ((run_hook transitions t h).1,
     Resource.set_tag r (run_hook transitions t h).2).
Proof.
  unfold Resource.call_hook.
  change (Resource.tag_of (Resource.set_tag r t)) with t.
  by destruct (run_hook transitions t h).
Qed.

Lemma start_returns (r : Resource.t) :
  startable (Resource.tag_of r) → hooks_complete r →
  ∃ t, Resource.start r = (None, Resource.set_tag r t)
       ∧ (t = STARTING ∨ t = STARTED).
Proof.
  intros Hst [(t & Hhook & Ht) _].
  unfold Resource.start, Resource.change.
  rewrite (change_to_STARTING _ Hst). cbv beta iota.
  change (Resource.starting (Resource.set_tag r STARTING))
    with (Resource.starting r).
  rewrite call_hook_set_tag, Hhook. by exists t.
Qed.

Lemma wait_STARTED_returns (r : Resource.t) :
  Resource.tag_of r = STARTING ∨ Resource.tag_of r = STARTED →
  Resource.wait r STARTED = (None, Resource.set_tag r STARTED).
Proof.
  intros Ht. unfold Resource.wait, Entity.wait. cbv zeta.
  change (Resource._wait_handlers !! STARTED) with (Some Resource._wait_started).
  unfold Resource._wait_started. by rewrite (change_to_STARTED _ Ht).
Qed.

Lemma stop_returns (r : Resource.t) :
  Resource.tag_of r = STARTING ∨ Resource.tag_of r = STARTED →
  hooks_complete r →
  ∃ t, Resource.stop r = (None, Resource.set_tag r t)
       ∧ (t = STOPPING ∨ t = STOPPED).
Proof.
  intros Hst [_ (t & Hhook & Ht)].
  unfold Resource.stop, Resource.change.
  rewrite (change_to_STOPPING _ Hst). cbv beta iota.
  destruct (Resource.active _).
  - change (Resource.stopping (Resource.set_tag r STOPPING))
      with (Resource.stopping r).
    rewrite call_hook_set_tag, Hhook. by exists t.
  - exists STOPPING. split; [done | by left].
Qed.

Lemma wait_STOPPED_returns (r : Resource.t) :
  Resource.tag_of r = STOPPING ∨ Resource.tag_of r = STOPPED →
  Resource.wait r STOPPED = (None, Resource.set_tag r STOPPED).
Proof.
  intros Ht. unfold Resource.wait, Entity.wait. cbv zeta.
  change (Resource._wait_handlers !! STOPPED) with (Some Resource._wait_stopped).
  unfold Resource._wait_stopped. by rewrite (change_to_STOPPED _ Ht).
Qed.

Lemma start_one_returns (r : Resource.t) :
  startable (Resource.tag_of r) → hooks_complete r →
  ∃ t waits, Environment.start_one r = (None, Resource.set_tag r t, waits)
             ∧ (t = STARTING ∨ t = STARTED).
Proof.
  intros Hst Hhooks. unfold Environment.start_one.
  destruct (start_returns r Hst Hhooks) as (t & -> & Ht).
  destruct (Resource.async_start _).
  - by exists t, [].
  - rewrite wait_STARTED_returns by exact Ht.
    exists STARTED, [STARTED]. split; [done | by right].
Qed.

End transitions_of_a_resource.

Lemma touches_only_refl (rs : list addr) (Q : tag → Prop) (σ : store) :
  (∀ a, a ∈ rs → Q (Resource.tag_of (σ a))) → touches_only rs Q σ σ.
Proof.
  intros HQ b. split; [| done].
  intros Hb. exists (Resource.tag_of (σ b)).
  split; [by rewrite set_tag_tag_of | by apply HQ].
Qed.

Lemma touches_only_cons (a : addr) (rest : list addr) (Q : tag → Prop)
    (σ σ' : store) (t : tag) :
  a ∉ rest → Q t →
  touches_only rest Q (<[a := Resource.set_tag (σ a) t]> σ) σ' →
  touches_only (a :: rest) Q σ σ'.
Proof.
  intros Ha HQ Hrest b. destruct (Hrest b) as [Hin Hout]. split.
  - intros Hb. destruct (decide (b = a)) as [->|Hne].
    + exists t. split; [| done]. rewrite (Hout Ha). by rewrite fn_lookup_insert.
    + apply elem_of_cons in Hb as [?|Hb]; [done |].
      destruct (Hin Hb) as (t' & Ht' & HQ'). exists t'. split; [| done].
      by rewrite fn_lookup_insert_ne in Ht'.
  - intros Hb. apply not_elem_of_cons in Hb as [Hne Hb].
    rewrite (Hout Hb). by rewrite fn_lookup_insert_ne.
Qed.

Lemma touches_only_skip (a : addr) (rest : list addr) (Q : tag → Prop)
    (σ σ' : store) :
  a ∉ rest → Q (Resource.tag_of (σ a)) →
  touches_only rest Q σ σ' → touches_only (a :: rest) Q σ σ'.
Proof.
  intros Ha HQ Hrest b. destruct (Hrest b) as [Hin Hout]. split.
  - intros Hb. destruct (decide (b = a)) as [->|Hne].
    + exists (Resource.tag_of (σ a)). split; [| done].
      by rewrite (Hout Ha), set_tag_tag_of.
    + apply elem_of_cons in Hb as [?|Hb]; [done | by apply Hin].
  - intros Hb. apply not_elem_of_cons in Hb as [Hne Hb]. by apply Hout.
Qed.

Lemma touches_only_trans (rs : list addr) (Q Q' : tag → Prop) (σ σ1 σ2 : store) :
  touches_only rs Q σ σ1 → touches_only rs Q' σ1 σ2 → touches_only rs Q' σ σ2.
Proof.
  intros H1 H2 b. destruct (H1 b) as [Hin1 Hout1], (H2 b) as [Hin2 Hout2].
  split.
  - intros Hb. destruct (Hin1 Hb) as (t1 & Ht1 & _).
    destruct (Hin2 Hb) as (t2 & Ht2 & HQ2). exists t2. split; [| done].
    by rewrite Ht2, Ht1.
  - intros Hb. by rewrite (Hout2 Hb), (Hout1 Hb).
Qed.

(** After a store changed only in tags, the resources have the hooks they
    had. *)
Lemma touches_only_hooks (rs : list addr) (Q : tag → Prop) (σ σ' : store) (b : addr) :
  touches_only rs Q σ σ' → hooks_complete (σ b) → hooks_complete (σ' b).
Proof.
  intros H Hb. destruct (H b) as [Hin Hout].
  destruct (decide (b ∈ rs)) as [Hrs|Hrs].
  - destruct (Hin Hrs) as (t & -> & _). exact Hb.
  - by rewrite (Hout Hrs).
Qed.

Lemma touches_only_tag (rs : list addr) (Q : tag → Prop) (σ σ' : store) (b : addr) :
  touches_only rs Q σ σ' → b ∈ rs → Q (Resource.tag_of (σ' b)).
Proof.
  intros H Hb. destruct (H b) as [Hin _].
  by destruct (Hin Hb) as (t & -> & HQ).
Qed.

Section loops_without_failure.

Import ResourceStatus.

Lemma start_loop_returns (rs : list addr) :
  ∀ (excs : list (addr * Environment.failure)) (σ : store),
    NoDup rs →
    (∀ a, a ∈ rs → startable (Resource.tag_of (σ a)) ∧ hooks_complete (σ a)) →
    (Environment.start_loop None excs σ rs).1.1 = excs
    ∧ touches_only rs (λ t, t = STARTING ∨ t = STARTED) σ
        (Environment.start_loop None excs σ rs).1.2.
Proof.
  induction rs as [|a rest IH]; intros excs σ Hnd Hall; simpl.
  { split; [done |]. apply touches_only_refl. intros a Ha.
    by apply elem_of_nil in Ha. }
  apply list.NoDup_cons in Hnd as [Ha Hnd].
  destruct (Hall a) as [Hst Hhooks]; [by left |].
  destruct (start_one_returns (σ a) Hst Hhooks) as (t & waits & -> & Ht).
  destruct (IH excs (<[a := Resource.set_tag (σ a) t]> σ) Hnd) as [Hexcs Htouch].
  { intros b Hb. rewrite fn_lookup_insert_ne by (intros ->; done).
    apply Hall. by right. }
  destruct (Environment.start_loop None excs _ rest) as [[excs' σ'] evs'].
  simpl in *. split; [done |].
  by eapply touches_only_cons.
Qed.

Lemma start_wait_loop_returns (rs : list addr) :
  ∀ (excs : list (addr * Environment.failure)) (σ : store),
    NoDup rs →
    (∀ a, a ∈ rs → Resource.tag_of (σ a) = STARTING
                   ∨ Resource.tag_of (σ a) = STARTED) →
    (Environment.start_wait_loop excs σ rs).1.1 = None
    ∧ touches_only rs (λ t, t = STARTING ∨ t = STARTED) σ
        (Environment.start_wait_loop excs σ rs).1.2.
Proof.
  induction rs as [|a rest IH]; intros excs σ Hnd Hall; simpl.
  { split; [done |]. apply touches_only_refl. intros a Ha.
    by apply elem_of_nil in Ha. }
  apply list.NoDup_cons in Hnd as [Ha Hnd].
  assert (Hta := Hall a ltac:(by left)).
  destruct (negb (Resource.async_start (Resource.cfg (σ a)))).
  { destruct (IH excs σ Hnd) as [Hoe Htouch].
    { intros b Hb. apply Hall. by right. }
    split; [done |]. by apply touches_only_skip. }
  destruct (od_mem a excs).
  { split; [done |]. by apply touches_only_refl. }
  rewrite wait_STARTED_returns by exact Hta.
  destruct (IH excs (<[a := Resource.set_tag (σ a) STARTED]> σ) Hnd)
    as [Hoe Htouch].
  { intros b Hb. rewrite fn_lookup_insert_ne by (intros ->; done).
    apply Hall. by right. }
  destruct (Environment.start_wait_loop excs _ rest) as [[oe σ'] evs'].
  simpl in *. split; [done |].
  eapply touches_only_cons; [done | by right | done].
Qed.

Lemma stop_loop_returns (rs : list addr) :
  ∀ (excs : list (addr * Environment.failure)) (σ : store),
    NoDup rs →
    (∀ a, a ∈ rs → (Resource.tag_of (σ a) = STARTING
                    ∨ Resource.tag_of (σ a) = STARTED)
                   ∧ hooks_complete (σ a)) →
    (Environment.stop_loop None excs σ rs).1.1 = excs
    ∧ touches_only rs (λ t, t = STOPPING ∨ t = STOPPED) σ
        (Environment.stop_loop None excs σ rs).1.2.
Proof.
  induction rs as [|a rest IH]; intros excs σ Hnd Hall; simpl.
  { split; [done |]. apply touches_only_refl. intros a Ha.
    by apply elem_of_nil in Ha. }
  apply list.NoDup_cons in Hnd as [Ha Hnd].
  destruct (Hall a) as [Hst Hhooks]; [by left |].
  rewrite decide_False by (destruct Hst as [-> | ->]; done).
  destruct (stop_returns (σ a) Hst Hhooks) as (t & -> & Ht).
  destruct (IH excs (<[a := Resource.set_tag (σ a) t]> σ) Hnd) as [Hexcs Htouch].
  { intros b Hb. rewrite fn_lookup_insert_ne by (intros ->; done).
    apply Hall. by right. }
  destruct (Environment.stop_loop None excs _ rest) as [[excs' σ'] evs'].
  simpl in *. split; [done |].
  by eapply touches_only_cons.
Qed.

Lemma stop_wait_loop_returns (rs : list addr) :
  ∀ (excs : list (addr * Environment.failure)) (σ : store),
    NoDup rs →
    (∀ a, a ∈ rs → od_mem a excs = false) →
    (∀ a, a ∈ rs → Resource.tag_of (σ a) = STOPPING
                   ∨ Resource.tag_of (σ a) = STOPPED) →
    (Environment.stop_wait_loop excs σ rs).1.1 = None
    ∧ touches_only rs (λ t, t = STOPPED) σ
        (Environment.stop_wait_loop excs σ rs).1.2.
Proof.
  induction rs as [|a rest IH]; intros excs σ Hnd Hfree Hall; simpl.
  { split; [done |]. apply touches_only_refl. intros a Ha.
    by apply elem_of_nil in Ha. }
  apply list.NoDup_cons in Hnd as [Ha Hnd].
  assert (Hta := Hall a ltac:(by left)).
  rewrite (Hfree a) by (by left).
  rewrite decide_False by (destruct Hta as [-> | ->]; done).
  rewrite wait_STOPPED_returns by exact Hta.
  destruct (IH excs (<[a := Resource.set_tag (σ a) STOPPED]> σ) Hnd)
    as [Hoe Htouch].
  { intros b Hb. apply Hfree. by right. }
  { intros b Hb. rewrite fn_lookup_insert_ne by (intros ->; done).
    apply Hall. by right. }
  destruct (Environment.stop_wait_loop excs _ rest) as [[oe σ'] evs'].
  simpl in *. split; [done |].
  by eapply touches_only_cons.
Qed.

End loops_without_failure.

Lemma touches_only_same_elements (rs rs' : list addr) (Q : tag → Prop)
    (σ σ' : store) :
  (∀ b, b ∈ rs ↔ b ∈ rs') → touches_only rs Q σ σ' → touches_only rs' Q σ σ'.
Proof.
  intros Hsame H b. destruct (H b) as [Hin Hout]. split.
  - intros Hb. by apply Hin, Hsame.
  - intros Hb. apply Hout. by rewrite Hsame.
Qed.

(** C9, as amended: in an environment that has a parent, of distinct
    resources that are fresh or stopped and whose [starting] and [stopping]
    hooks complete normally, with no stop failure recorded for them,
    [start()] followed by [stop()] (in either order) raises nothing and
    leaves every resource STOPPED; STARTING is a declared successor of
    STOPPED, and [start()] on each resource succeeds again. *)
Theorem start_then_stop_round_trip
    (e : Environment.t) (σ : store) (reversed : bool) (p : entity_ref) :
  Environment.parent e = Some p →
  NoDup (Environment.values e) →
  (∀ a, a ∈ Environment.values e →
        od_mem a (Environment.stop_exceptions e) = false) →
  (∀ a, a ∈ Environment.values e →
        startable (Resource.tag_of (σ a)) ∧ hooks_complete (σ a)) →
  let started := Environment.start e σ in
  let stopped := Environment.stop started.1.1.2 started.1.2 reversed in
  started.1.1.1 = None
  ∧ stopped.1.1.1 = None
  ∧ ∀ a, a ∈ Environment.values e →
      Resource.tag_of (stopped.1.2 a) = ResourceStatus.STOPPED
      ∧ ResourceStatus.STARTING
          ∈ EntityStatus.successors ResourceStatus.transitions
              ResourceStatus.STOPPED
      ∧ ∃ t, Resource.start (stopped.1.2 a)
             = (None, Resource.set_tag (stopped.1.2 a) t).
Proof.
  intros Hparent Hnd Hfree Hall started stopped. subst started stopped.
  unfold Environment.start, Environment.logger_debug. rewrite Hparent.
  destruct (start_loop_returns (Environment.values e)
              (Environment.start_exceptions e) σ Hnd Hall) as [Hexcs1 Ht1].
  destruct (Environment.start_loop None (Environment.start_exceptions e) σ
              (Environment.values e)) as [[excs1 σ1] evs1].
  simpl in Hexcs1, Ht1. subst excs1.
  destruct (start_wait_loop_returns (Environment.values e)
              (Environment.start_exceptions e) σ1 Hnd) as [Hoe1 Ht2].
  { intros a Ha. by apply (touches_only_tag _ _ _ _ _ Ht1). }
  destruct (Environment.start_wait_loop (Environment.start_exceptions e) σ1
              (Environment.values e)) as [[oe1 σ2] evs2].
  simpl in Hoe1, Ht2. subst oe1.
  assert (Ht12 := touches_only_trans _ _ _ _ _ _ Ht1 Ht2).
  cbn [fst snd].
  set (e1 := Environment.mk _ _ _ _ _).
  unfold Environment.stop, Environment.logger_debug.
  change (Environment.parent e1) with (Some p). cbv iota.
  change (Environment.values e1) with (Environment.values e).
  change (Environment.stop_exceptions e1) with (Environment.stop_exceptions e).
  set (rs := if reversed then reverse (Environment.values e)
             else Environment.values e).
  assert (Hsame : ∀ b, b ∈ Environment.values e ↔ b ∈ rs).
  { intros b. unfold rs. destruct reversed; [by rewrite elem_of_reverse | done]. }
  assert (Hnd' : NoDup rs).
  { unfold rs. destruct reversed; [by rewrite reverse_Permutation | done]. }
  destruct (stop_loop_returns rs (Environment.stop_exceptions e) σ2 Hnd')
    as [Hexcs3 Ht3].
  { intros a Ha. apply Hsame in Ha. split.
    - by apply (touches_only_tag _ _ _ _ _ Ht12).
    - apply (touches_only_hooks _ _ _ _ _ Ht12). by apply Hall. }
  destruct (Environment.stop_loop None (Environment.stop_exceptions e) σ2 rs)
    as [[excs3 σ3] evs3].
  simpl in Hexcs3, Ht3. subst excs3.
  destruct (stop_wait_loop_returns rs (Environment.stop_exceptions e) σ3 Hnd')
    as [Hoe4 Ht4].
  { intros a Ha. by apply Hfree, Hsame. }
  { intros a Ha. by apply (touches_only_tag _ _ _ _ _ Ht3). }
  destruct (Environment.stop_wait_loop (Environment.stop_exceptions e) σ3 rs)
    as [[oe4 σ4] evs4].
  simpl in Hoe4, Ht4. subst oe4. simpl.
  split; [done |]. split; [done |].
  intros a Ha.
  assert (Htag : Resource.tag_of (σ4 a) = ResourceStatus.STOPPED).
  { apply (touches_only_tag _ _ _ _ _ Ht4). by apply Hsame. }
  split; [exact Htag |]. split; [by vm_compute |].
  destruct (start_returns (σ4 a)) as (t & Hstart & _).
  - right. exact Htag.
  - apply (touches_only_hooks rs _ σ3 _ _ Ht4).
    apply (touches_only_hooks rs _ σ2 _ _ Ht3).
    apply (touches_only_hooks _ _ _ _ _ Ht12). by apply Hall.
  - by exists t.
Qed.

(** Two fresh resources, one started synchronously, are started and then
    stopped in reverse order. *)
Lemma start_then_stop_round_trip_witness :
  let started := Environment.start Examples.env_pair Examples.store_pair in
  let stopped := Environment.stop started.1.1.2 started.1.2 true in
  started.1.1.1 = None
  ∧ stopped.1.1.1 = None
  ∧ ∀ a, a ∈ Environment.values Examples.env_pair →
      Resource.tag_of (stopped.1.2 a) = ResourceStatus.STOPPED
      ∧ ResourceStatus.STARTING
          ∈ EntityStatus.successors ResourceStatus.transitions
              ResourceStatus.STOPPED
      ∧ ∃ t, Resource.start (stopped.1.2 a)
             = (None, Resource.set_tag (stopped.1.2 a) t).
Proof.
  apply (start_then_stop_round_trip Examples.env_pair Examples.store_pair true
           Self).
  - reflexivity.
  - apply (bool_decide_unpack _). vm_compute. exact I.
  - intros a Ha. change (a ∈ [0; 1]) in Ha.
    repeat (apply elem_of_cons in Ha as [->|Ha]; [reflexivity |]).
    by apply elem_of_nil in Ha.
  - intros a Ha. change (a ∈ [0; 1]) in Ha.
    repeat (apply elem_of_cons in Ha as [->|Ha];
            [split; [by left | split; eexists;
                                 (split; [vm_compute; reflexivity
                                         | first [by left | by right]])] |]).
    by apply elem_of_nil in Ha.
Defined.

(** C9, as stated, fails.  The two resources of [Examples.env_pair] are
    started, stopped and stopped a second time: the second [stop] finds them
    STOPPED, every call is refused and recorded in the stop-failure map,
    which nothing clears.  The environment has a parent, its resources are
    distinct and STOPPED and their hooks complete normally; yet [start()]
    followed by [stop()] leaves resource A in STOPPING: the second loop of
    [stop] passes over a resource that has a recorded stop failure, and the
    [stopping] hook of A relies on that wait to reach STOPPED. *)
Lemma round_trip_counterexample :
  Environment.parent pair_stopped_twice.1 = Some Self
  ∧ NoDup (Environment.values pair_stopped_twice.1)
  ∧ (∀ a, a ∈ Environment.values pair_stopped_twice.1 →
          Resource.tag_of (pair_stopped_twice.2 a) = ResourceStatus.STOPPED
          ∧ hooks_complete (pair_stopped_twice.2 a))
  ∧ ¬ round_trip_ends_STOPPED pair_stopped_twice.1 pair_stopped_twice.2 true.
Proof.
  split_and!.
  - reflexivity.
  - apply (bool_decide_unpack _). vm_compute. exact I.
  - intros a Ha. change (a ∈ [0; 1]) in Ha.
    repeat (apply elem_of_cons in Ha as [->|Ha];
            [split; [vm_compute; reflexivity
                    | split; eexists;
                        (split; [vm_compute; reflexivity
                                | first [by left | by right]])] |]).
    by apply elem_of_nil in Ha.
  - intros Hclaim.
    assert (H0 : Resource.tag_of
                   ((Environment.stop
                       (Environment.start pair_stopped_twice.1
                          pair_stopped_twice.2).1.1.2
                       (Environment.start pair_stopped_twice.1
                          pair_stopped_twice.2).1.2 true).1.2 0)
                 = ResourceStatus.STOPPED).
    { apply Hclaim.
      - intros a Ha. change (a ∈ [0; 1]) in Ha.
        repeat (apply elem_of_cons in Ha as [->|Ha];
                [split; eexists;
                   (split; [vm_compute; reflexivity
                           | first [by left | by right]]) |]).
        by apply elem_of_nil in Ha.
      - change (0 ∈ [0; 1]). apply elem_of_cons. by left. }
    vm_compute in H0. discriminate H0.
Qed.

(** * Further properties *)

(** ** Adding, removing and looking up resources *)

Lemma od_mem_false {K V} `{EqDecision K} (k : K) (d : list (K * V)) :
  od_mem k d = false ↔ od_get k d = None.
Proof.
  unfold od_mem. rewrite bool_decide_eq_false.
  destruct (od_get k d) as [v|].
  - split; [intros H; destruct H; by eexists | done].
  - split; [done | intros _ [? ?]; done].
Qed.

Lemma od_mem_true {K V} `{EqDecision K} (k : K) (d : list (K * V)) :
  od_mem k d = true ↔ is_Some (od_get k d).
Proof. unfold od_mem. apply bool_decide_eq_true. Qed.

Lemma od_get_None_keys {K V} `{EqDecision K} (k : K) (d : list (K * V)) :
  od_get k d = None ↔ k ∉ d.*1.
Proof.
  induction d as [|[k' v'] d IH]; simpl.
  - split; [intros _; apply not_elem_of_nil | done].
  - rewrite not_elem_of_cons. destruct (decide (k' = k)) as [->|Hne].
    + split; [done | intros [? _]; done].
    + rewrite IH. split; [intros ?; split; [congruence | done] | intros [_ ?]; done].
Qed.

Lemma od_set_fresh {K V} `{EqDecision K} (k : K) (v : V) (d : list (K * V)) :
  od_get k d = None → od_set k v d = d ++ [(k, v)].
Proof.
  induction d as [|[k' v'] d IH]; simpl; [done |].
  destruct (decide (k' = k)); [done |]. intros H. by rewrite IH.
Qed.

Lemma od_del_fresh_last {K V} `{EqDecision K} (k : K) (v : V) (d : list (K * V)) :
  od_get k d = None → od_del k (d ++ [(k, v)]) = d.
Proof.
  induction d as [|[k' v'] d IH]; simpl.
  - intros _. by rewrite decide_True.
  - destruct (decide (k' = k)); [done |]. intros H. by rewrite IH.
Qed.

Lemma od_get_del_ne {K V} `{EqDecision K} (k k' : K) (d : list (K * V)) :
  k ≠ k' → od_get k (od_del k' d) = od_get k d.
Proof.
  intros Hne. induction d as [|[k0 v0] d IH]; simpl; [done |].
  destruct (decide (k0 = k')) as [->|Hne'].
  - by rewrite decide_False.
  - simpl. destruct (decide (k0 = k)); [done | exact IH].
Qed.

Lemma od_del_keys_subset {K V} `{EqDecision K} (k k' : K) (d : list (K * V)) :
  k ∈ (od_del k' d).*1 → k ∈ d.*1.
Proof.
  induction d as [|[k0 v0] d IH]; simpl; [done |].
  destruct (decide (k0 = k')) as [->|Hne]; simpl.
  - intros H. by right.
  - rewrite !elem_of_cons. intros [->|H]; [by left | right; by apply IH].
Qed.

Lemma od_del_NoDup {K V} `{EqDecision K} (k : K) (d : list (K * V)) :
  NoDup d.*1 → NoDup (od_del k d).*1 ∧ k ∉ (od_del k d).*1.
Proof.
  induction d as [|[k0 v0] d IH]; simpl.
  - intros _. split; [constructor | apply not_elem_of_nil].
  - rewrite list.NoDup_cons. intros [Hk0 Hnd].
    destruct (decide (k0 = k)) as [->|Hne]; simpl; [done |].
    destruct (IH Hnd) as [Hnd' Hk]. split.
    + apply list.NoDup_cons. split; [| done].
      intros Hin. apply Hk0. by eapply od_del_keys_subset.
    + rewrite not_elem_of_cons. split; [congruence | done].
Qed.

(** X1: adding a resource under an identifier that is not in the
    environment succeeds and returns the identifier; the resource goes to
    the end of the iteration order, is found under the identifier, and the
    other identifiers resolve as before; the context of the resource is the
    environment and the failure maps are untouched. *)
Theorem add_fresh_appends
    (e : Environment.t) (σ : store) (item : addr) (uid : option string) :
  Environment_contains e (default (Resource._uid (σ item)) uid) = false →
  ∃ e' σ',
    Environment.add e σ item uid
    = (inr (default (Resource._uid (σ item)) uid), e', σ')
    ∧ Environment.values e' = Environment.values e ++ [item]
    ∧ od_get (default (Resource._uid (σ item)) uid) (Environment._resources e')
      = Some item
    ∧ (∀ k, k ≠ default (Resource._uid (σ item)) uid →
            od_get k (Environment._resources e')
            = od_get k (Environment._resources e))
    ∧ Resource._context (σ' item) = Some (Environment.env_id e)
    ∧ Environment.start_exceptions e' = Environment.start_exceptions e
    ∧ Environment.stop_exceptions e' = Environment.stop_exceptions e.
Proof.
  unfold Environment_contains. intros Hfresh.
  unfold Environment.add. rewrite Hfresh.
  apply od_mem_false in Hfresh.
  eexists _, _. split; [reflexivity |]. cbn [Environment._resources
    Environment.start_exceptions Environment.stop_exceptions].
  split_and!.
  - unfold Environment.values. cbn [Environment._resources].
    by rewrite (od_set_fresh _ _ _ Hfresh), fmap_app.
  - apply od_get_set.
  - intros k Hk. by apply od_get_set_ne.
  - by rewrite fn_lookup_insert.
  - done.
  - done.
Qed.

Lemma add_fresh_appends_witness :
  ∃ e' σ',
    Environment.add Examples.env_db Examples.store_db 1 (Some "cache")
    = (inr (default (Resource._uid (Examples.store_db 1)) (Some "cache")), e', σ')
    ∧ Environment.values e' = Environment.values Examples.env_db ++ [1]
    ∧ od_get (default (Resource._uid (Examples.store_db 1)) (Some "cache"))
        (Environment._resources e')
      = Some 1
    ∧ (∀ k, k ≠ default (Resource._uid (Examples.store_db 1)) (Some "cache") →
            od_get k (Environment._resources e')
            = od_get k (Environment._resources Examples.env_db))
    ∧ Resource._context (σ' 1) = Some (Environment.env_id Examples.env_db)
    ∧ Environment.start_exceptions e'
      = Environment.start_exceptions Examples.env_db
    ∧ Environment.stop_exceptions e'
      = Environment.stop_exceptions Examples.env_db.
Proof.
  apply (add_fresh_appends Examples.env_db Examples.store_db 1 (Some "cache")).
  reflexivity.
Defined.

(** X2: removing the identifier a resource was just added under gives the
    environment back as it was before the addition, but the context of the
    resource still refers to the environment: [remove] does not reset it. *)
Theorem add_then_remove
    (e : Environment.t) (σ : store) (item : addr) (uid : string) :
  Environment_contains e uid = false →
  Environment_remove (Environment.add e σ item (Some uid)).1.2 uid = inr e
  ∧ Resource._context ((Environment.add e σ item (Some uid)).2 item)
    = Some (Environment.env_id e).
Proof.
  unfold Environment_contains. intros Hfresh.
  unfold Environment.add.
  change (default (Resource._uid (σ item)) (Some uid)) with uid.
  rewrite Hfresh. cbn [fst snd].
  apply od_mem_false in Hfresh. split.
  - unfold Environment_remove. cbn [Environment._resources Environment.env_id
      Environment.start_exceptions Environment.stop_exceptions].
    rewrite od_mem_set, (od_set_fresh _ _ _ Hfresh),
      (od_del_fresh_last _ _ _ Hfresh).
    by destruct e.
  - by rewrite fn_lookup_insert.
Qed.

Lemma add_then_remove_witness :
  Environment_remove
    (Environment.add Examples.env_db Examples.store_db 1 (Some "cache")).1.2
    "cache"
  = inr Examples.env_db
  ∧ Resource._context
      ((Environment.add Examples.env_db Examples.store_db 1 (Some "cache")).2 1)
    = Some (Environment.env_id Examples.env_db).
Proof.
  apply (add_then_remove Examples.env_db Examples.store_db 1 "cache").
  reflexivity.
Defined.

(** X3: [remove] raises [KeyError] exactly for an identifier that is not in
    the environment; otherwise the identifier is gone afterwards, the other
    identifiers resolve as before, and the failure maps are untouched. *)
Theorem remove_spec (e : Environment.t) (uid : string) :
  NoDup (Environment._resources e).*1 →
  (Environment_remove e uid = inl (KeyError uid)
   ↔ Environment_contains e uid = false)
  ∧ ∀ e', Environment_remove e uid = inr e' →
      Environment_contains e uid = true
      ∧ Environment_contains e' uid = false
      ∧ (∀ k, k ≠ uid →
              od_get k (Environment._resources e')
              = od_get k (Environment._resources e))
      ∧ NoDup (Environment._resources e').*1
      ∧ Environment.start_exceptions e' = Environment.start_exceptions e
      ∧ Environment.stop_exceptions e' = Environment.stop_exceptions e.
Proof.
  intros Hnd. unfold Environment_remove, Environment_contains.
  destruct (od_mem uid (Environment._resources e)) eqn:Hmem.
  - split; [split; intros H; discriminate H |].
    intros e' [= <-]. cbn [Environment._resources
      Environment.start_exceptions Environment.stop_exceptions].
    destruct (od_del_NoDup uid _ Hnd) as [Hnd' Hgone].
    split_and!; try done.
    + by apply od_mem_false, od_get_None_keys.
    + intros k Hk. by apply od_get_del_ne.
  - split; [done |]. intros e' H. discriminate H.
Qed.

Lemma remove_spec_witness :
  (Environment_remove Examples.env_abc "B" = inl (KeyError "B")
   ↔ Environment_contains Examples.env_abc "B" = false)
  ∧ ∀ e', Environment_remove Examples.env_abc "B" = inr e' →
      Environment_contains Examples.env_abc "B" = true
      ∧ Environment_contains e' "B" = false
      ∧ (∀ k, k ≠ "B" →
              od_get k (Environment._resources e')
              = od_get k (Environment._resources Examples.env_abc))
      ∧ NoDup (Environment._resources e').*1
      ∧ Environment.start_exceptions e'
        = Environment.start_exceptions Examples.env_abc
      ∧ Environment.stop_exceptions e'
        = Environment.stop_exceptions Examples.env_abc.
Proof.
  apply (remove_spec Examples.env_abc "B").
  apply (bool_decide_unpack _). vm_compute. exact I.
Defined.

(** X4: the identifiers of an environment stay pairwise distinct under
    [add], whether it succeeds or raises. *)
Theorem add_keeps_uids_distinct
    (e : Environment.t) (σ : store) (item : addr) (uid : option string) :
  NoDup (Environment._resources e).*1 →
  NoDup (Environment._resources (Environment.add e σ item uid).1.2).*1.
Proof.
  intros Hnd. unfold Environment.add.
  destruct (od_mem _ _) eqn:Hmem; cbn [fst snd]; [done |].
  apply od_mem_false in Hmem. cbn [Environment._resources].
  rewrite (od_set_fresh _ _ _ Hmem), fmap_app. simpl.
  apply list.NoDup_app. split_and!; [done | | apply NoDup_singleton].
  intros k Hk Hk'. apply list_elem_of_singleton in Hk' as ->.
  by apply od_get_None_keys in Hmem.
Qed.

Lemma add_keeps_uids_distinct_witness :
  NoDup (Environment._resources
           (Environment.add Examples.env_db Examples.store_db 1 None).1.2).*1.
Proof.
  apply (add_keeps_uids_distinct Examples.env_db Examples.store_db 1 None).
  apply (bool_decide_unpack _). vm_compute. exact I.
Defined.

(** X5: a name that resolves to a value of the initial context resolves to
    a resource once a resource is added under it, and to the context value
    again once the resource is removed. *)
Theorem added_resource_shadows_context
    (initial_context : gmap string value) (e : Environment.t) (σ : store)
    (item : addr) (uid : string) (v : value) :
  Environment_contains e uid = false →
  initial_context !! uid = Some v →
  Environment_getattr (Some initial_context) e uid = inr (FoundContext v)
  ∧ Environment_getattr (Some initial_context)
      (Environment.add e σ item (Some uid)).1.2 uid
    = inr (FoundResource item)
  ∧ ∃ e', Environment_remove (Environment.add e σ item (Some uid)).1.2 uid
          = inr e'
          ∧ Environment_getattr (Some initial_context) e' uid
            = inr (FoundContext v).
Proof.
  intros Hfresh Hctx.
  destruct (add_then_remove e σ item uid Hfresh) as [Hremove _].
  assert (Hne : initial_context ≠ ∅).
  { intros ->. by rewrite lookup_empty in Hctx. }
  assert (Hbefore :
    Environment_getattr (Some initial_context) e uid = inr (FoundContext v)).
  { unfold Environment_getattr. unfold Environment_contains in Hfresh.
    apply od_mem_false in Hfresh. rewrite Hfresh.
    rewrite decide_False by done. by rewrite Hctx. }
  split_and!; [exact Hbefore | | by exists e].
  unfold Environment_getattr, Environment.add.
  change (default (Resource._uid (σ item)) (Some uid)) with uid.
  unfold Environment_contains in Hfresh. rewrite Hfresh. cbn [fst snd].
  cbn [Environment._resources]. by rewrite od_get_set.
Qed.

Lemma added_resource_shadows_context_witness :
  Environment_getattr (Some {[ "cache" := VInt 7 ]}) Examples.env_db "cache"
  = inr (FoundContext (VInt 7))
  ∧ Environment_getattr (Some {[ "cache" := VInt 7 ]})
      (Environment.add Examples.env_db Examples.store_db 1 (Some "cache")).1.2
      "cache"
    = inr (FoundResource 1)
  ∧ ∃ e', Environment_remove
            (Environment.add Examples.env_db Examples.store_db 1
               (Some "cache")).1.2 "cache"
          = inr e'
          ∧ Environment_getattr (Some {[ "cache" := VInt 7 ]}) e' "cache"
            = inr (FoundContext (VInt 7)).
Proof.
  apply (added_resource_shadows_context {[ "cache" := VInt 7 ]}
           Examples.env_db Examples.store_db 1 "cache" (VInt 7)).
  - reflexivity.
  - vm_compute. reflexivity.
Defined.

(** X6: [all_status] iterates over the identifiers, not over the
    resources: it returns [True] for an environment without resources and
    raises [AttributeError] otherwise; it never returns [False]. *)
Theorem all_status_never_compares (e : Environment.t) (target : tag) :
  (Environment_all_status e target = inr true ↔ Environment._resources e = [])
  ∧ (Environment._resources e ≠ [] →
     Environment_all_status e target = inl (AttributeError "status"))
  ∧ Environment_all_status e target ≠ inr false.
Proof.
  unfold Environment_all_status.
  destruct (Environment._resources e) as [|[uid a] rest]; simpl.
  - split_and!; done.
  - split_and!; [split; intros H; discriminate H | done | done].
Qed.

Lemma all_status_never_compares_witness :
  Environment_all_status Examples.env_abc ResourceStatus.STARTED
  = inl (AttributeError "status").
Proof.
  apply (all_status_never_compares Examples.env_abc ResourceStatus.STARTED).
  discriminate.
Defined.

(** ** Order and bookkeeping of start and stop *)

(** X7: leaving a [with] block on an environment that has a parent calls
    [stop] on the resources whose tag is not NONE in the order in which
    they were added, not in the reverse order. *)
Theorem exit_stops_in_insertion_order
    (e : Environment.t) (σ : store) (p : entity_ref) :
  Environment.parent e = Some p →
  ∃ waits,
    (Environment_exit e σ).2
    = (EvStop <$> filter (λ a, Resource.tag_of (σ a) ≠ None)
                    (Environment.values e)) ++ waits
    ∧ Forall (λ ev, ∃ a, ev = EvWait a ResourceStatus.STOPPED) waits.
Proof.
  intros Hparent.
  unfold Environment_exit, Environment.stop, Environment.logger_debug.
  rewrite Hparent.
  destruct (stop_loop_spec (Environment.values e)
              (Environment.stop_exceptions e) σ) as (Hev & _).
  destruct (Environment.stop_loop None (Environment.stop_exceptions e) σ
              (Environment.values e)) as [[excs σ1] evs1].
  destruct (stop_wait_loop_spec (Environment.values e) excs σ1) as [Hwaits _].
  destruct (Environment.stop_wait_loop excs σ1 (Environment.values e))
    as [[oe σ2] evs2].
  simpl in *. exists evs2. split; [by rewrite Hev |].
  eapply Forall_impl; [| exact Hwaits].
  intros ev (a & -> & _). by exists a.
Qed.

Lemma exit_stops_in_insertion_order_witness :
  ∃ waits,
    (Environment_exit Examples.env_abc Examples.store_abc).2
    = (EvStop <$> filter (λ a, Resource.tag_of (Examples.store_abc a) ≠ None)
                    (Environment.values Examples.env_abc)) ++ waits
    ∧ Forall (λ ev, ∃ a, ev = EvWait a ResourceStatus.STOPPED) waits.
Proof.
  apply (exit_stops_in_insertion_order Examples.env_abc Examples.store_abc
           Self).
  reflexivity.
Defined.

Lemma start_loop_grows (debug : option exn) (rs : list addr)
    (excs : list (addr * Environment.failure)) (σ : store) (a : addr) :
  od_mem a excs = true →
  od_mem a (Environment.start_loop debug excs σ rs).1.1 = true.
Proof.
  intros Ha. destruct debug as [x |].
  - destruct rs as [|b rest]; [done |].
    cbn [Environment.start_loop fst]. by apply od_mem_set_mono.
  - destruct (start_loop_halts rs excs σ)
      as (attempted & rest & _ & _ & _ & _ & [[_ ->]|(b & failure & _ & ->)]);
      [done | by apply od_mem_set_mono].
Qed.

Lemma stop_loop_grows (debug : option exn) (rs : list addr) :
  ∀ (excs : list (addr * Environment.failure)) (σ : store) (a : addr),
    od_mem a excs = true →
    od_mem a (Environment.stop_loop debug excs σ rs).1.1 = true.
Proof.
  destruct debug as [x |].
  - induction rs as [|b rest IH]; intros excs σ a Ha; [done |].
    cbn [Environment.stop_loop].
    destruct (decide (Resource.tag_of (σ b) = ResourceStatus.NONE));
      [by apply IH |].
    apply IH. by apply od_mem_set_mono.
  - intros excs σ a Ha.
    destruct (stop_loop_spec rs excs σ) as (_ & _ & _ & Hmono & _).
    by apply Hmono.
Qed.

(** X8: the failure maps only grow: [start] keeps every entry of the
    start-failure map and does not touch the stop-failure map, [stop] keeps
    every entry of the stop-failure map and does not touch the start-failure
    map; neither clears what an earlier pass recorded. *)
Theorem failure_maps_only_grow
    (e : Environment.t) (σ : store) (reversed : bool) (a : addr) :
  (od_mem a (Environment.start_exceptions e) = true →
   od_mem a (Environment.start_exceptions (Environment.start e σ).1.1.2) = true)
  ∧ Environment.stop_exceptions (Environment.start e σ).1.1.2
    = Environment.stop_exceptions e
  ∧ (od_mem a (Environment.stop_exceptions e) = true →
     od_mem a (Environment.stop_exceptions
                 (Environment.stop e σ reversed).1.1.2) = true)
  ∧ Environment.start_exceptions (Environment.stop e σ reversed).1.1.2
    = Environment.start_exceptions e.
Proof.
  split_and!.
  - intros Ha. unfold Environment.start.
    pose proof (start_loop_grows (Environment.logger_debug e)
                  (Environment.values e)
                  (Environment.start_exceptions e) σ a Ha) as Hgrow.
    destruct (Environment.start_loop _ _ σ _) as [[excs σ1] evs1].
    by destruct (Environment.start_wait_loop excs σ1 _) as [[oe σ2] evs2].
  - unfold Environment.start.
    destruct (Environment.start_loop _ _ σ _) as [[excs σ1] evs1].
    by destruct (Environment.start_wait_loop excs σ1 _) as [[oe σ2] evs2].
  - intros Ha. unfold Environment.stop.
    set (rs := if reversed then _ else _).
    pose proof (stop_loop_grows (Environment.logger_debug e) rs
                  (Environment.stop_exceptions e) σ a Ha) as Hgrow.
    destruct (Environment.stop_loop _ _ σ rs) as [[excs σ1] evs1].
    by destruct (Environment.stop_wait_loop excs σ1 rs) as [[oe σ2] evs2].
  - unfold Environment.stop.
    destruct (Environment.stop_loop _ _ σ _) as [[excs σ1] evs1].
    by destruct (Environment.stop_wait_loop excs σ1 _) as [[oe σ2] evs2].
Qed.

Lemma failure_maps_only_grow_witness :
  od_mem 1 (Environment.stop_exceptions
              (Environment.stop
                 (Environment.stop Examples.env_abc Examples.store_abc true).1.1.2
                 (Environment.stop Examples.env_abc Examples.store_abc true).1.2
                 false).1.1.2) = true.
Proof.
  apply (failure_maps_only_grow
           (Environment.stop Examples.env_abc Examples.store_abc true).1.1.2
           (Environment.stop Examples.env_abc Examples.store_abc true).1.2
           false 1).
  vm_compute. reflexivity.
Defined.

(** ** Start and stop are not idempotent *)

Lemma stop_STOPPED_refused (r : Resource.t) :
  Resource.tag_of r = ResourceStatus.STOPPED →
  Resource.stop r
  = (Some (StatusTransitionException
             ResourceStatus.STOPPED ResourceStatus.STOPPING false), r).
Proof.
  intros Ht. unfold Resource.stop, Resource.change. rewrite Ht.
  change (EntityStatus.change ResourceStatus.transitions
            ResourceStatus.STOPPED ResourceStatus.STOPPING)
    with (@inl exn tag (StatusTransitionException ResourceStatus.STOPPED
                          ResourceStatus.STOPPING false)).
  reflexivity.
Qed.

Lemma start_STARTED_refused (r : Resource.t) :
  Resource.tag_of r = ResourceStatus.STARTED →
  Environment.start_one r
  = (Some (StatusTransitionException
             ResourceStatus.STARTED ResourceStatus.STARTING false), r, []).
Proof.
  intros Ht. unfold Environment.start_one, Resource.start, Resource.change.
  rewrite Ht.
  change (EntityStatus.change ResourceStatus.transitions
            ResourceStatus.STARTED ResourceStatus.STARTING)
    with (@inl exn tag (StatusTransitionException ResourceStatus.STARTED
                          ResourceStatus.STARTING false)).
  reflexivity.
Qed.

Lemma fn_insert_same {A} (σ : addr → A) (a b : addr) : <[a := σ a]> σ b = σ b.
Proof.
  destruct (decide (a = b)) as [->|Hne];
    [by rewrite fn_lookup_insert | by rewrite fn_lookup_insert_ne].
Qed.

Lemma stop_loop_all_STOPPED (rs : list addr) :
  ∀ (excs : list (addr * Environment.failure)) (σ : store),
    (∀ a, a ∈ rs → Resource.tag_of (σ a) = ResourceStatus.STOPPED) →
    (Environment.stop_loop None excs σ rs).2 = EvStop <$> rs
    ∧ (∀ b, (Environment.stop_loop None excs σ rs).1.2 b = σ b)
    ∧ (∀ a, a ∈ rs → od_mem a (Environment.stop_loop None excs σ rs).1.1 = true)
    ∧ (∀ a, od_mem a excs = true →
            od_mem a (Environment.stop_loop None excs σ rs).1.1 = true).
Proof.
  induction rs as [|a rest IH]; intros excs σ Hall.
  { simpl. split_and!; try done. intros a Ha. by apply elem_of_nil in Ha. }
  cbn [Environment.stop_loop].
  assert (Ha : Resource.tag_of (σ a) = ResourceStatus.STOPPED)
    by (apply Hall; by left).
  rewrite decide_False by (by rewrite Ha).
  rewrite (stop_STOPPED_refused _ Ha). cbv beta iota zeta.
  set (excs1 := od_set a
                  (Resource.name (Resource.cfg (σ a)),
                   StatusTransitionException ResourceStatus.STOPPED
                     ResourceStatus.STOPPING false)
                  excs).
  destruct (IH excs1 (<[a := σ a]> σ)) as (Hev & Hsame & Hrec & Hmono).
  { intros b Hb. rewrite fn_insert_same. apply Hall. by right. }
  destruct (Environment.stop_loop None excs1 (<[a := σ a]> σ) rest)
    as [[excs' σ'] evs'].
  cbn [fst snd] in *. split_and!.
  - by rewrite Hev.
  - intros b. by rewrite Hsame, fn_insert_same.
  - intros b Hb. destruct (decide (b = a)) as [->|Hne].
    + apply Hmono. apply od_mem_set.
    + apply elem_of_cons in Hb as [?|Hb]; [done | by apply Hrec].
  - intros b Hb. by apply Hmono, od_mem_set_mono.
Qed.

Lemma stop_wait_loop_all_failed (rs : list addr) :
  ∀ (excs : list (addr * Environment.failure)) (σ : store),
    (∀ a, a ∈ rs → od_mem a excs = true) →
    Environment.stop_wait_loop excs σ rs = (None, σ, []).
Proof.
  induction rs as [|a rest IH]; intros excs σ Hall; simpl; [done |].
  rewrite (Hall a) by (by left). apply IH. intros b Hb. apply Hall. by right.
Qed.

(** X9: [stop] is not idempotent.  Called on an environment that has a
    parent and whose resources are all STOPPED, as a successful [stop]
    leaves them, it calls [stop] on every resource again; each call is
    refused, so every resource ends in the stop-failure map, none is waited
    for, no object changes and [stop] itself raises nothing. *)
Theorem stop_again_records_failures
    (e : Environment.t) (σ : store) (reversed : bool) (p : entity_ref) :
  Environment.parent e = Some p →
  (∀ a, a ∈ Environment.values e →
        Resource.tag_of (σ a) = ResourceStatus.STOPPED) →
  (Environment.stop e σ reversed).1.1.1 = None
  ∧ (Environment.stop e σ reversed).2
    = EvStop <$> (if reversed then reverse (Environment.values e)
                  else Environment.values e)
  ∧ (∀ b, (Environment.stop e σ reversed).1.2 b = σ b)
  ∧ (∀ a, a ∈ Environment.values e →
          od_mem a (Environment.stop_exceptions
                      (Environment.stop e σ reversed).1.1.2) = true).
Proof.
  intros Hparent Hall.
  unfold Environment.stop, Environment.logger_debug. rewrite Hparent.
  set (rs := if reversed then reverse (Environment.values e)
             else Environment.values e).
  assert (Hsame : ∀ b, b ∈ rs ↔ b ∈ Environment.values e).
  { intros b. unfold rs. destruct reversed; [by rewrite elem_of_reverse | done]. }
  destruct (stop_loop_all_STOPPED rs (Environment.stop_exceptions e) σ)
    as (Hev & Hstore & Hrec & _).
  { intros a Ha. by apply Hall, Hsame. }
  destruct (Environment.stop_loop None (Environment.stop_exceptions e) σ rs)
    as [[excs σ1] evs1].
  cbn [fst snd] in *.
  rewrite (stop_wait_loop_all_failed rs excs σ1 Hrec).
  cbn [fst snd Environment.stop_exceptions]. split_and!.
  - done.
  - by rewrite Hev, app_nil_r.
  - exact Hstore.
  - intros a Ha. by apply Hrec, Hsame.
Qed.

(** The environment of the round trip, stopped once, is stopped again. *)
Lemma stop_again_records_failures_witness :
  let stopped :=
    Environment.stop
      (Environment.start Examples.env_pair Examples.store_pair).1.1.2
      (Environment.start Examples.env_pair Examples.store_pair).1.2 true in
  (Environment.stop stopped.1.1.2 stopped.1.2 true).1.1.1 = None
  ∧ (Environment.stop stopped.1.1.2 stopped.1.2 true).2
    = EvStop <$> reverse (Environment.values stopped.1.1.2)
  ∧ (∀ b, (Environment.stop stopped.1.1.2 stopped.1.2 true).1.2 b
          = stopped.1.2 b)
  ∧ (∀ a, a ∈ Environment.values stopped.1.1.2 →
          od_mem a (Environment.stop_exceptions
                      (Environment.stop stopped.1.1.2 stopped.1.2 true).1.1.2)
          = true).
Proof.
  intros stopped.
  apply (stop_again_records_failures stopped.1.1.2 stopped.1.2 true Self).
  { reflexivity. }
  intros a Ha. change (a ∈ [0; 1]) in Ha.
  repeat (apply elem_of_cons in Ha as [->|Ha]; [vm_compute; reflexivity |]).
  by apply elem_of_nil in Ha.
Defined.

Lemma started_of_wait_loop (rs : list addr) :
  ∀ (excs : list (addr * Environment.failure)) (σ : store),
    started_of (Environment.start_wait_loop excs σ rs).2 = [].
Proof.
  induction rs as [|a rest IH]; intros excs σ; simpl; [done |].
  destruct (negb _); [apply IH |].
  destruct (od_mem a excs); [done |].
  destruct (Resource.wait (σ a) ResourceStatus.STARTED) as [[e|] r']; [done |].
  specialize (IH excs (<[a := r']> σ)).
  by destruct (Environment.start_wait_loop excs (<[a := r']> σ) rest)
    as [[oe σ'] evs].
Qed.

Lemma started_of_app (evs evs' : list event) :
  started_of (evs ++ evs') = started_of evs ++ started_of evs'.
Proof. unfold started_of. apply omap_app. Qed.

(** X10: [start] is not idempotent.  When the first resource of an
    environment that has a parent is already STARTED, [start] is called on
    this resource alone: the call is refused, the refusal is recorded as
    its start failure, and no other resource is started. *)
Theorem start_again_halts_at_first
    (e : Environment.t) (σ : store) (a : addr) (rest : list addr)
    (p : entity_ref) :
  Environment.parent e = Some p →
  Environment.values e = a :: rest →
  Resource.tag_of (σ a) = ResourceStatus.STARTED →
  started_of (Environment.start e σ).2 = [a]
  ∧ od_get a (Environment.start_exceptions (Environment.start e σ).1.1.2)
    = Some (Resource.name (Resource.cfg (σ a)),
            StatusTransitionException
              ResourceStatus.STARTED ResourceStatus.STARTING false).
Proof.
  intros Hparent Hvalues Ha.
  unfold Environment.start, Environment.logger_debug.
  rewrite Hparent, Hvalues.
  cbn [Environment.start_loop]. rewrite (start_STARTED_refused _ Ha).
  cbv beta iota zeta. cbn [fmap list_fmap].
  pose proof (started_of_wait_loop (a :: rest)
    (od_set a
       (Resource.name (Resource.cfg (σ a)),
        StatusTransitionException ResourceStatus.STARTED
          ResourceStatus.STARTING false)
       (Environment.start_exceptions e)) (<[a := σ a]> σ)) as Hwaits.
  destruct (Environment.start_wait_loop _ _ (a :: rest)) as [[oe σ2] evs2].
  cbn [fst snd Environment.start_exceptions] in *. split.
  - rewrite started_of_app, Hwaits. reflexivity.
  - apply od_get_set.
Qed.

Lemma start_again_halts_at_first_witness :
  started_of (Environment.start Examples.env_abc Examples.store_abc).2 = [0]
  ∧ od_get 0 (Environment.start_exceptions
                (Environment.start Examples.env_abc Examples.store_abc).1.1.2)
    = Some (Resource.name (Resource.cfg (Examples.store_abc 0)),
            StatusTransitionException
              ResourceStatus.STARTED ResourceStatus.STARTING false).
Proof.
  apply (start_again_halts_at_first Examples.env_abc Examples.store_abc 0
           [1; 2] Self).
  - reflexivity.
  - reflexivity.
  - reflexivity.
Defined.

(** ** A start without failure *)

Lemma start_one_exact (r : Resource.t) :
  startable (Resource.tag_of r) → hooks_complete r →
  ∃ t,
    Environment.start_one r
    = (None, Resource.set_tag r t,
       if Resource.async_start (Resource.cfg r) then []
       else [ResourceStatus.STARTED])
    ∧ (t = ResourceStatus.STARTING ∨ t = ResourceStatus.STARTED)
    ∧ (Resource.async_start (Resource.cfg r) = false → t = ResourceStatus.STARTED)
    ∧ (Resource.async_start (Resource.cfg r) = true →
       run_hook ResourceStatus.transitions ResourceStatus.STARTING
         (Resource.starting r) = (None, t)).
Proof.
  intros Hst Hhooks. unfold Environment.start_one.
  destruct (start_returns r Hst Hhooks) as (t & Hstart & Ht).
  assert (Hhook : run_hook ResourceStatus.transitions ResourceStatus.STARTING
                    (Resource.starting r) = (None, t)).
  { revert Hstart. unfold Resource.start, Resource.change.
    rewrite (change_to_STARTING _ Hst). cbv beta iota.
    change (Resource.starting (Resource.set_tag r ResourceStatus.STARTING))
      with (Resource.starting r).
    rewrite call_hook_set_tag.
    destruct (run_hook _ _ _) as [oe t']. cbn [fst snd].
    intros [= -> Heq]. by rewrite Heq. }
  rewrite Hstart.
  change (Resource.async_start (Resource.cfg (Resource.set_tag r t)))
    with (Resource.async_start (Resource.cfg r)).
  destruct (Resource.async_start (Resource.cfg r)).
  - exists t. split_and!; done.
  - rewrite wait_STARTED_returns by exact Ht.
    exists ResourceStatus.STARTED. split_and!; [done | by right | done | done].
Qed.

Lemma start_loop_success (rs : list addr) :
  ∀ (excs : list (addr * Environment.failure)) (σ : store),
    NoDup rs →
    (∀ a, a ∈ rs → startable (Resource.tag_of (σ a)) ∧ hooks_complete (σ a)) →
    (Environment.start_loop None excs σ rs).1.1 = excs
    ∧ (Environment.start_loop None excs σ rs).2 = concat (start_events σ <$> rs)
    ∧ ∀ b,
        (b ∈ rs →
         ∃ t, (Environment.start_loop None excs σ rs).1.2 b = Resource.set_tag (σ b) t
              ∧ (t = ResourceStatus.STARTING ∨ t = ResourceStatus.STARTED)
              ∧ (Resource.async_start (Resource.cfg (σ b)) = false →
                 t = ResourceStatus.STARTED)
              ∧ (Resource.async_start (Resource.cfg (σ b)) = true →
                 run_hook ResourceStatus.transitions ResourceStatus.STARTING
                   (Resource.starting (σ b)) = (None, t)))
        ∧ (b ∉ rs → (Environment.start_loop None excs σ rs).1.2 b = σ b).
Proof.
  induction rs as [|a rest IH]; intros excs σ Hnd Hall.
  { simpl. split_and!; try done. intros b. split; [| done].
    intros Hb. by apply elem_of_nil in Hb. }
  apply list.NoDup_cons in Hnd as [Ha Hnd].
  destruct (Hall a) as [Hst Hhooks]; [by left |].
  destruct (start_one_exact (σ a) Hst Hhooks) as (t & Hone & Ht & Hsync & Hasync).
  cbn [Environment.start_loop]. rewrite Hone. cbv beta iota zeta.
  set (σ1 := <[a := Resource.set_tag (σ a) t]> σ).
  assert (Hσ1 : ∀ b, b ≠ a → σ1 b = σ b).
  { intros b Hb. unfold σ1. by rewrite fn_lookup_insert_ne. }
  destruct (IH excs σ1 Hnd) as (Hexcs & Hev & Hstore).
  { intros b Hb. rewrite Hσ1 by (intros ->; done). apply Hall. by right. }
  destruct (Environment.start_loop None excs σ1 rest) as [[excs' σ'] evs'].
  cbn [fst snd] in *. split_and!.
  - done.
  - rewrite fmap_cons. cbn [concat]. rewrite Hev. unfold start_events at 2.
    f_equal.
    + by destruct (Resource.async_start _).
    + f_equal. apply list_fmap_ext. intros i b Hb. unfold start_events.
      apply list_elem_of_lookup_2 in Hb.
      rewrite Hσ1; [done | intros ->; done].
  - intros b. destruct (Hstore b) as [Hin Hout]. split.
    + intros Hb. destruct (decide (b = a)) as [->|Hne].
      * exists t. rewrite (Hout Ha). unfold σ1. rewrite fn_lookup_insert.
        split_and!; done.
      * apply elem_of_cons in Hb as [?|Hb]; [done |].
        destruct (Hin Hb) as (t' & Hσ' & Ht').
        exists t'. by rewrite (Hσ1 _ Hne) in Hσ', Ht'.
    + intros Hb. apply not_elem_of_cons in Hb as [Hne Hb].
      by rewrite (Hout Hb), Hσ1.
Qed.

Lemma list_filter_iff_elem {A} (P1 P2 : A → Prop)
    `{!∀ x, Decision (P1 x), !∀ x, Decision (P2 x)} (l : list A) :
  (∀ x, x ∈ l → (P1 x ↔ P2 x)) → filter P1 l = filter P2 l.
Proof.
  induction l as [|x l IH]; intros Hiff; [done |].
  assert (Hx : P1 x ↔ P2 x) by (apply Hiff; by left).
  assert (Hl : filter P1 l = filter P2 l).
  { apply IH. intros y Hy. apply Hiff. by right. }
  destruct (decide (P1 x)) as [H1|H1].
  - assert (H2 : P2 x) by (by apply Hx).
    rewrite (filter_cons_True P1) by exact H1.
    rewrite (filter_cons_True P2) by exact H2. by rewrite Hl.
  - assert (H2 : ¬ P2 x) by (intros H2; by apply H1, Hx).
    rewrite (filter_cons_False P1) by exact H1.
    rewrite (filter_cons_False P2) by exact H2. exact Hl.
Qed.

Lemma start_wait_loop_success (rs : list addr) :
  ∀ (excs : list (addr * Environment.failure)) (σ : store),
    NoDup rs →
    (∀ a, a ∈ rs → od_mem a excs = false) →
    (∀ a, a ∈ rs →
          (Resource.tag_of (σ a) = ResourceStatus.STARTING
           ∨ Resource.tag_of (σ a) = ResourceStatus.STARTED)
          ∧ (Resource.async_start (Resource.cfg (σ a)) = false →
             Resource.tag_of (σ a) = ResourceStatus.STARTED)) →
    (Environment.start_wait_loop excs σ rs).1.1 = None
    ∧ (Environment.start_wait_loop excs σ rs).2
      = (λ a, EvWait a ResourceStatus.STARTED) <$> asynchronous σ rs
    ∧ ∀ b,
        (b ∈ rs →
         (Environment.start_wait_loop excs σ rs).1.2 b
         = Resource.set_tag (σ b) ResourceStatus.STARTED)
        ∧ (b ∉ rs → (Environment.start_wait_loop excs σ rs).1.2 b = σ b).
Proof.
  induction rs as [|a rest IH]; intros excs σ Hnd Hfree Hall.
  { simpl. split_and!; try done. intros b. split; [| done].
    intros Hb. by apply elem_of_nil in Hb. }
  apply list.NoDup_cons in Hnd as [Ha Hnd].
  destruct (Hall a) as [Hta Hsync]; [by left |].
  cbn [Environment.start_wait_loop]. unfold asynchronous.
  destruct (Resource.async_start (Resource.cfg (σ a))) eqn:Hasync; cbn [negb].
  - rewrite (Hfree a) by (by left).
    rewrite wait_STARTED_returns by exact Hta.
    set (σ1 := <[a := Resource.set_tag (σ a) ResourceStatus.STARTED]> σ).
    assert (Hσ1 : ∀ b, b ≠ a → σ1 b = σ b).
    { intros b Hb. unfold σ1. by rewrite fn_lookup_insert_ne. }
    destruct (IH excs σ1 Hnd) as (Hoe & Hev & Hstore).
    { intros b Hb. apply Hfree. by right. }
    { intros b Hb. rewrite Hσ1 by (intros ->; done). apply Hall. by right. }
    destruct (Environment.start_wait_loop excs σ1 rest) as [[oe σ'] evs'].
    cbn [fst snd] in *. split_and!.
    + done.
    + rewrite filter_cons_True by done. rewrite fmap_cons, Hev. f_equal.
      f_equal. unfold asynchronous. apply list_filter_iff_elem.
      intros b Hb. rewrite Hσ1; [done | intros ->; done].
    + intros b. destruct (Hstore b) as [Hin Hout]. split.
      * intros Hb. destruct (decide (b = a)) as [->|Hne].
        -- rewrite (Hout Ha). unfold σ1. by rewrite fn_lookup_insert.
        -- apply elem_of_cons in Hb as [?|Hb]; [done |].
           by rewrite (Hin Hb), Hσ1.
      * intros Hb. apply not_elem_of_cons in Hb as [Hne Hb].
        by rewrite (Hout Hb), Hσ1.
  - destruct (IH excs σ Hnd) as (Hoe & Hev & Hstore).
    { intros b Hb. apply Hfree. by right. }
    { intros b Hb. apply Hall. by right. }
    split_and!.
    + done.
    + rewrite filter_cons_False by (by rewrite Hasync). exact Hev.
    + intros b. destruct (Hstore b) as [Hin Hout]. split.
      * intros Hb. destruct (decide (b = a)) as [->|Hne].
        -- rewrite (Hout Ha). rewrite <- (Hsync eq_refl).
           by rewrite set_tag_tag_of.
        -- apply elem_of_cons in Hb as [?|Hb]; [done | by apply Hin].
      * intros Hb. apply not_elem_of_cons in Hb as [Hne Hb]. by apply Hout.
Qed.

(** X11: when the environment has a parent and the resources are distinct,
    fresh or stopped, have hooks that complete normally and no start
    failure recorded, [start] raises nothing and records nothing; it calls
    [start] on the resources in the order in which they were added, waits
    for STARTED on a synchronous resource before it goes on to the next one
    and on the asynchronous ones, in the same order, at the end; every
    resource is STARTED afterwards. *)
Theorem start_without_failure
    (e : Environment.t) (σ : store) (p : entity_ref) :
  Environment.parent e = Some p →
  NoDup (Environment.values e) →
  (∀ a, a ∈ Environment.values e →
        startable (Resource.tag_of (σ a)) ∧ hooks_complete (σ a)
        ∧ od_mem a (Environment.start_exceptions e) = false) →
  (Environment.start e σ).1.1.1 = None
  ∧ (Environment.start e σ).2
    = concat (start_events σ <$> Environment.values e)
      ++ ((λ a, EvWait a ResourceStatus.STARTED)
            <$> asynchronous σ (Environment.values e))
  ∧ (∀ a, a ∈ Environment.values e →
          (Environment.start e σ).1.2 a
          = Resource.set_tag (σ a) ResourceStatus.STARTED)
  ∧ Environment.start_exceptions (Environment.start e σ).1.1.2
    = Environment.start_exceptions e.
Proof.
  intros Hparent Hnd Hall.
  unfold Environment.start, Environment.logger_debug. rewrite Hparent.
  destruct (start_loop_success (Environment.values e)
              (Environment.start_exceptions e) σ Hnd)
    as (Hexcs & Hev1 & Hstore1).
  { intros a Ha. destruct (Hall a Ha) as (? & ? & _). done. }
  destruct (Environment.start_loop None (Environment.start_exceptions e) σ
              (Environment.values e)) as [[excs σ1] evs1].
  cbn [fst snd] in *. subst excs.
  destruct (start_wait_loop_success (Environment.values e)
              (Environment.start_exceptions e) σ1 Hnd)
    as (Hoe & Hev2 & Hstore2).
  { intros a Ha. by destruct (Hall a Ha) as (_ & _ & ?). }
  { intros a Ha. destruct (Hstore1 a) as [Hin _].
    destruct (Hin Ha) as (t & -> & Ht & Hsync & _). done. }
  destruct (Environment.start_wait_loop (Environment.start_exceptions e) σ1
              (Environment.values e)) as [[oe σ2] evs2].
  cbn [fst snd Environment.start_exceptions] in *. split_and!.
  - done.
  - rewrite Hev1, Hev2. f_equal. f_equal. unfold asynchronous.
    apply list_filter_iff_elem. intros a Ha.
    destruct (Hstore1 a) as [Hin _]. by destruct (Hin Ha) as (t & -> & _).
  - intros a Ha. destruct (Hstore2 a) as [Hin2 _]. rewrite (Hin2 Ha).
    destruct (Hstore1 a) as [Hin1 _]. by destruct (Hin1 Ha) as (t & -> & _).
  - done.
Qed.

Lemma start_without_failure_witness :
  (Environment.start Examples.env_pair Examples.store_pair).1.1.1 = None
  ∧ (Environment.start Examples.env_pair Examples.store_pair).2
    = concat (start_events Examples.store_pair
                <$> Environment.values Examples.env_pair)
      ++ ((λ a, EvWait a ResourceStatus.STARTED)
            <$> asynchronous Examples.store_pair
                  (Environment.values Examples.env_pair))
  ∧ (∀ a, a ∈ Environment.values Examples.env_pair →
          (Environment.start Examples.env_pair Examples.store_pair).1.2 a
          = Resource.set_tag (Examples.store_pair a) ResourceStatus.STARTED)
  ∧ Environment.start_exceptions
      (Environment.start Examples.env_pair Examples.store_pair).1.1.2
    = Environment.start_exceptions Examples.env_pair.
Proof.
  apply (start_without_failure Examples.env_pair Examples.store_pair Self).
  - reflexivity.
  - apply (bool_decide_unpack _). vm_compute. exact I.
  - intros a Ha. change (a ∈ [0; 1]) in Ha.
    repeat (apply elem_of_cons in Ha as [->|Ha];
            [split; [by left |];
             split; [| reflexivity];
             split; eexists;
               (split; [vm_compute; reflexivity | first [by left | by right]])
            |]).
    by apply elem_of_nil in Ha.
Defined.

(** X12: a start failure recorded by an earlier pass stays in effect.  When
    the first resource of an environment that has a parent is asynchronous
    and still has a start failure recorded, a later [start] in which
    nothing fails calls [start] on every resource but waits for no
    asynchronous resource: the first resource is left with the tag its
    [starting] hook set, STARTING if the hook relies on the wait. *)
Theorem stale_start_failure_stops_waiting
    (e : Environment.t) (σ : store) (a : addr) (rest : list addr) (t : tag)
    (p : entity_ref) :
  Environment.parent e = Some p →
  Environment.values e = a :: rest →
  NoDup (Environment.values e) →
  (∀ b, b ∈ Environment.values e →
        startable (Resource.tag_of (σ b)) ∧ hooks_complete (σ b)) →
  Resource.async_start (Resource.cfg (σ a)) = true →
  od_mem a (Environment.start_exceptions e) = true →
  run_hook ResourceStatus.transitions ResourceStatus.STARTING
    (Resource.starting (σ a)) = (None, t) →
  (Environment.start e σ).1.1.1 = None
  ∧ (Environment.start e σ).2
    = concat (start_events σ <$> Environment.values e)
  ∧ Resource.tag_of ((Environment.start e σ).1.2 a) = t.
Proof.
  intros Hparent Hvalues Hnd Hall Hasync Hstale Hhook.
  unfold Environment.start, Environment.logger_debug. rewrite Hparent.
  destruct (start_loop_success (Environment.values e)
              (Environment.start_exceptions e) σ Hnd Hall)
    as (Hexcs & Hev1 & Hstore1).
  destruct (Environment.start_loop None (Environment.start_exceptions e) σ
              (Environment.values e)) as [[excs σ1] evs1].
  cbn [fst snd] in *. subst excs.
  destruct (Hstore1 a) as [Hin _].
  destruct Hin as (t' & Ha & _ & _ & Ht'); [rewrite Hvalues; by left |].
  specialize (Ht' Hasync). rewrite Hhook in Ht'. injection Ht' as <-.
  assert (Hwait : Environment.start_wait_loop (Environment.start_exceptions e)
                    σ1 (Environment.values e) = (None, σ1, [])).
  { rewrite Hvalues. cbn [Environment.start_wait_loop]. rewrite Ha.
    change (Resource.async_start (Resource.cfg (Resource.set_tag (σ a) t)))
      with (Resource.async_start (Resource.cfg (σ a))).
    by rewrite Hasync, Hstale. }
  rewrite Hwait. cbn [fst snd].
  split_and!; [done | by rewrite Hev1, app_nil_r | by rewrite Ha].
Qed.

Lemma stale_start_failure_stops_waiting_witness :
  (Environment.start env_stale store_stale).1.1.1 = None
  ∧ (Environment.start env_stale store_stale).2
    = concat (start_events store_stale <$> Environment.values env_stale)
  ∧ Resource.tag_of ((Environment.start env_stale store_stale).1.2 0)
    = ResourceStatus.STARTING.
Proof.
  apply (stale_start_failure_stops_waiting env_stale store_stale 0 [1]
           ResourceStatus.STARTING Self).
  - reflexivity.
  - reflexivity.
  - apply (bool_decide_unpack _). vm_compute. exact I.
  - intros b Hb. change (b ∈ [0; 1]) in Hb.
    repeat (apply elem_of_cons in Hb as [->|Hb];
            [split; [by right |];
             split; eexists;
               (split; [vm_compute; reflexivity | first [by left | by right]])
            |]).
    by apply elem_of_nil in Hb.
  - reflexivity.
  - reflexivity.
  - vm_compute. reflexivity.
Defined.

(** ** The step loop: skipped steps, pauses and aborts *)

Lemma run_loop_skips_aux (m : Runnable.methods) (q : list Runnable.step) :
  ∀ (c : Runnable.core) (fuel : nat),
    Runnable.active c = true →
    Runnable.tag_of c = RunnableStatus.RUNNING →
    Forall quiet (filter (λ s, Runnable.skip_step m s = false) q) →
    length q < fuel →
    Runnable._run_loop m fuel (Runnable.mk c q)
    = Some (None,
            Runnable.mk
              (Runnable.set_tag
                 (foldl (λ c s, Runnable._execute_step s c) c
                    (filter (λ s, Runnable.skip_step m s = false) q))
                 RunnableStatus.FINISHED)
              []).
Proof.
  induction q as [|s q IH]; intros c fuel Hact Htag Hquiet Hfuel;
    (destruct fuel as [|fuel]; [simpl in Hfuel; lia |]);
    cbn [Runnable._run_loop Runnable.state Runnable._steps];
    rewrite Hact, Htag; simpl negb; cbv iota;
    (rewrite decide_True by reflexivity).
  - reflexivity.
  - destruct (Runnable.skip_step m s) eqn:Hskip.
    + rewrite filter_cons_False in Hquiet |- * by (by rewrite Hskip).
      apply IH; [done | done | done | simpl in Hfuel; lia].
    + rewrite filter_cons_True in Hquiet |- * by done.
      inversion Hquiet as [|? ? Hs Hquiet']; subst.
      destruct (execute_step_quiet s c Hs) as [Ha Ht].
      cbn [foldl].
      apply IH; [congruence | congruence | done | simpl in Hfuel; lia].
Qed.

(** X13: a step for which [skip_step] answers true is taken from the queue
    without being executed: the loop executes the other steps in queue
    order, empties the queue and reaches FINISHED; a skipped step gets no
    entry in the results. *)
Theorem run_loop_skips_steps
    (m : Runnable.methods) (q : list Runnable.step)
    (c : Runnable.core) (fuel : nat) :
  Runnable.active c = true →
  Runnable.tag_of c = RunnableStatus.RUNNING →
  Forall quiet (filter (λ s, Runnable.skip_step m s = false) q) →
  length q < fuel →
  Runnable._run_loop m fuel (Runnable.mk c q)
  = Some (None,
          Runnable.mk
            (Runnable.set_tag
               (foldl (λ c s, Runnable._execute_step s c) c
                  (filter (λ s, Runnable.skip_step m s = false) q))
               RunnableStatus.FINISHED)
            []).
Proof. intros. by apply run_loop_skips_aux. Qed.

Lemma run_loop_skips_steps_witness :
  ∃ r',
    Runnable._run_loop skipping_s1 3
      (Runnable.mk Examples.running [Examples.s1; Examples.s2])
    = Some (None, r')
    ∧ Runnable.step_results (Runnable.state r') = [("s2", VBool true)]
    ∧ Runnable.trace (Runnable.state r') = [EvStep "s2"]
    ∧ Runnable.tag_of (Runnable.state r') = RunnableStatus.FINISHED.
Proof.
  eexists. split.
  - apply (run_loop_skips_steps skipping_s1 [Examples.s1; Examples.s2]
             Examples.running 3).
    + reflexivity.
    + reflexivity.
    + repeat constructor.
    + simpl. lia.
  - split_and!; vm_compute; reflexivity.
Defined.

Lemma run_loop_prefix (m : Runnable.methods) (pre : list Runnable.step) :
  ∀ (c : Runnable.core) (rest : list Runnable.step) (fuel : nat),
    Runnable.active c = true →
    Runnable.tag_of c = RunnableStatus.RUNNING →
    Forall quiet pre →
    Forall (λ s, Runnable.skip_step m s = false) pre →
    Runnable._run_loop m (length pre + fuel) (Runnable.mk c (pre ++ rest))
    = Runnable._run_loop m fuel
        (Runnable.mk (foldl (λ c s, Runnable._execute_step s c) c pre) rest).
Proof.
  induction pre as [|s pre IH]; intros c rest fuel Hact Htag Hquiet Hskip;
    [done |].
  inversion Hquiet as [|? ? Hs Hquiet']; subst.
  inversion Hskip as [|? ? Hsk Hskip']; subst.
  cbn [length Nat.add app Runnable._run_loop Runnable.state Runnable._steps].
  rewrite Hact, Htag. simpl negb. cbv iota.
  rewrite decide_True by reflexivity. rewrite Hsk.
  destruct (execute_step_quiet s c Hs) as [Ha Ht].
  cbn [foldl]. apply IH; [congruence | congruence | done | done].
Qed.

Lemma foldl_quiet (pre : list Runnable.step) :
  ∀ c : Runnable.core,
    Runnable.active c = true →
    Runnable.tag_of c = RunnableStatus.RUNNING →
    Forall quiet pre →
    Runnable.active (foldl (λ c s, Runnable._execute_step s c) c pre) = true
    ∧ Runnable.tag_of (foldl (λ c s, Runnable._execute_step s c) c pre)
      = RunnableStatus.RUNNING.
Proof.
  induction pre as [|s pre IH]; intros c Hact Htag Hquiet; [done |].
  inversion Hquiet as [|? ? Hs Hquiet']; subst.
  cbn [foldl]. destruct (execute_step_quiet s c Hs) as [Ha Ht].
  apply IH; [congruence | congruence | done].
Qed.

(** X15: an abort requested while a step runs takes effect when that step
    is over: the step is completed and its result recorded, the steps
    behind it stay in the queue, none of them is executed, and the loop ends
    without setting the status to FINISHED. *)
Theorem abort_stops_loop_after_current_step
    (m : Runnable.methods) (pre post : list Runnable.step) (s : Runnable.step)
    (c : Runnable.core) (fuel : nat) :
  Runnable.active c = true →
  Runnable.tag_of c = RunnableStatus.RUNNING →
  Forall quiet pre →
  Forall (λ s, Runnable.skip_step m s = false) (pre ++ [s]) →
  (∀ c', Runnable.active (Runnable.step_call s c').2 = false) →
  length pre + 1 < fuel →
  Runnable._run_loop m fuel (Runnable.mk c (pre ++ s :: post))
  = Some (None,
          Runnable.mk
            (foldl (λ c s, Runnable._execute_step s c) c (pre ++ [s]))
            post).
Proof.
  intros Hact Htag Hquiet Hskip Haborts Hfuel.
  apply Forall_app in Hskip as [Hskip Hs].
  inversion Hs as [|? ? Hsk _]; subst.
  replace fuel with (length pre + S (S (fuel - length pre - 2))) by lia.
  rewrite run_loop_prefix by done.
  set (c1 := foldl (λ c s, Runnable._execute_step s c) c pre).
  assert (Hc1 : Runnable.active c1 = true ∧ Runnable.tag_of c1 = RunnableStatus.RUNNING).
  { subst c1. by apply foldl_quiet. }
  destruct Hc1 as [Hact1 Htag1].
  cbn [Runnable._run_loop Runnable.state Runnable._steps].
  rewrite Hact1, Htag1. simpl negb. cbv iota.
  rewrite decide_True by reflexivity. rewrite Hsk.
  assert (Hdead : Runnable.active (Runnable._execute_step s c1) = false).
  { unfold Runnable._execute_step.
    specialize (Haborts (Runnable.log c1 [EvStep (Runnable.step_name s)])).
    by destruct (Runnable.step_call s _) as [outcome c']. }
  rewrite Hdead. simpl negb. cbv iota.
  by rewrite foldl_app.
Qed.

Lemma abort_stops_loop_after_current_step_witness :
  ∃ r',
    Runnable._run_loop Runnable.base 5
      (Runnable.mk Examples.running
         ([Examples.s1] ++ aborting_step "interrupted" :: [Examples.s2]))
    = Some (None, r')
    ∧ Runnable.step_results (Runnable.state r')
      = [("s1", VExc (UserException "s1 failed")); ("interrupted", VNone)]
    ∧ Runnable.step_name <$> Runnable._steps r' = ["s2"]
    ∧ Runnable.tag_of (Runnable.state r') = RunnableStatus.RUNNING.
Proof.
  eexists. split.
  - apply (abort_stops_loop_after_current_step Runnable.base
             [Examples.s1] [Examples.s2] (aborting_step "interrupted")
             Examples.running 5).
    + reflexivity.
    + reflexivity.
    + repeat constructor.
    + repeat constructor.
    + intros c'. reflexivity.
    + simpl. lia.
  - split_and!; vm_compute; reflexivity.
Defined.

(** ** Running after an abort, running while paused, steps that share a name *)

Lemma queue_of_run (m : Runnable.methods) (q : list Runnable.step) :
  ((((q ++ [Runnable.setup_step m]) ++ Runnable.pre_resource_steps m)
      ++ [Runnable.resources_start]) ++ Runnable.main_batch_steps m)
    ++ [Runnable.resources_stop true] ++ Runnable.post_resource_steps m
  = q ++ pipeline m.
Proof. unfold pipeline. by rewrite <- !app_assoc. Qed.

(** X16: [run()] on a runnable that has been aborted executes no step.
    The status is set to RUNNING, the loop ends at its first test, every
    step stays in the queue, teardown included, and the run is recorded as
    failed. *)
Theorem run_after_abort_executes_nothing
    (m : Runnable.methods) (c : Runnable.core) (q : list Runnable.step)
    (fuel : nat) :
  Runnable.interactive (Runnable.cfg c) = false →
  Runnable.active c = false →
  Runnable.tag_of c = RunnableStatus.NONE
  ∨ Runnable.tag_of c = RunnableStatus.FINISHED →
  0 < fuel →
  Runnable.run m fuel (Runnable.mk c q)
  = Some (Runnable.mk
            (Runnable.set_run (Runnable.set_tag c RunnableStatus.RUNNING)
               (VBool false))
            (q ++ pipeline m ++ [Runnable.teardown_step m])).
Proof.
  intros Hint Hact Htag Hfuel.
  destruct fuel as [|fuel]; [lia |].
  unfold Runnable.run, Runnable._run_batch_steps, Runnable._run,
    Runnable._add_step, Runnable.add_steps.
  cbn [Runnable.state Runnable._steps]. rewrite Hint.
  rewrite (change_to_RUNNING _ Htag).
  cbn [Runnable._run_loop Runnable.state Runnable._steps].
  change (Runnable.active (Runnable.set_tag c RunnableStatus.RUNNING))
    with (Runnable.active c).
  rewrite Hact. cbn [negb Runnable.state Runnable._steps].
  change (Runnable.tag_of (Runnable.set_tag c RunnableStatus.RUNNING))
    with RunnableStatus.RUNNING.
  rewrite bool_decide_false by discriminate. cbn [andb].
  unfold pipeline.
  do 4 (rewrite <- ?app_assoc; cbn [app]). reflexivity.
Qed.

Lemma run_after_abort_executes_nothing_witness :
  ∃ c,
    (Runnable.abort Runnable.base
       (Runnable.state (Runnable.init (Runnable.Config false 30) 0
                          Examples.empty_store))).2 = c
    ∧ Runnable.run Runnable.base 10 (Runnable.mk c [])
      = Some (Runnable.mk
                (Runnable.set_run (Runnable.set_tag c RunnableStatus.RUNNING)
                   (VBool false))
                ([] ++ pipeline Runnable.base
                    ++ [Runnable.teardown_step Runnable.base])).
Proof.
  eexists. split; [reflexivity |].
  apply (run_after_abort_executes_nothing Runnable.base _ [] 10).
  - reflexivity.
  - reflexivity.
  - left. reflexivity.
  - lia.
Defined.

(** X17: [run()] on a runnable that is pausing or paused is refused: the
    [StatusTransitionException] of the change to RUNNING becomes the result
    of the run, no step is executed, the status is left as it was, and the
    steps [run()] had added stay in the queue, without teardown. *)
Theorem run_refused_while_paused
    (m : Runnable.methods) (c : Runnable.core) (q : list Runnable.step)
    (fuel : nat) :
  Runnable.interactive (Runnable.cfg c) = false →
  Runnable.tag_of c = RunnableStatus.PAUSING
  ∨ Runnable.tag_of c = RunnableStatus.PAUSED →
  Runnable.run m fuel (Runnable.mk c q)
  = Some (Runnable.mk
            (Runnable.set_run c
               (VExc (StatusTransitionException (Runnable.tag_of c)
                        RunnableStatus.RUNNING false)))
            (q ++ pipeline m)).
Proof.
  intros Hint Htag.
  unfold Runnable.run, Runnable._run_batch_steps, Runnable._run,
    Runnable._add_step, Runnable.add_steps.
  cbn [Runnable.state Runnable._steps]. rewrite Hint.
  assert (Hch : EntityStatus.change RunnableStatus.transitions
                  (Runnable.tag_of c) RunnableStatus.RUNNING
                = inl (StatusTransitionException (Runnable.tag_of c)
                         RunnableStatus.RUNNING false)).
  { destruct Htag as [-> | ->]; vm_compute; reflexivity. }
  rewrite Hch. cbn [Runnable.state Runnable._steps].
  unfold pipeline.
  do 4 (rewrite <- ?app_assoc; cbn [app]). reflexivity.
Qed.

Lemma run_refused_while_paused_witness :
  Runnable.run Runnable.base 10
    (Runnable.mk (Runnable.set_tag Examples.running RunnableStatus.PAUSED) [])
  = Some (Runnable.mk
            (Runnable.set_run
               (Runnable.set_tag Examples.running RunnableStatus.PAUSED)
               (VExc (StatusTransitionException RunnableStatus.PAUSED
                        RunnableStatus.RUNNING false)))
            ([] ++ pipeline Runnable.base)).
Proof.
  apply (run_refused_while_paused Runnable.base
           (Runnable.set_tag Examples.running RunnableStatus.PAUSED) [] 10).
  - reflexivity.
  - right. reflexivity.
Defined.

Lemma od_set_present {K V} `{EqDecision K} (k : K) (v : V) (d : list (K * V)) :
  is_Some (od_get k d) → (od_set k v d).*1 = d.*1.
Proof.
  induction d as [|[k' v'] d IH]; cbn [od_get od_set].
  - by intros [? ?].
  - destruct (decide (k' = k)) as [-> |]; [done |].
    intros Hd. cbn [fmap list_fmap fst]. f_equal. by apply IH.
Qed.

Lemma execute_step_results (s : Runnable.step) (c : Runnable.core) :
  Runnable.step_results (Runnable._execute_step s c)
  = od_set (Runnable.step_name s) (result_of s c)
      (Runnable.step_results
         (Runnable.step_call s
            (Runnable.log c [EvStep (Runnable.step_name s)])).2).
Proof.
  unfold Runnable._execute_step, result_of.
  by destruct (Runnable.step_call s _) as [[e | v] c'].
Qed.

(** X18: the results are kept by step name: when two executed steps have
    the same name, the later result replaces the earlier one, in the
    position of the earlier one, and no second entry is made.  An exception
    of the earlier step is lost to [run_result]. *)
Theorem same_name_step_overwrites_result
    (s s' : Runnable.step) (c : Runnable.core) :
  Runnable.step_name s' = Runnable.step_name s →
  (∀ c0, Runnable.step_results (Runnable.step_call s' c0).2
         = Runnable.step_results c0) →
  od_get (Runnable.step_name s)
    (Runnable.step_results
       (Runnable._execute_step s' (Runnable._execute_step s c)))
  = Some (result_of s' (Runnable._execute_step s c))
  ∧ (Runnable.step_results
       (Runnable._execute_step s' (Runnable._execute_step s c))).*1
    = (Runnable.step_results (Runnable._execute_step s c)).*1.
Proof.
  intros Hname Hkeeps.
  rewrite (execute_step_results s'), Hkeeps, Hname.
  change (Runnable.step_results
            (Runnable.log (Runnable._execute_step s c)
               [EvStep (Runnable.step_name s)]))
    with (Runnable.step_results (Runnable._execute_step s c)).
  split.
  - by rewrite od_get_set.
  - apply od_set_present.
    rewrite (execute_step_results s), od_get_set. by eexists.
Qed.

Lemma same_name_step_overwrites_result_witness :
  Runnable.step_results
    (Runnable._execute_step check_returns
       (Runnable._execute_step check_raises Examples.running))
  = [("check", VBool true)]
  ∧ Runnable.run_result
      (Runnable._execute_step check_raises Examples.running) = false
  ∧ Runnable.run_result
      (Runnable._execute_step check_returns
         (Runnable._execute_step check_raises Examples.running)) = true
  ∧ od_get "check"
      (Runnable.step_results
         (Runnable._execute_step check_returns
            (Runnable._execute_step check_raises Examples.running)))
    = Some (VBool true).
Proof.
  split_and!; [vm_compute; reflexivity .. |].
  apply (same_name_step_overwrites_result check_raises check_returns
           Examples.running).
  - reflexivity.
  - intros c0. reflexivity.
Defined.


(** ** Restarting a resource and using it in a [with] block *)

Section further_operations_of_a_resource.

Import ResourceStatus.

(** X19: [restart] on a resource that is starting or started, whose hooks
    complete normally, stops it and starts it again: it returns without
    raising and leaves the resource STARTED, nothing else of it changed. *)
Theorem restart_returns_started (r : Resource.t) :
  Resource.tag_of r = STARTING ∨ Resource.tag_of r = STARTED →
  hooks_complete r →
  Resource_restart r = (None, Resource.set_tag r STARTED).
Proof.
  intros Htag Hhooks. unfold Resource_restart.
  destruct (stop_returns r Htag Hhooks) as (t1 & -> & Ht1).
  unfold Resource.change at 1.
  change (Resource.tag_of (Resource.set_tag r t1)) with t1.
  rewrite (change_to_STOPPED _ Ht1).
  change (Resource.set_tag (Resource.set_tag r t1) STOPPED)
    with (Resource.set_tag r STOPPED).
  destruct (start_returns (Resource.set_tag r STOPPED)) as (t2 & Hstart & Ht2);
    [by right | exact Hhooks |].
  rewrite Hstart.
  change (Resource.set_tag (Resource.set_tag r STOPPED) t2)
    with (Resource.set_tag r t2).
  unfold Resource.change.
  change (Resource.tag_of (Resource.set_tag r t2)) with t2.
  by rewrite (change_to_STARTED _ Ht2).
Qed.

Lemma restart_returns_started_witness :
  let r := Examples.started
             (Examples.resource "A" true Examples.returns Examples.returns
                Examples.returns) in
  Resource_restart r = (None, Resource.set_tag r STARTED).
Proof.
  apply (restart_returns_started
           (Examples.started
              (Examples.resource "A" true Examples.returns Examples.returns
                 Examples.returns))).
  - right. reflexivity.
  - split; eexists; (split; [reflexivity | by left]).
Defined.

(** X20: [restart] does not start a resource that is not running.  On a
    fresh or stopped resource the change to STOPPING is refused:
    [restart] raises [StatusTransitionException] before any hook is called
    and the resource is left as it was. *)
Theorem restart_refused_when_not_running (r : Resource.t) :
  startable (Resource.tag_of r) →
  Resource_restart r
  = (Some (StatusTransitionException (Resource.tag_of r) STOPPING false), r).
Proof.
  intros Htag. unfold Resource_restart, Resource.stop, Resource.change.
  assert (Hch : EntityStatus.change transitions (Resource.tag_of r) STOPPING
                = inl (StatusTransitionException (Resource.tag_of r)
                         STOPPING false)).
  { destruct Htag as [-> | ->]; vm_compute; reflexivity. }
  by rewrite Hch.
Qed.

Lemma restart_refused_when_not_running_witness :
  Resource_restart
    (Examples.resource "A" true Examples.returns Examples.returns
       Examples.returns)
  = (Some (StatusTransitionException NONE STOPPING false),
     Examples.resource "A" true Examples.returns Examples.returns
       Examples.returns).
Proof.
  apply (restart_refused_when_not_running
           (Examples.resource "A" true Examples.returns Examples.returns
              Examples.returns)).
  left. reflexivity.
Defined.

(** X21: a [with] block on a resource that is fresh or stopped and whose
    hooks complete normally: entering leaves it STARTED, leaving leaves it
    STOPPED, neither raises, and the resource can be entered again. *)
Theorem with_block_round_trip (r : Resource.t) :
  startable (Resource.tag_of r) →
  hooks_complete r →
  Resource_enter r = (None, Resource.set_tag r STARTED)
  ∧ Resource_exit (Resource.set_tag r STARTED)
    = (None, Resource.set_tag r STOPPED)
  ∧ Resource_enter (Resource.set_tag r STOPPED)
    = (None, Resource.set_tag r STARTED).
Proof.
  intros Htag Hhooks.
  assert (Henter : ∀ r', startable (Resource.tag_of r') → hooks_complete r' →
            Resource_enter r' = (None, Resource.set_tag r' STARTED)).
  { intros r' Hst Hh. unfold Resource_enter.
    destruct (start_returns r' Hst Hh) as (t & -> & Ht).
    by rewrite wait_STARTED_returns. }
  split_and!.
  - by apply Henter.
  - unfold Resource_exit.
    destruct (stop_returns (Resource.set_tag r STARTED)) as (t & Hstop & Ht);
      [by right | exact Hhooks |].
    rewrite Hstop. by rewrite wait_STOPPED_returns.
  - apply (Henter (Resource.set_tag r STOPPED)); [by right | exact Hhooks].
Qed.

Lemma with_block_round_trip_witness :
  let r := Examples.resource "A" true Examples.returns Examples.returns
             Examples.returns in
  Resource_enter r = (None, Resource.set_tag r STARTED)
  ∧ Resource_exit (Resource.set_tag r STARTED)
    = (None, Resource.set_tag r STOPPED)
  ∧ Resource_enter (Resource.set_tag r STOPPED)
    = (None, Resource.set_tag r STARTED).
Proof.
  apply (with_block_round_trip
           (Examples.resource "A" true Examples.returns Examples.returns
              Examples.returns)).
  - left. reflexivity.
  - split; eexists; (split; [reflexivity | by left]).
Defined.

End further_operations_of_a_resource.


(** ** Pausing and resuming a runnable *)

Section pausing_and_resuming.

Import ResourceStatus.

Lemma for_each_success
    (f : addr → Resource.t → option exn * Resource.t) (new : tag)
    (rs : list addr) :
  ∀ σ : store,
    NoDup rs →
    (∀ a, a ∈ rs → f a (σ a) = (None, Resource.set_tag (σ a) new)) →
    ∃ σ', for_each f σ rs = (None, σ')
          ∧ (∀ b, b ∈ rs → σ' b = Resource.set_tag (σ b) new)
          ∧ (∀ b, b ∉ rs → σ' b = σ b).
Proof.
  induction rs as [|a rs IH]; intros σ Hnd Hf.
  - exists σ. split_and!; [done | | done]. intros b Hb. by apply elem_of_nil in Hb.
  - apply list.NoDup_cons in Hnd as [Ha Hnd].
    cbn [for_each]. rewrite (Hf a) by (apply elem_of_cons; by left).
    destruct (IH (<[a := Resource.set_tag (σ a) new]> σ) Hnd) as (σ' & Hrun & Hin & Hout).
    { intros b Hb. assert (b ≠ a) by (intros ->; done).
      rewrite fn_lookup_insert_ne by done.
      apply Hf. apply elem_of_cons. by right. }
    exists σ'. split_and!; [done | |].
    + intros b [-> | Hb]%elem_of_cons.
      * rewrite (Hout a Ha). by rewrite fn_lookup_insert.
      * assert (b ≠ a) by (intros ->; done).
        rewrite (Hin b Hb). by rewrite fn_lookup_insert_ne.
    + intros b Hb. apply not_elem_of_cons in Hb as [Hne Hb].
      rewrite (Hout b Hb). by rewrite fn_lookup_insert_ne.
Qed.

Lemma pause_one (h : pause_hooks) (r : Resource.t) :
  Resource.tag_of r = STARTED →
  run_hook transitions PAUSING (pausing h) = (None, PAUSED) →
  Resource_pause h r = (None, Resource.set_tag r PAUSED).
Proof.
  intros Htag Hhook. unfold Resource_pause, Resource.change. rewrite Htag.
  change (EntityStatus.change transitions STARTED PAUSING) with (inr (A := exn) PAUSING).
  cbv beta iota. by rewrite call_hook_set_tag, Hhook.
Qed.

Lemma resume_one (h : pause_hooks) (r : Resource.t) :
  Resource.tag_of r = PAUSED →
  run_hook transitions RESUMING (resuming h) = (None, STARTED) →
  Resource_resume h r = (None, Resource.set_tag r STARTED).
Proof.
  intros Htag Hhook. unfold Resource_resume, Resource.change. rewrite Htag.
  change (EntityStatus.change transitions PAUSED RESUMING) with (inr (A := exn) RESUMING).
  cbv beta iota. by rewrite call_hook_set_tag, Hhook.
Qed.

(** X22: pausing and then resuming a running runnable is a round trip when
    its resources are distinct and started, their [pausing] hooks set PAUSED
    and their [resuming] hooks set STARTED.  [pause] returns with the
    runnable and every resource PAUSED; [resume] then returns with the
    runnable RUNNING and every resource as it was before the pause. *)
Theorem pause_then_resume_round_trip
    (hooks : addr → pause_hooks) (c : Runnable.core) :
  Runnable.tag_of c = RunnableStatus.RUNNING →
  NoDup (Environment.values (Runnable._environment c)) →
  (∀ a, a ∈ Environment.values (Runnable._environment c) →
        Resource.tag_of (Runnable.objects c a) = STARTED
        ∧ run_hook transitions PAUSING (pausing (hooks a)) = (None, PAUSED)
        ∧ run_hook transitions RESUMING (resuming (hooks a)) = (None, STARTED)) →
  ∃ c1 c2,
    Runnable_pause hooks c = (None, c1)
    ∧ Runnable.tag_of c1 = RunnableStatus.PAUSED
    ∧ (∀ a, a ∈ Environment.values (Runnable._environment c) →
            Resource.tag_of (Runnable.objects c1 a) = PAUSED)
    ∧ Runnable_resume hooks c1 = (None, c2)
    ∧ Runnable.tag_of c2 = RunnableStatus.RUNNING
    ∧ Runnable._environment c2 = Runnable._environment c
    ∧ (∀ b, Runnable.objects c2 b = Runnable.objects c b).
Proof.
  intros Htag Hnd Hres.
  set (rs := Environment.values (Runnable._environment c)) in *.
  destruct (for_each_success (λ a, Resource_pause (hooks a)) PAUSED rs
              (Runnable.objects c) Hnd) as (σ1 & Hrun1 & Hin1 & Hout1).
  { intros a Ha. destruct (Hres a Ha) as (Ht & Hp & _). by apply pause_one. }
  destruct (for_each_success (λ a, Resource_resume (hooks a)) STARTED rs
              σ1 Hnd) as (σ2 & Hrun2 & Hin2 & Hout2).
  { intros a Ha. destruct (Hres a Ha) as (Ht & _ & Hr).
    apply resume_one; [by rewrite (Hin1 a Ha) | done]. }
  eexists _, _. split_and!.
  - unfold Runnable_pause. rewrite Htag.
    change (EntityStatus.change RunnableStatus.transitions
              RunnableStatus.RUNNING RunnableStatus.PAUSING)
      with (inr (A := exn) RunnableStatus.PAUSING).
    cbv beta iota. unfold Runnable_pausing.
    cbn [Runnable.set_tag Runnable.objects Runnable._environment].
    fold rs. rewrite Hrun1. cbv beta iota zeta.
    reflexivity.
  - reflexivity.
  - intros a Ha. cbn [Runnable.objects Runnable.set_tag Runnable.set_resources].
    by rewrite (Hin1 a Ha).
  - unfold Runnable_resume.
    cbn [Runnable.tag_of Runnable.set_tag Runnable._status EntityStatus._current].
    change (EntityStatus.change RunnableStatus.transitions
              RunnableStatus.PAUSED RunnableStatus.RESUMING)
      with (inr (A := exn) RunnableStatus.RESUMING).
    cbv beta iota. unfold Runnable_resuming.
    cbn [Runnable.set_tag Runnable.objects Runnable._environment
         Runnable.set_resources].
    fold rs. rewrite Hrun2. cbv beta iota zeta.
    reflexivity.
  - reflexivity.
  - reflexivity.
  - intros b. cbn [Runnable.objects Runnable.set_tag Runnable.set_resources].
    destruct (decide (b ∈ rs)) as [Hb | Hb].
    + rewrite (Hin2 b Hb), (Hin1 b Hb).
      destruct (Hres b Hb) as (Ht & _ & _).
      change (Resource.set_tag (Runnable.objects c b) STARTED
              = Runnable.objects c b).
      rewrite <- Ht. apply set_tag_tag_of.
    + by rewrite (Hout2 b Hb), (Hout1 b Hb).
Qed.

Lemma pause_then_resume_round_trip_witness :
  ∃ c1 c2,
    Runnable_pause (λ _, pausable) running_pair = (None, c1)
    ∧ Runnable.tag_of c1 = RunnableStatus.PAUSED
    ∧ (∀ a, a ∈ Environment.values (Runnable._environment running_pair) →
            Resource.tag_of (Runnable.objects c1 a) = PAUSED)
    ∧ Runnable_resume (λ _, pausable) c1 = (None, c2)
    ∧ Runnable.tag_of c2 = RunnableStatus.RUNNING
    ∧ Runnable._environment c2 = Runnable._environment running_pair
    ∧ (∀ b, Runnable.objects c2 b = Runnable.objects running_pair b).
Proof.
  apply (pause_then_resume_round_trip (λ _, pausable) running_pair).
  - reflexivity.
  - apply (bool_decide_unpack _). vm_compute. exact I.
  - intros a Ha. change (a ∈ [0; 1]) in Ha.
    apply elem_of_cons in Ha as [-> | Ha];
      [| apply list_elem_of_singleton in Ha as ->];
      (split_and!; vm_compute; reflexivity).
Defined.



End pausing_and_resuming.


(** ** Groups of entries *)

Section groups_of_entries.

Import Entries.

Lemma entry_induction (P : entry → Prop) :
  (∀ b, P (Plain b)) →
  (∀ es d, Forall P es → P (Group es d)) →
  (∀ es d, P (Summary es d)) →
  ∀ e, P e.
Proof.
  intros HP HG HS. fix IH 1. intros [b | es d | es d].
  - apply HP.
  - apply HG. induction es as [|e es IHes]; constructor; [apply IH | apply IHes].
  - apply HS.
Qed.

Lemma truth_of_group (es : list entry) (d : option string) :
  truth (Group es d) = forallb truth es.
Proof. by destruct es. Qed.

Lemma forallb_concat_map (f : entry → list entry) (es : list entry) :
  Forall (λ e, forallb truth (f e) = truth e) es →
  forallb truth (concat (map f es)) = forallb truth es.
Proof.
  induction 1 as [|e es He _ IH]; [done |].
  cbn [map concat forallb]. rewrite forallb_app. by rewrite He, IH.
Qed.

Lemma flatten_item_truth (e : entry) :
  forallb truth (flatten_item e) = truth e.
Proof.
  induction e as [b | es d IH | es d] using entry_induction.
  - cbn [flatten_item forallb]. by rewrite andb_true_r.
  - rewrite truth_of_group. cbn [flatten_item]. by apply forallb_concat_map.
  - cbn [flatten_item forallb]. by rewrite andb_true_r.
Qed.

Lemma flatten_item_no_group (e : entry) :
  Forall (λ e', is_plain_group e' = false) (flatten_item e).
Proof.
  induction e as [b | es d IH | es d] using entry_induction.
  - by repeat constructor.
  - cbn [flatten_item]. induction IH as [|e es He _ IHes]; [constructor |].
    cbn [map concat]. apply Forall_app. by split.
  - by repeat constructor.
Qed.

Lemma flatten_without_groups (es : list entry) :
  Forall (λ e, is_plain_group e = false) es → _flatten es = es.
Proof.
  unfold _flatten. induction 1 as [|e es He _ IH]; [done |].
  cbn [map concat]. rewrite IH. by destruct e.
Qed.

(** X24: [_flatten] expands the groups that are not summaries, at any
    nesting depth, and keeps everything else as it is and in order: the
    result holds no such group; a list that holds none is returned
    unchanged; a group is replaced, in its place, by its own flattened
    entries, its description being dropped; the entries of a concatenation
    are the flattened entries of its parts, in the same order.  So
    flattening a second time changes nothing. *)
Theorem flatten_leaves_no_group
    (es es' : list entry) (d : option string) :
  Forall (λ e, is_plain_group e = false) (_flatten es)
  ∧ (Forall (λ e, is_plain_group e = false) es → _flatten es = es)
  ∧ _flatten (Group es d :: es') = _flatten es ++ _flatten es'
  ∧ _flatten (es ++ es') = _flatten es ++ _flatten es'
  ∧ _flatten (_flatten es) = _flatten es.
Proof.
  assert (H : Forall (λ e, is_plain_group e = false) (_flatten es)).
  { unfold _flatten. induction es as [|e es IH]; [constructor |].
    cbn [map concat]. apply Forall_app.
    split; [apply flatten_item_no_group | done]. }
  split_and!.
  - done.
  - apply flatten_without_groups.
  - reflexivity.
  - unfold _flatten. by rewrite map_app, concat_app.
  - by apply flatten_without_groups.
Qed.

(** A log entry, a group that holds a failed entry and an empty group, and
    a summary that holds a group: the entries come out in order and the
    summary is kept with what it holds. *)
Lemma flatten_leaves_no_group_witness :
  _flatten [Plain true;
            Group [Plain false; Group [] None] (Some "checks");
            Summary [Group [] None] None]
  = [Plain true; Plain false; Summary [Group [] None] None]
  ∧ _flatten [Plain true; Plain false; Summary [Group [] None] None]
    = [Plain true; Plain false; Summary [Group [] None] None].
Proof.
  split; [reflexivity |].
  refine (proj1 (proj2 (flatten_leaves_no_group
                          [Plain true; Plain false;
                           Summary [Group [] None] None] [] None)) _).
  repeat constructor.
Defined.

(** X25: flattening keeps the verdict.  A group passes exactly when all
    the entries left after its groups are expanded are true, whatever the
    nesting; an empty group, nested or not, never makes a group fail. *)
Theorem flatten_keeps_verdict (es : list entry) (d d' : option string) :
  passed (Group (_flatten es) d') = passed (Group es d)
  ∧ passed (Group es d) = forallb truth (_flatten es).
Proof.
  unfold passed. rewrite !truth_of_group.
  assert (H : forallb truth (_flatten es) = forallb truth es).
  { apply forallb_concat_map. apply Forall_forall. intros e _.
    apply flatten_item_truth. }
  by rewrite H.
Qed.

End groups_of_entries.


(** ** The first resource; what an abort leaves behind *)

(** X26: [first] gives the oldest identifier still in the environment: it
    raises [StopIteration] exactly on an empty environment, an addition to
    an environment that holds a resource does not change it, and an addition
    to an empty environment makes the added identifier the first. *)
Theorem first_is_oldest
    (e : Environment.t) (σ : store) (item : addr) (uid : string) :
  Environment_contains e uid = false →
  (Environment_first e = inl StopIteration ↔ Environment._resources e = [])
  ∧ Environment_first (Environment.add e σ item (Some uid)).1.2
    = inr (match Environment_first e with inr u => u | inl _ => uid end).
Proof.
  unfold Environment_contains, Environment_first, Environment.add.
  intros Hfresh.
  change (default (Resource._uid (σ item)) (Some uid)) with uid.
  rewrite Hfresh. cbn [fst snd Environment._resources].
  destruct (Environment._resources e) as [|[k a] d] eqn:Hd.
  - split; [done |]. reflexivity.
  - split; [split; discriminate |].
    cbn [od_set]. destruct (decide (k = uid)) as [-> |]; [| done].
    apply od_mem_false in Hfresh. cbn [od_get] in Hfresh.
    by rewrite decide_True in Hfresh.
Qed.

Lemma first_is_oldest_witness :
  (Environment_first Examples.env_db = inl StopIteration
   ↔ Environment._resources Examples.env_db = [])
  ∧ Environment_first
      (Environment.add Examples.env_db Examples.store_db 1 (Some "cache")).1.2
    = inr (match Environment_first Examples.env_db with
           | inr u => u
           | inl _ => "cache"
           end).
Proof.
  apply (first_is_oldest Examples.env_db Examples.store_db 1 "cache").
  reflexivity.
Defined.

(** The second loop of [start] leaves the synchronous resources alone. *)
Lemma start_wait_loop_sync (rs : list addr) :
  ∀ (excs : list (addr * Environment.failure)) (σ : store) (b : addr),
    Resource.async_start (Resource.cfg (σ b)) = false →
    (Environment.start_wait_loop excs σ rs).1.2 b = σ b.
Proof.
  induction rs as [|a rest IH]; intros excs σ b Hb; [done |].
  cbn [Environment.start_wait_loop].
  destruct (negb _) eqn:Hsync; [by apply IH |].
  destruct (od_mem a excs); [done |].
  assert (Hne : a ≠ b).
  { intros ->. by rewrite Hb in Hsync. }
  destruct (Resource.wait (σ a) ResourceStatus.STARTED) as [[e|] r'];
    cbn [fst snd] in *; [by rewrite fn_lookup_insert_ne |].
  specialize (IH excs (<[a := r']> σ) b).
  destruct (Environment.start_wait_loop excs (<[a := r']> σ) rest)
    as [[oe σ'] evs].
  cbn [fst snd] in *. rewrite IH; rewrite fn_lookup_insert_ne; done.
Qed.

Lemma abort_sets_should_abort (a : addr) (r : Resource.t) :
  Resource._should_abort (Resource.abort a r).1.2 = true.
Proof.
  unfold Resource.abort, Resource.call_hook.
  destruct (run_hook _ _ _) as [[e |] t']; reflexivity.
Qed.

Lemma abort_entity_spec (c : Runnable.config) (σ : store) (a : addr) :
  Resource._should_abort ((Runnable._abort_entity c σ a).1 a) = true
  ∧ (∀ b, b ≠ a → (Runnable._abort_entity c σ a).1 b = σ b).
Proof.
  unfold Runnable._abort_entity.
  pose proof (abort_sets_should_abort a (σ a)) as Hsa.
  destruct (Resource.abort a (σ a)) as [[[e |] r'] evs]; cbn [fst snd] in *;
    (split; [by rewrite fn_lookup_insert
            | intros b Hb; by rewrite fn_lookup_insert_ne]).
Qed.

Lemma abort_all_spec (c : Runnable.config) (deps : list addr) :
  ∀ σ,
    (∀ b, Resource._should_abort (σ b) = true →
          Resource._should_abort ((Runnable.abort_all c σ deps).1 b) = true)
    ∧ (∀ a, a ∈ deps →
            Resource._should_abort ((Runnable.abort_all c σ deps).1 a) = true)
    ∧ (∀ b, b ∉ deps → (Runnable.abort_all c σ deps).1 b = σ b).
Proof.
  induction deps as [|a rest IH]; intros σ; cbn [Runnable.abort_all].
  - split_and!; [done | | done]. intros a Ha. by apply elem_of_nil in Ha.
  - destruct (abort_entity_spec c σ a) as [Ha Hothers].
    destruct (Runnable._abort_entity c σ a) as [σ1 evs1]. cbn [fst] in *.
    destruct (IH σ1) as (Hkeep & Hin & Hout).
    destruct (Runnable.abort_all c σ1 rest) as [σ2 evs2]. cbn [fst] in *.
    split_and!.
    + intros b Hb. apply Hkeep.
      destruct (decide (b = a)) as [-> |]; [done |]. by rewrite Hothers.
    + intros b [-> | Hb]%elem_of_cons; [by apply Hkeep | by apply Hin].
    + intros b Hb. apply not_elem_of_cons in Hb as [Hne Hb].
      rewrite (Hout b Hb). by apply Hothers.
Qed.

(** X27: [abort] leaves nothing active, and only the runnable's own hook
    decides how it ends.  Whatever the hooks do and however the resources
    are shared, [abort] on a runnable raises exactly what its own
    [aborting] hook raises, run in the status the runnable had, and
    returns when that hook returns: an exception of a dependency never
    leaves [abort].  Afterwards the runnable and every resource of its
    environment have the should-abort flag set, so none of them is active;
    the resources outside the environment are not touched; the runnable is
    marked aborted when its own hook returned, and keeps its aborted flag
    when the hook raised. *)
Theorem abort_leaves_nothing_active (m : Runnable.methods) (c : Runnable.core) :
  (Runnable.abort m c).1
  = (run_hook RunnableStatus.transitions (Runnable.tag_of c)
       (Runnable.aborting m)).1
  ∧ Runnable.tag_of (Runnable.abort m c).2
    = (run_hook RunnableStatus.transitions (Runnable.tag_of c)
         (Runnable.aborting m)).2
  ∧ Runnable._aborted (Runnable.abort m c).2
    = match (run_hook RunnableStatus.transitions (Runnable.tag_of c)
               (Runnable.aborting m)).1 with
      | None => true
      | Some _ => Runnable._aborted c
      end
  ∧ Runnable.active (Runnable.abort m c).2 = false
  ∧ (∀ a, a ∈ Runnable.abort_dependencies c →
          Resource.active (Runnable.objects (Runnable.abort m c).2 a) = false)
  ∧ (∀ b, b ∉ Runnable.abort_dependencies c →
          Runnable.objects (Runnable.abort m c).2 b = Runnable.objects c b).
Proof.
  unfold Runnable.abort. cbv zeta.
  change (Runnable.cfg (Runnable.log (Runnable.set_should_abort c true) _))
    with (Runnable.cfg c).
  change (Runnable.objects (Runnable.log (Runnable.set_should_abort c true) _))
    with (Runnable.objects c).
  change (Runnable.abort_dependencies
            (Runnable.log (Runnable.set_should_abort c true) _))
    with (Runnable.abort_dependencies c).
  destruct (abort_all_spec (Runnable.cfg c) (Runnable.abort_dependencies c)
              (Runnable.objects c)) as (_ & Hin & Hout).
  destruct (Runnable.abort_all _ _ _) as [σ evs]. cbn [fst] in *.
  change (Runnable.tag_of (Runnable.log (Runnable.set_resources _ _ _) _))
    with (Runnable.tag_of c).
  destruct (run_hook _ _ _) as [[e |] t']; cbn [fst snd];
    (split_and!;
     [ reflexivity
     | reflexivity
     | reflexivity
     | reflexivity
     | intros a Ha; cbn [Runnable.objects Runnable.log Runnable.set_aborted
                         Runnable.set_tag Runnable.set_resources];
       unfold Resource.active, Entity.active; by rewrite (Hin a Ha)
     | intros b Hb; cbn [Runnable.objects Runnable.log Runnable.set_aborted
                         Runnable.set_tag Runnable.set_resources];
       by apply Hout ]).
Qed.

(** The [aborting] hook of the only resource of [Examples.owner] raises:
    [abort] on the runnable returns all the same and marks it aborted. *)
Lemma abort_with_failing_dependency_example :
  (Resource.abort 0 (Runnable.objects Examples.owner 0)).1.1
  = Some (UserException "A.aborting")
  ∧ (Runnable.abort Runnable.base Examples.owner).1 = None
  ∧ Runnable._aborted (Runnable.abort Runnable.base Examples.owner).2 = true.
Proof. split_and!; vm_compute; reflexivity. Qed.

(** X28: an environment built without a parent starts nothing.  The call
    of the logger, the first statement of the [try], raises
    [AttributeError] for the first resource: [start] is called on no
    resource, the first resource is recorded in the start-failure map with
    that exception and the loop ends there; the stop-failure map is not
    touched, and all that can follow are the waits of the second loop. *)
Theorem start_without_parent_starts_nothing
    (e : Environment.t) (σ : store) (a : addr) (rest : list addr) :
  Environment.parent e = None →
  Environment.values e = a :: rest →
  started_of (Environment.start e σ).2 = []
  ∧ Environment.start_exceptions (Environment.start e σ).1.1.2
    = od_set a (Resource.name (Resource.cfg (σ a)),
                PropertyAttributeError "debug")
        (Environment.start_exceptions e)
  ∧ Environment.stop_exceptions (Environment.start e σ).1.1.2
    = Environment.stop_exceptions e
  ∧ (∀ b, Resource.async_start (Resource.cfg (σ b)) = false →
          (Environment.start e σ).1.2 b = σ b).
Proof.
  intros Hparent Hvalues.
  unfold Environment.start, Environment.logger_debug.
  rewrite Hparent, Hvalues. cbn [Environment.start_loop].
  set (excs := od_set a _ _).
  pose proof (started_of_wait_loop (a :: rest) excs σ) as Hwaits.
  pose proof (start_wait_loop_sync (a :: rest) excs σ) as Hsync.
  destruct (Environment.start_wait_loop excs σ (a :: rest)) as [[oe σ2] evs2].
  cbn [fst snd Environment.start_exceptions Environment.stop_exceptions app]
    in *.
  split_and!; done.
Qed.

Lemma start_without_parent_starts_nothing_witness :
  started_of (Environment.start env_abc_alone Examples.store_abc).2 = []
  ∧ Environment.start_exceptions
      (Environment.start env_abc_alone Examples.store_abc).1.1.2
    = od_set 0 (Resource.name (Resource.cfg (Examples.store_abc 0)),
                PropertyAttributeError "debug")
        (Environment.start_exceptions env_abc_alone)
  ∧ Environment.stop_exceptions
      (Environment.start env_abc_alone Examples.store_abc).1.1.2
    = Environment.stop_exceptions env_abc_alone
  ∧ (∀ b, Resource.async_start (Resource.cfg (Examples.store_abc b)) = false →
          (Environment.start env_abc_alone Examples.store_abc).1.2 b
          = Examples.store_abc b).
Proof.
  apply (start_without_parent_starts_nothing env_abc_alone Examples.store_abc
           0 [1; 2]).
  - reflexivity.
  - reflexivity.
Defined.
